(** * The cookiecutter end-to-end sessions of the SDK's nox files

    A shallow embedding of [test_cookiecutter] (noxfile.py) and of its
    sibling [do_something] (e2e-tests/cookiecutters/noxfile.py), with the
    parts of the Python library they call: [os.path], [str.replace],
    [int], [glob.glob], nox's [session.run], and the stream editor the
    sessions spawn to patch the generated manifest. *)

From Stdlib Require Import String Ascii List ZArith Bool Arith Lia.
Import ListNotations.

Local Open Scope string_scope.
Local Open Scope list_scope.

(** Python's [+] on [str]. *)
Infix "+++" := String.append (right associativity, at level 60).

(* ================================================================== *)
(** ** Characters and strings *)

Module Str.

Definition slash : ascii := "/"%char.
Definition newline : ascii := "010"%char.
Definition dquote : ascii := "034"%char.
Definition backslash : ascii := "092"%char.

Definition chr (c : ascii) : string := String c EmptyString.

Definition is_empty (s : string) : bool :=
  match s with EmptyString => true | String _ _ => false end.

(** [s.startswith(p)] *)
Definition startswith (s p : string) : bool := String.prefix p s.

(** [s.endswith(c)] for a one-character [c] *)
Fixpoint endswith_char (s : string) (c : ascii) : bool :=
  match s with
  | EmptyString => false
  | String a EmptyString => Ascii.eqb a c
  | String _ s' => endswith_char s' c
  end.

(** [s[n:]] *)
Fixpoint drop (n : nat) (s : string) : string :=
  match n, s with
  | O, _ => s
  | S _, EmptyString => EmptyString
  | S k, String _ s' => drop k s'
  end.

(** [s[:n]] *)
Fixpoint take (n : nat) (s : string) : string :=
  match n, s with
  | O, _ => EmptyString
  | S _, EmptyString => EmptyString
  | S k, String c s' => String c (take k s')
  end.

(** [s.replace(old, new)] for a non-empty [old]: the occurrences of [old]
    are found from left to right and do not overlap; [skip] counts the
    characters of an occurrence that are still to be passed over. *)
Fixpoint replace_from (old new : string) (skip : nat) (s : string) : string :=
  match s with
  | EmptyString => EmptyString
  | String c s' =>
      match skip with
      | S k => replace_from old new k s'
      | O =>
          if String.prefix old s
          then new +++ replace_from old new (String.length old - 1) s'
          else String c (replace_from old new 0 s')
      end
  end.

Definition replace (s old new : string) : string := replace_from old new 0 s.

(** [s.split(c)] *)
Fixpoint split (c : ascii) (s : string) : list string :=
  match s with
  | EmptyString => [EmptyString]
  | String a s' =>
      if Ascii.eqb a c then EmptyString :: split c s'
      else match split c s' with
           | [] => [chr a]
           | w :: ws => String a w :: ws
           end
  end.

(** [sep.join(l)] *)
Fixpoint join (sep : string) (l : list string) : string :=
  match l with
  | [] => EmptyString
  | [w] => w
  | w :: ws => w +++ sep +++ join sep ws
  end.

(** [c * n] *)
Fixpoint repeat_char (c : ascii) (n : nat) : string :=
  match n with O => EmptyString | S k => String c (repeat_char c k) end.

(** [True] when every character of [s] is [c] *)
Fixpoint all_char (c : ascii) (s : string) : bool :=
  match s with
  | EmptyString => true
  | String a s' => Ascii.eqb a c && all_char c s'
  end.

(** [s.rstrip(c)] *)
Fixpoint rstrip_char (c : ascii) (s : string) : string :=
  match s with
  | EmptyString => EmptyString
  | String a s' =>
      let r := rstrip_char c s' in
      if Ascii.eqb a c && is_empty r then EmptyString else String a r
  end.

(** [c in s] *)
Fixpoint mem_char (c : ascii) (s : string) : bool :=
  match s with
  | EmptyString => false
  | String a s' => Ascii.eqb a c || mem_char c s'
  end.

End Str.

(* ================================================================== *)
(** ** [os.path] (posixpath) *)

Module Path.
Import Str.

(** [os.path.basename]: what follows the last slash. [acc] is the text
    after the last slash seen so far. *)
Fixpoint basename_from (acc p : string) : string :=
  match p with
  | EmptyString => acc
  | String c p' =>
      if Ascii.eqb c slash then basename_from p' p' else basename_from acc p'
  end.

Definition basename (p : string) : string := basename_from p p.

(** [os.path.dirname]: the text up to and including the last slash, with
    its trailing slashes removed unless it consists of slashes only. *)
Definition dirname (p : string) : string :=
  let head := take (String.length p - String.length (basename p)) p in
  if all_char slash head then head else rstrip_char slash head.

Definition isabs (p : string) : bool := startswith p "/".

(** [os.path.join(a, b)] *)
Definition join (a b : string) : string :=
  if startswith b "/" then b
  else if is_empty a || endswith_char a slash then a +++ b
  else a +++ "/" +++ b.

(** One step of the component loop of [normpath]. *)
Definition norm_step (initial_slashes : nat) (new_comps : list string) (comp : string)
  : list string :=
  if String.eqb comp "" || String.eqb comp "." then new_comps
  else if negb (String.eqb comp "..")
          || (Nat.eqb initial_slashes 0 && Nat.eqb (List.length new_comps) 0)
          || String.eqb (List.last new_comps "") ".."
       then new_comps ++ [comp]
       else List.removelast new_comps.

(** [os.path.normpath] *)
Definition normpath (path : string) : string :=
  if is_empty path then "."
  else
    let initial_slashes :=
      if startswith path "/"
      then if startswith path "//" && negb (startswith path "///") then 2 else 1
      else 0 in
    let comps := List.fold_left (norm_step initial_slashes) (split slash path) [] in
    let path' := repeat_char slash initial_slashes +++ Str.join "/" comps in
    if is_empty path' then "." else path'.

(** [os.path.abspath], given the process's working directory *)
Definition abspath (cwd path : string) : string :=
  normpath (if isabs path then path else join cwd path).

(** The place the components [comps] lead to from the directory [cur],
    one step at a time, on a file system without symbolic links: an empty
    component and [.] stay, [..] goes to the parent, a name goes down. *)
Fixpoint follow (cur : string) (comps : list string) : string :=
  match comps with
  | [] => cur
  | c :: rest =>
      if is_empty c || String.eqb c "." then follow cur rest
      else if String.eqb c ".." then follow (dirname cur) rest
      else follow (join cur c) rest
  end.

(** The components the kernel follows from the root for the path [p] of
    a process in the directory [cwd]. *)
Definition components (cwd p : string) : list string :=
  split slash (if isabs p then p else cwd +++ "/" +++ p).

End Path.

(* ================================================================== *)
(** ** [int(s)] on a string *)

Module PyInt.
Import Str.

(** The white space [int] skips at both ends of ASCII text: tab to
    carriage return, and space. The separators 28 to 31, which [str.strip]
    removes, are not among them. *)
Definition is_space (c : ascii) : bool :=
  let n := nat_of_ascii c in
  (Nat.leb 9 n && Nat.leb n 13) || Nat.eqb n 32.

Fixpoint is_ascii (s : string) : bool :=
  match s with
  | EmptyString => true
  | String c s' => Nat.ltb (nat_of_ascii c) 128 && is_ascii s'
  end.

(** The text this module reads: ASCII only, where [int] neither maps
    digits and spaces of other scripts nor depends on the interpreter, and
    at most 640 characters, which no interpreter's limit on the number of
    digits forbids. *)
Definition modelled (s : string) : bool :=
  is_ascii s && Nat.leb (String.length s) 640.

Fixpoint lstrip (s : string) : string :=
  match s with
  | EmptyString => EmptyString
  | String c s' => if is_space c then lstrip s' else s
  end.

Fixpoint rstrip (s : string) : string :=
  match s with
  | EmptyString => EmptyString
  | String c s' =>
      let r := rstrip s' in
      if is_space c && is_empty r then EmptyString else String c r
  end.

Definition digit (c : ascii) : option Z :=
  let n := nat_of_ascii c in
  if Nat.leb 48 n && Nat.leb n 57 then Some (Z.of_nat (n - 48)) else None.

(** What the scanner has just read. *)
Inductive seen := Nothing | Digit | Underscore.

(** Decimal digits, single underscores allowed between two digits. *)
Fixpoint digits (acc : Z) (prev : seen) (s : string) : option Z :=
  match s with
  | EmptyString => match prev with Digit => Some acc | _ => None end
  | String c s' =>
      match digit c with
      | Some d => digits (10 * acc + d) Digit s'
      | None =>
          if Ascii.eqb c "_"
          then match prev with Digit => digits acc Underscore s' | _ => None end
          else None
      end
  end.

(** [int(s)] on modelled text: [None] stands for [ValueError]. *)
Definition int (s : string) : option Z :=
  match lstrip (rstrip s) with
  | String "+" t => digits 0 Nothing t
  | String "-" t => option_map Z.opp (digits 0 Nothing t)
  | t => digits 0 Nothing t
  end.

End PyInt.

(* ================================================================== *)
(** ** The file system *)

Module FS.
Import Str.

(** A regular file with its bytes, or a directory with the names of its
    entries in the order a scan of it yields them. *)
Inductive node :=
| File (content : string)
| Dir (names : list string).

(** Absolute, normalised path to node. *)
Definition filesystem := string -> option node.

Definition exists_ (fs : filesystem) (p : string) : bool :=
  match fs p with Some _ => true | None => false end.

Definition isfile (fs : filesystem) (p : string) : bool :=
  match fs p with Some (File _) => true | _ => false end.

Definition isdir (fs : filesystem) (p : string) : bool :=
  match fs p with Some (Dir _) => true | _ => false end.

(** [os.listdir]; no entry when [p] is not a directory. *)
Definition listdir (fs : filesystem) (p : string) : list string :=
  match fs p with Some (Dir names) => names | _ => [] end.

Definition mem_name (n : string) (l : list string) : bool :=
  List.existsb (String.eqb n) l.

(** Where the kernel's resolution of a path ends: at a place, on a
    component that is missing ([ENOENT]), or on one that is no directory
    ([ENOTDIR]). *)
Inductive reached :=
| Found (place : string)
| Missing
| Blocked.

(** The kernel follows the components one at a time, as [Path.follow]
    does, and what it stands on must be a directory before each step. *)
Fixpoint walk (fs : filesystem) (cur : string) (comps : list string) : reached :=
  match comps with
  | [] => Found cur
  | c :: rest =>
      match fs cur with
      | Some (Dir _) =>
          if is_empty c || String.eqb c "." then walk fs cur rest
          else if String.eqb c ".." then walk fs (Path.dirname cur) rest
          else walk fs (Path.join cur c) rest
      | Some (File _) => Blocked
      | None => Missing
      end
  end.

(** What [stat] finds for a path: a node at a place, or an error. *)
Inductive status :=
| At (place : string) (n : node)
| NoEntry
| NotDirectory.

(** [os.stat(p)] for a process in the directory [cwd]; the empty path
    names nothing. *)
Definition stat (fs : filesystem) (cwd p : string) : status :=
  if is_empty p then NoEntry
  else match walk fs "/" (Path.components cwd p) with
       | Found q => match fs q with Some n => At q n | None => NoEntry end
       | Missing => NoEntry
       | Blocked => NotDirectory
       end.

(** The directory [d] with the name [n] entered, last when it is new. *)
Definition enter_name (n : string) (d : option node) : option node :=
  match d with
  | Some (Dir names) =>
      Some (Dir (if mem_name n names then names else names ++ [n]))
  | other => other
  end.

(** Create or overwrite the regular file [p]. *)
Definition write_file (p content : string) (fs : filesystem) : filesystem :=
  fun q =>
    if String.eqb q p then Some (File content)
    else if String.eqb q (Path.dirname p)
         then enter_name (Path.basename p) (fs q)
         else fs q.

End FS.

(* ================================================================== *)
(** ** [glob.glob] *)

Module Glob.
Import Str FS.

(** [glob.has_magic] *)
Definition has_magic (s : string) : bool :=
  mem_char "*" s || mem_char "?" s || mem_char "[" s.

Definition is_hidden (name : string) : bool := startswith name ".".

(** The directory part [os.path.split] gives for [d + '/*']: [d] without
    its trailing slashes, or with one slash more when it consists of
    slashes only. *)
Definition head (d : string) : string :=
  let h := d +++ "/" in
  if all_char slash h then h else rstrip_char slash h.

(** [glob.glob(d + '/*', recursive=True)] where [d] has no wildcard: the
    entries of [d] that are not hidden, each joined to the directory
    part, in scan order. *)
Definition children (fs : filesystem) (d : string) : list string :=
  List.map (Path.join (head d))
    (List.filter (fun n => negb (is_hidden n)) (listdir fs d)).

(** *** A directory part with wildcards

    [glob] expands the directory part one component at a time. The model
    reads components made of plain characters, [?], [*] and brackets
    around letters, digits and underscores; a bracket that is not closed,
    is empty or holds anything else, and the component [**], are left to
    the host (see [Nox.glob_star]). *)

(** One item of a component's pattern. *)
Inductive item :=
| Lit (c : ascii)
| One
| Many
| Among (chars : list ascii).

(** A character that stands for itself wherever it is put in a bracket. *)
Definition ordinary (c : ascii) : bool :=
  let n := nat_of_ascii c in
  (Nat.leb 48 n && Nat.leb n 57) || (Nat.leb 65 n && Nat.leb n 90)
  || (Nat.leb 97 n && Nat.leb n 122) || Nat.eqb n 95.

(** The items of a component; [inside] holds the characters of the
    bracket being read, last first. *)
Fixpoint parse (inside : option (list ascii)) (s : string) : option (list item) :=
  match s with
  | EmptyString => match inside with None => Some [] | Some _ => None end
  | String c s' =>
      match inside with
      | Some set =>
          if Ascii.eqb c "]"
          then match set with
               | [] => None
               | _ :: _ => option_map (cons (Among (List.rev set))) (parse None s')
               end
          else if ordinary c then parse (Some (c :: set)) s' else None
      | None =>
          if Ascii.eqb c "[" then parse (Some []) s'
          else if Ascii.eqb c "*" then option_map (cons Many) (parse None s')
          else if Ascii.eqb c "?" then option_map (cons One) (parse None s')
          else option_map (cons (Lit c)) (parse None s')
      end
  end.

(** [fnmatch]: the whole name matches the items. *)
Fixpoint matches (p : list item) : string -> bool :=
  match p with
  | [] => is_empty
  | Lit c :: p' =>
      fun s => match s with
               | String a s' => Ascii.eqb a c && matches p' s'
               | EmptyString => false
               end
  | One :: p' =>
      fun s => match s with
               | String _ s' => matches p' s'
               | EmptyString => false
               end
  | Among set :: p' =>
      fun s => match s with
               | String a s' => List.existsb (Ascii.eqb a) set && matches p' s'
               | EmptyString => false
               end
  | Many :: p' =>
      fix star (s : string) : bool :=
        matches p' s
        || match s with
           | String _ s' => star s'
           | EmptyString => false
           end
  end.

(** The directories one more component leads to from the directories
    [dirs]: with a wildcard, the entries that are directories and whose
    names match, hidden ones only for a pattern that starts with a dot;
    without one, the component itself where it exists. *)
Definition step (fs : filesystem) (dirs : list string) (comp : string)
  : option (list string) :=
  if has_magic comp then
    if String.eqb comp "**" then None
    else match parse None comp with
         | None => None
         | Some p =>
             Some (List.flat_map
                     (fun d =>
                        List.map (Path.join d)
                          (List.filter
                             (fun n => (is_hidden comp || negb (is_hidden n))
                                       && isdir fs (Path.join d n) && matches p n)
                             (listdir fs d)))
                     dirs)
         end
  else
    Some (List.flat_map
            (fun d => if exists_ fs (Path.join d comp) then [Path.join d comp] else [])
            dirs).

Fixpoint expand (fs : filesystem) (dirs : list string) (comps : list string)
  : option (list string) :=
  match comps with
  | [] => Some dirs
  | c :: rest =>
      match step fs dirs c with
      | Some next => expand fs next rest
      | None => None
      end
  end.

(** The components before the first one with a wildcard, and the rest. *)
Fixpoint leading (comps : list string) : list string * list string :=
  match comps with
  | [] => ([], [])
  | c :: rest =>
      if has_magic c then ([], comps)
      else let (lead, more) := leading rest in (c :: lead, more)
  end.

(** A component of a path in normal form. *)
Definition proper (c : string) : bool :=
  negb (is_empty c) && negb (String.eqb c ".") && negb (String.eqb c "..").

(** The directories the pattern [d] stands for, [d] being an absolute
    path in normal form: the components before the first wildcard are
    taken as they are, the others are expanded. [None] where the model
    does not read the pattern. *)
Definition directories (fs : filesystem) (d : string) : option (list string) :=
  match split slash d with
  | EmptyString :: comps =>
      if List.forallb proper comps
      then let (lead, more) := leading comps in
           expand fs ["/" +++ Str.join "/" lead] more
      else None
  | _ => None
  end.

End Glob.

(* ================================================================== *)
(** ** The stream editor

    The sessions patch the manifest with one [s] command of a sed clone,
    edited in place with a backup suffix. The model covers the scripts
    [s<d>regex<d>replacement<d>] with no flag, a regex made of plain
    characters, [.] and a postfix star, and a replacement made of plain
    characters, the whole-match sign and escaped punctuation. Anything
    else is left to the host (see [Nox.spawn]). *)

Module Sed.
Import Str FS.

Inductive atom := Chr (c : ascii) | Any.

(** An atom, starred or not. *)
Definition regex := list (atom * bool).

Inductive ritem := Lit (c : ascii) | Whole.

Definition atom_matches (a : atom) (c : ascii) : bool :=
  match a with Chr x => Ascii.eqb x c | Any => true end.

(** The length of the match of [r] at the start of the text: a starred
    atom takes all it can and gives back one character at a time. *)
Fixpoint match_here (r : regex) : string -> option nat :=
  match r with
  | [] => fun _ => Some 0
  | (a, false) :: r' =>
      fun s =>
        match s with
        | String c s' =>
            if atom_matches a c then option_map S (match_here r' s') else None
        | EmptyString => None
        end
  | (a, true) :: r' =>
      fix star (s : string) : option nat :=
        match s with
        | String c s' =>
            if atom_matches a c
            then match star s' with
                 | Some n => Some (S n)
                 | None => match_here r' s
                 end
            else match_here r' s
        | EmptyString => match_here r' s
        end
  end.

Fixpoint expand (items : list ritem) (matched : string) : string :=
  match items with
  | [] => EmptyString
  | Lit c :: t => String c (expand t matched)
  | Whole :: t => matched +++ expand t matched
  end.

(** The line with its leftmost match replaced, [None] when nothing matches. *)
Fixpoint subst_first (r : regex) (items : list ritem) (line : string) : option string :=
  match match_here r line with
  | Some n => Some (expand items (take n line) +++ drop n line)
  | None =>
      match line with
      | EmptyString => None
      | String c l => option_map (String c) (subst_first r items l)
      end
  end.

Definition subst_line (r : regex) (items : list ritem) (line : string) : string :=
  match subst_first r items line with Some l => l | None => line end.

(** The lines of a text, each with whether a newline ends it. *)
Fixpoint lines (s : string) : list (string * bool) :=
  match s with
  | EmptyString => []
  | String c s' =>
      if Ascii.eqb c newline then (EmptyString, true) :: lines s'
      else match lines s' with
           | [] => [(chr c, false)]
           | (l, nl) :: rest => (String c l, nl) :: rest
           end
  end.

Fixpoint unlines (l : list (string * bool)) : string :=
  match l with
  | [] => EmptyString
  | (s, nl) :: rest => s +++ (if nl then chr newline else EmptyString) +++ unlines rest
  end.

(** The [s] command applied to every line of a text. *)
Definition edit (r : regex) (items : list ritem) (content : string) : string :=
  unlines (List.map (fun l => (subst_line r items (fst l), snd l)) (lines content)).

Definition regex_special (c : ascii) : bool :=
  mem_char c "\[]^$*+?(){}|" || Ascii.eqb c newline.

(** The regex up to the delimiter [d], and what follows the delimiter. *)
Fixpoint parse_regex (d : ascii) (s : string) : option (regex * string) :=
  match s with
  | EmptyString => None
  | String c s' =>
      if Ascii.eqb c d then Some ([], s')
      else if regex_special c then None
      else
        let a := if Ascii.eqb c "." then Any else Chr c in
        match s' with
        | String "*" s'' =>
            option_map (fun p => ((a, true) :: fst p, snd p)) (parse_regex d s'')
        | _ =>
            option_map (fun p => ((a, false) :: fst p, snd p)) (parse_regex d s')
        end
  end.

Definition is_alnum (c : ascii) : bool :=
  let n := nat_of_ascii c in
  (Nat.leb 48 n && Nat.leb n 57) || (Nat.leb 65 n && Nat.leb n 90)
  || (Nat.leb 97 n && Nat.leb n 122).

(** The replacement up to the delimiter [d], and what follows it. A
    backslash before punctuation gives that character. *)
Fixpoint parse_replacement (d : ascii) (s : string) : option (list ritem * string) :=
  match s with
  | EmptyString => None
  | String c s' =>
      if Ascii.eqb c d then Some ([], s')
      else if Ascii.eqb c newline then None
      else if Ascii.eqb c backslash then
        match s' with
        | EmptyString => None
        | String e s'' =>
            if is_alnum e || Ascii.eqb e newline then None
            else option_map (fun p => (Lit e :: fst p, snd p)) (parse_replacement d s'')
        end
      else if Ascii.eqb c "&" then
        option_map (fun p => (Whole :: fst p, snd p)) (parse_replacement d s')
      else option_map (fun p => (Lit c :: fst p, snd p)) (parse_replacement d s')
  end.

(** [s<d>regex<d>replacement<d>] *)
Definition parse_script (script : string) : option (regex * list ritem) :=
  match script with
  | String "s" (String d rest) =>
      if Ascii.eqb d backslash || Ascii.eqb d newline then None
      else
        match parse_regex d rest with
        | None => None
        | Some (r, rest') =>
            match parse_replacement d rest' with
            | Some (items, EmptyString) => Some (r, items)
            | _ => None
            end
        end
  | _ => None
  end.

(** [-i<suffix> script file] run in [cwd]: the file is rewritten and its
    former bytes are kept under [file<suffix>]; exit status 0. [None]
    where the model does not reach: another option, a script outside the
    fragment, a suffix that is a pattern, no regular file to edit. *)
Definition command (args : list string) (cwd : string) (fs : filesystem)
  : option (Z * filesystem) :=
  match args with
  | [opt; script; file] =>
      let suffix := drop 2 opt in
      if startswith opt "-i" && negb (mem_char "*" suffix) && negb (mem_char slash suffix)
         && negb (startswith file "-")
      then
        match parse_script script with
        | None => None
        | Some (r, items) =>
            let path := Path.abspath cwd file in
            match fs path with
            | Some (File content) =>
                let kept :=
                  if is_empty suffix then fs
                  else write_file (path +++ suffix) content fs in
                Some (0%Z, write_file path (edit r items content) kept)
            | _ => None
            end
        end
      else None
  | _ => None
  end.

End Sed.

(* ================================================================== *)
(** ** The nox session: world, exceptions, primitives *)

Module Nox.
Import Str FS.

(** What a session asks of its host: [session.run] with its words and
    its [external] flag, or [session.install] with its packages. *)
Inductive action :=
| Run (argv : list string) (external : bool)
| Install (pkgs : list string).

(** The process as the session sees it: the file system, the working
    directory, the actions performed so far with their exit statuses
    (oldest first) and the lines printed. *)
Record world := {
  fs : filesystem;
  cwd : string;
  log : list (action * Z);
  out : list string
}.

(** What lies outside the repository and outside the model: what an
    action does to the file system and the status it exits with; what
    [glob] returns for a pattern the model of [glob] does not read; and
    what [int] makes of text the model of [int] does not read, [None]
    standing for [ValueError]. *)
Record host := {
  tool : action -> world -> Z * filesystem;
  glob_magic : string -> filesystem -> list string;
  int_beyond : string -> option Z
}.

Inductive exn :=
| CommandFailed (a : action) (status : Z)
| FileNotFoundError (path : string)
| NotADirectoryError (path : string)
| UnboundLocalError (name : string)
| ValueError (text : string).

Inductive result (A : Type) :=
| Ok (a : A)
| Raise (e : exn).
Arguments Ok {A} a.
Arguments Raise {A} e.

(** A computation: it returns or raises, and leaves a world either way. *)
Definition M (A : Type) := world -> result A * world.

Definition ret {A} (a : A) : M A := fun w => (Ok a, w).

Definition raise {A} (e : exn) : M A := fun w => (Raise e, w).

Definition bind {A B} (m : M A) (k : A -> M B) : M B :=
  fun w =>
    match m w with
    | (Ok a, w') => k a w'
    | (Raise e, w') => (Raise e, w')
    end.

Declare Scope nox_scope.
Delimit Scope nox_scope with nox.
Notation "x <- m ;; k" := (bind m (fun x => k))
  (at level 61, m at next level, right associativity) : nox_scope.
Notation "m ;; k" := (bind m (fun _ => k))
  (at level 61, right associativity) : nox_scope.
Local Open Scope nox_scope.

Definition print (line : string) : M unit :=
  fun w => (Ok tt, {| fs := fs w; cwd := cwd w; log := log w; out := out w ++ [line] |}).

Definition os_getcwd : M string := fun w => (Ok (cwd w), w).

Definition os_path_abspath (p : string) : M string :=
  fun w => (Ok (Path.abspath (cwd w) p), w).

(** Where the path [p] leads from the working directory. *)
Definition locate (w : world) (p : string) : string :=
  Path.follow "/" (Path.components (cwd w) p).

(** [os.path.exists], [os.path.isfile], [os.path.isdir]: what [os.stat]
    finds, any error giving [False]. *)
Definition path_exists (w : world) (p : string) : bool :=
  match stat (fs w) (cwd w) p with At _ _ => true | _ => false end.

Definition path_isfile (w : world) (p : string) : bool :=
  match stat (fs w) (cwd w) p with At _ (File _) => true | _ => false end.

Definition path_isdir (w : world) (p : string) : bool :=
  match stat (fs w) (cwd w) p with At _ (Dir _) => true | _ => false end.

Definition os_path_exists (p : string) : M bool := fun w => (Ok (path_exists w p), w).

Definition os_path_isfile (p : string) : M bool := fun w => (Ok (path_isfile w p), w).

(** [os.chdir]: the working directory becomes the place the path leads
    to, as [os.getcwd] reports it afterwards. *)
Definition os_chdir (p : string) : M unit :=
  fun w =>
    match stat (fs w) (cwd w) p with
    | At q (Dir _) => (Ok tt, {| fs := fs w; cwd := q; log := log w; out := out w |})
    | At _ (File _) => (Raise (NotADirectoryError p), w)
    | NotDirectory => (Raise (NotADirectoryError p), w)
    | NoEntry => (Raise (FileNotFoundError p), w)
    end.

Definition bool_str (b : bool) : string := if b then "True" else "False".

(** Reading a local variable that may not have been assigned. *)
Definition read_local {A} (name : string) (v : option A) : M A :=
  match v with
  | Some a => ret a
  | None => raise (UnboundLocalError name)
  end.

Section Host.

Variable h : host.

(** What an action does: the stream editor where the model reaches, the
    host's tool otherwise. *)
Definition spawn (a : action) (w : world) : Z * filesystem :=
  match a with
  | Run (prog :: args) _ =>
      if String.eqb prog "pythonsed"
      then match Sed.command args (cwd w) (fs w) with
           | Some r => r
           | None => tool h a w
           end
      else tool h a w
  | _ => tool h a w
  end.

(** The action is performed and logged; a non-zero status raises
    [CommandFailed]. *)
Definition perform (a : action) : M unit :=
  fun w =>
    let (status, fs') := spawn a w in
    let w' := {| fs := fs'; cwd := cwd w;
                 log := log w ++ [(a, status)]; out := out w |} in
    if Z.eqb status 0 then (Ok tt, w') else (Raise (CommandFailed a status), w').

Definition session_run (argv : list string) (external : bool) : M unit :=
  perform (Run argv external).

Definition session_install (pkgs : list string) : M unit :=
  perform (Install pkgs).

(** [glob.glob(d + '/*', recursive=True)]: the entries of [d], or of
    every directory [d] stands for when it holds a wildcard, the host
    answering where the model does not read the pattern. *)
Definition glob_star (d : string) : M (list string) :=
  fun w =>
    (Ok (if Glob.has_magic d
         then match Glob.directories (fs w) d with
              | Some dirs => List.flat_map (Glob.children (fs w)) dirs
              | None => glob_magic h (d +++ "/*") (fs w)
              end
         else Glob.children (fs w) d), w).

(* ---------------------------------------------------------------- *)
(** *** noxfile.py: [test_cookiecutter] *)

Definition default_posargs : list string :=
  ["./cookiecutter/tap-template";
   "./e2e-tests/cookiecutters/tap-rest-api_key-github.json"].

(** The local variables lines 180 to 202 bind. *)
Record inputs := {
  args : list string;
  tap_template : string;
  replay_file : string;
  sdk_dir : string;
  cc_output_dir : string;
  cc_test_output : string
}.

Definition cc_build_path : string := "/tmp".

(** Lines 180 to 202. [None] is one of the three [return 0]. *)
Definition input_resolver (posargs : list string) : M (option inputs) :=
  let args := match posargs with [] => default_posargs | _ => posargs end in
  if Nat.eqb (List.length args) 1 then
    print ("ERROR:" +++ List.nth 0 args "") ;;
    ret None
  else
    tap_template <- os_path_abspath (List.nth 0 args "") ;;
    replay_file <- os_path_abspath (List.nth 1 args "") ;;
    found <- os_path_exists tap_template ;;
    if negb found then
      print "Tap template folder not found" ;;
      ret None
    else
      regular <- os_path_isfile replay_file ;;
      if negb regular then
        print "Replay file not found" ;;
        ret None
      else
        let sdk_dir := Path.dirname (Path.dirname tap_template) in
        let cc_output_dir := replace (Path.basename (List.nth 1 args "")) ".json" "" in
        let cc_test_output := cc_build_path +++ "/" +++ cc_output_dir in
        ret (Some {| args := args; tap_template := tap_template;
                     replay_file := replay_file; sdk_dir := sdk_dir;
                     cc_output_dir := cc_output_dir;
                     cc_test_output := cc_test_output |}).

(** Lines 204 and 205. *)
Definition stale_output_cleaner (cc_test_output : string) : M unit :=
  stale <- os_path_exists cc_test_output ;;
  if stale then session_run ["rm"; "-fr"; cc_test_output] true else ret tt.

(** Lines 207 to 213. *)
Definition scaffold_generator (i : inputs) : M unit :=
  session_install ["."] ;;
  session_install ["cookiecutter"; "pythonsed"] ;;
  session_run ["cookiecutter"; "--replay-file"; replay_file i;
               tap_template i; "-o"; cc_build_path] false ;;
  os_chdir (cc_test_output i) ;;
  d <- os_getcwd ;;
  print d.

(** The script of lines 215 and 216. *)
Definition patch_script (sdk_dir : string) : string :=
  "s|singer-sdk =.*|singer-sdk = \{ path = " +++ chr dquote +++ sdk_dir
  +++ chr dquote +++ ", develop = true \}|".

(** Lines 215 and 216. *)
Definition patch_manifest (sdk_dir : string) : M unit :=
  session_run ["pythonsed"; "-i.bak"; patch_script sdk_dir; "pyproject.toml"] false.

(** Lines 215 to 218. *)
Definition dependency_patcher (sdk_dir : string) : M unit :=
  patch_manifest sdk_dir ;;
  session_run ["poetry"; "lock"] true ;;
  session_run ["poetry"; "install"] true.

Definition is_library (name : string) : bool :=
  startswith name "tap" || startswith name "target".

(** The body of the loop of lines 220 to 222. *)
Definition discovery_step (library_name : option string) (path : string)
  : option string :=
  if startswith (Path.basename path) "tap" || startswith (Path.basename path) "target"
  then Some (Path.basename path)
  else library_name.

(** Lines 220 to 222; [None] when [library_name] is left unbound. *)
Definition library_discovery : M (option string) :=
  d <- os_getcwd ;;
  paths <- glob_star d ;;
  ret (List.fold_left discovery_step paths None).

(** Lines 224 to 227. *)
Definition quality_gates (library_name : option string) : M unit :=
  (lib <- read_local "library_name" library_name ;;
   session_run ["poetry"; "run"; "black"; lib] true) ;;
  (lib <- read_local "library_name" library_name ;;
   session_run ["poetry"; "run"; "isort"; lib] true) ;;
  (lib <- read_local "library_name" library_name ;;
   session_run ["poetry"; "run"; "flake8"; lib] true) ;;
  (lib <- read_local "library_name" library_name ;;
   session_run ["poetry"; "run"; "mypy"; lib] true).

(** [int(text)] as a value: the model of [int] where it reads the text,
    the host otherwise; [None] stands for [ValueError]. *)
Definition int_of (text : string) : option Z :=
  if PyInt.modelled text then PyInt.int text else int_beyond h text.

(** [int(text)] *)
Definition py_int (text : string) : M Z :=
  match int_of text with
  | Some z => ret z
  | None => raise (ValueError text)
  end.

(** Lines 229 and 230. *)
Definition aggregate_lint (args : list string) : M unit :=
  wanted <- (if Nat.ltb (List.length args) 3 then ret true
             else z <- py_int (List.nth 2 args "") ;; ret (Z.eqb z 1)) ;;
  if (wanted : bool)
  then session_run ["poetry"; "run"; "tox"; "-e"; "lint"] true
  else ret tt.

(** Lines 220 to 230. *)
Definition verification_runner (args : list string) : M unit :=
  library_name <- library_discovery ;;
  quality_gates library_name ;;
  aggregate_lint args.

(** The session: [Some 0] is [return 0], [None] is falling off the end. *)
Definition test_cookiecutter (posargs : list string) : M (option Z) :=
  resolved <- input_resolver posargs ;;
  match resolved with
  | None => ret (Some 0%Z)
  | Some i =>
      stale_output_cleaner (cc_test_output i) ;;
      scaffold_generator i ;;
      dependency_patcher (sdk_dir i) ;;
      verification_runner (args i) ;;
      ret None
  end.

(* ---------------------------------------------------------------- *)
(** *** e2e-tests/cookiecutters/noxfile.py: [do_something] *)

Definition do_something (posargs : list string) : M (option Z) :=
  session_run ["pip"; "install"; "virtualenv"] false ;;
  session_run ["pip"; "install"; "nox"] false ;;
  session_run ["pip"; "install"; "cookiecutter"] false ;;
  session_run ["pip"; "install"; "pythonsed"] false ;;
  session_run ["pip"; "install"; "poetry"] false ;;
  if negb (negb (List.length posargs =? 0)%nat && (List.length posargs =? 2)%nat) then
    print "INPUT IS WRONG!!!" ;;
    ret (Some 0%Z)
  else
    tap_template <- os_path_abspath (List.nth 0 posargs "") ;;
    replay_file <- os_path_abspath (List.nth 1 posargs "") ;;
    let sdk_dir := Path.dirname (Path.dirname tap_template) in
    let cc_output_dir := replace (Path.basename (List.nth 1 posargs "")) "json" "" in
    let cc_test_output := replace (cc_build_path +++ "/" +++ cc_output_dir) "." "" in
    print "START" ;;
    (b <- os_path_exists cc_test_output ;; print (bool_str b)) ;;
    stale <- os_path_exists cc_test_output ;;
    (if stale then session_run ["rm"; "-fr"; cc_test_output] false else ret tt) ;;
    (b <- os_path_exists cc_test_output ;; print (bool_str b)) ;;
    print "FINSH" ;;
    (d <- os_getcwd ;; print d) ;;
    session_run ["cookiecutter"; "--replay-file"; replay_file;
                 tap_template; "-o"; cc_build_path] false ;;
    (b <- os_path_exists cc_test_output ;; print (bool_str b)) ;;
    current_path <- os_getcwd ;;
    print current_path ;;
    os_chdir cc_test_output ;;
    (d <- os_getcwd ;; print d) ;;
    session_run ["pythonsed"; "-i.bak"; patch_script sdk_dir; "pyproject.toml"] false ;;
    session_run ["poetry"; "lock"] false ;;
    session_run ["poetry"; "install"] false ;;
    let library_name := "tap_rest_api_key_github" in
    session_run ["poetry"; "run"; "black"; library_name] false ;;
    session_run ["poetry"; "run"; "isort"; library_name] false ;;
    session_run ["poetry"; "run"; "flake8"; library_name] false ;;
    session_run ["poetry"; "run"; "mypy"; library_name] false ;;
    ret None.

End Host.

End Nox.

(* ================================================================== *)
(** ** A concrete host, for running the model *)

Module Demo.
Import Str FS Nox.

Definition nl : string := chr newline.

Definition template : string := "/repo/cookiecutter/tap-template".
Definition replay : string := "/repo/e2e-tests/cookiecutters/tap-rest-api_key-github.json".
Definition project : string := "/tmp/tap-rest-api_key-github".
Definition dotted_replay : string := "/repo/e2e-tests/cookiecutters/a.json.b.json".

(** The repository checked out at [/repo], and an empty [/tmp]. *)
Definition repo : filesystem :=
  fun p =>
    if String.eqb p "/" then Some (Dir ["repo"; "tmp"])
    else if String.eqb p "/repo" then Some (Dir ["cookiecutter"; "e2e-tests"; "noxfile.py"])
    else if String.eqb p "/repo/noxfile.py" then Some (File "import nox")
    else if String.eqb p "/repo/cookiecutter" then Some (Dir ["tap-template"])
    else if String.eqb p template then Some (Dir ["cookiecutter.json"])
    else if String.eqb p "/repo/e2e-tests" then Some (Dir ["cookiecutters"])
    else if String.eqb p "/repo/e2e-tests/cookiecutters"
         then Some (Dir ["tap-rest-api_key-github.json"; "a.json.b.json"])
    else if String.eqb p replay then Some (File "{}")
    else if String.eqb p dotted_replay then Some (File "{}")
    else if String.eqb p "/tmp" then Some (Dir [])
    else None.

(** A rendered project at [root]: a manifest and the entries [names]. *)
Definition rendered (root manifest : string) (names : list string) (fs : filesystem)
  : filesystem :=
  fun p =>
    if String.eqb p root then Some (Dir ("pyproject.toml" :: names))
    else if String.eqb p (root +++ "/pyproject.toml") then Some (File manifest)
    else if String.eqb p "/tmp" then enter_name (Path.basename root) (fs p)
    else fs p.

Definition is_program (name : string) (a : action) : bool :=
  match a with
  | Run (prog :: _) _ => String.eqb prog name
  | _ => false
  end.

(** A host whose template engine renders the project and whose tools
    exit with [status] and touch nothing. *)
Definition host_of (root manifest : string) (names : list string) (status : action -> Z)
  : host :=
  {| tool := fun a w =>
       (status a,
        if is_program "cookiecutter" a then rendered root manifest names (fs w)
        else fs w);
     glob_magic := fun _ _ => [];
     int_beyond := fun _ => None |}.

Definition start (fs : filesystem) (cwd : string) : world :=
  {| fs := fs; cwd := cwd; log := []; out := [] |}.

Definition all_pass (a : action) : Z := 0%Z.

(** The tool named [name] under [poetry run] exits with [status]. *)
Definition failing (name : string) (status : Z) (a : action) : Z :=
  match a with
  | Run (_ :: _ :: tool :: _) _ => if String.eqb tool name then status else 0%Z
  | _ => 0%Z
  end.

Definition one_line_manifest : string :=
  "[tool.poetry.dependencies]" +++ nl +++
  "python = 3.9" +++ nl +++
  "singer-sdk = 0.14.0" +++ nl.

Definition two_line_manifest : string :=
  "[tool.poetry.dependencies]" +++ nl +++
  "singer-sdk = 0.14.0" +++ nl +++
  "[tool.poetry.dev-dependencies]" +++ nl +++
  "singer-sdk = { version = 0.14.0, extras = [testing] }" +++ nl.

Definition no_line_manifest : string :=
  "[tool.poetry.dependencies]" +++ nl +++
  "python = 3.9" +++ nl.

Definition names : list string := ["README.md"; "tap_rest_api_key_github"; "tests"].

Definition host0 : host := host_of project one_line_manifest names all_pass.

Definition world0 : world := start repo "/repo".

(** The process inside a freshly rendered project. *)
Definition inside (manifest : string) (names : list string) : world :=
  start (rendered project manifest names repo) project.

Definition four_args : list string := [template; replay; "0"; "extra"].

Definition missing_replay_args : list string := [template; "/repo/missing.json"].

(** A host whose template leaves out the dependency line. *)
Definition host_plain : host := host_of project no_line_manifest names all_pass.

(** Entries of which two match, a directory-like name and a file-like one. *)
Definition two_libraries : list string := ["tap_a"; "README.md"; "target_b.txt"; "tests"].

(** [two_line_manifest] with both of its lines rewritten for [/repo]. *)
Definition two_lines_patched : string :=
  "[tool.poetry.dependencies]" +++ nl +++
  "singer-sdk = { path = " +++ chr dquote +++ "/repo" +++ chr dquote
    +++ ", develop = true }" +++ nl +++
  "[tool.poetry.dev-dependencies]" +++ nl +++
  "singer-sdk = { path = " +++ chr dquote +++ "/repo" +++ chr dquote
    +++ ", develop = true }" +++ nl.

End Demo.

(* ================================================================== *)
(** ** Vocabulary of the statements *)

Module Spec.
Import Str FS Nox.
Local Open Scope nox_scope.

(** What a run added to the log. *)
Definition trace_of (w w' : world) : list (action * Z) :=
  List.skipn (List.length (log w)) (log w').

(** The actions, each with exit status 0. *)
Definition zeros (cmds : list action) : list (action * Z) :=
  List.map (fun a => (a, 0%Z)) cmds.

Definition is_prefix {A} (l full : list A) : Prop := exists rest, full = l ++ rest.

(** A world that differs from [w] by one printed line. *)
Definition printed (line : string) (w : world) : world :=
  {| fs := fs w; cwd := cwd w; log := log w; out := out w ++ [line] |}.

(** The actions performed one after the other, up to the first failure. *)
Fixpoint script (h : host) (cmds : list action) : M unit :=
  match cmds with
  | [] => ret tt
  | a :: rest => perform h a ;; script h rest
  end.

(** *** The input resolver *)

Definition effective_args (posargs : list string) : list string :=
  match posargs with [] => default_posargs | _ => posargs end.

(** The three tests of lines 184, 192 and 196. *)
(** The values lines 189 to 202 derive. *)
Definition resolve (posargs : list string) (cwd : string) : inputs :=
  let a := effective_args posargs in
  let template := Path.abspath cwd (List.nth 0 a "") in
  let name := replace (Path.basename (List.nth 1 a "")) ".json" "" in
  {| args := a;
     tap_template := template;
     replay_file := Path.abspath cwd (List.nth 1 a "");
     sdk_dir := Path.dirname (Path.dirname template);
     cc_output_dir := name;
     cc_test_output := "/tmp/" +++ name |}.

(** The three tests of lines 184, 192 and 196. *)
Definition rejects (posargs : list string) (w : world) : bool :=
  let i := resolve posargs (cwd w) in
  Nat.eqb (List.length (args i)) 1
  || negb (path_exists w (tap_template i))
  || negb (path_isfile w (replay_file i)).

(** The condition of the specification: a wrong count, no template
    directory, no replay file. *)
Definition usage_error (posargs : list string) (w : world) : bool :=
  negb (Nat.eqb (List.length posargs) 2 || Nat.eqb (List.length posargs) 3)
  || negb (path_isdir w (List.nth 0 posargs ""))
  || negb (path_isfile w (List.nth 1 posargs "")).

(** Stale output is in the way. *)
Definition stale (posargs : list string) (w : world) : bool :=
  path_exists w (cc_test_output (resolve posargs (cwd w))).

(** The name with one trailing [suffix] removed, as the specification
    words the derivation of the output name. *)
Fixpoint strip_suffix (suffix s : string) : string :=
  if String.eqb s suffix then EmptyString
  else match s with
       | EmptyString => EmptyString
       | String c s' => String c (strip_suffix suffix s')
       end.

(** [old] occurs somewhere in [s]. *)
Fixpoint occurs (old s : string) : bool :=
  String.prefix old s
  || match s with
     | EmptyString => false
     | String _ s' => occurs old s'
     end.

(** *** The plan of a run *)

Definition rm_command (i : inputs) : action := Run ["rm"; "-fr"; cc_test_output i] true.

Definition cookiecutter_command (i : inputs) : action :=
  Run ["cookiecutter"; "--replay-file"; replay_file i; tap_template i; "-o"; "/tmp"] false.

Definition sed_command (sdk_dir : string) : action :=
  Run ["pythonsed"; "-i.bak"; patch_script sdk_dir; "pyproject.toml"] false.

Definition lock_command : action := Run ["poetry"; "lock"] true.

Definition install_command : action := Run ["poetry"; "install"] true.

Definition tox_command : action := Run ["poetry"; "run"; "tox"; "-e"; "lint"] true.

Definition gate (external : bool) (tool library_name : string) : action :=
  Run ["poetry"; "run"; tool; library_name] external.

(** Formatter, import sorter, style linter, type checker. *)
Definition gate_commands (external : bool) (library_name : string) : list action :=
  [gate external "black" library_name; gate external "isort" library_name;
   gate external "flake8" library_name; gate external "mypy" library_name].

(** [poetry run <one of the four tools> <one word>] *)
Definition is_gate (a : action) : bool :=
  match a with
  | Run [p; r; t; _] _ =>
      String.eqb p "poetry" && String.eqb r "run"
      && (String.eqb t "black" || String.eqb t "isort"
          || String.eqb t "flake8" || String.eqb t "mypy")
  | _ => false
  end.

(** The gates of a trace, in the order they were run. *)
Definition gates_of (t : list (action * Z)) : list action :=
  List.filter is_gate (List.map fst t).

(** An action that exits with a non-zero status is the last one of the
    trace, and the run raises [CommandFailed] with that action and status. *)
Definition fail_fast {A} (r : result A) (t : list (action * Z)) : Prop :=
  forall before a s after,
    t = before ++ (a, s) :: after -> s <> 0%Z ->
    after = [] /\ r = Raise (CommandFailed a s).

(** The gates of a run against the fixed list [gates]: those that ran are
    its first ones in its order, a run that falls off the end ran them
    all, and a failure stops the run. *)
Definition orderly (gates : list action) (r : result (option Z))
  (t : list (action * Z)) : Prop :=
  is_prefix (gates_of t) gates
  /\ (r = Ok None -> gates_of t = gates)
  /\ fail_fast r t.

(** The cleaner runs when stale output is in the way. *)
Definition clean_plan (i : inputs) (stale : bool) : list action :=
  if stale then [rm_command i] else [].

Definition generate_plan (i : inputs) : list action :=
  [Install ["."]; Install ["cookiecutter"; "pythonsed"]; cookiecutter_command i].

Definition patch_plan (i : inputs) : list action :=
  [sed_command (sdk_dir i); lock_command; install_command].

(** The third argument asks for the aggregate lint pass, or is absent. *)
Definition wants_lint (h : host) (args : list string) : bool :=
  Nat.ltb (List.length args) 3
  || match int_of h (List.nth 2 args "") with
     | Some z => Z.eqb z 1
     | None => false
     end.

Definition lint_plan (h : host) (args : list string) : list action :=
  if wants_lint h args then [tox_command] else [].

Definition plan (h : host) (i : inputs) (stale : bool) (library_name : string)
  : list action :=
  clean_plan i stale ++ generate_plan i ++ patch_plan i
  ++ gate_commands true library_name ++ lint_plan h (args i).

(** What the plan holds before the gates. *)
Definition before_gates (i : inputs) (st : bool) : list action :=
  clean_plan i st ++ generate_plan i ++ patch_plan i.

(** How a run that passed the input resolver ends, against its plan:
    every action passed, or one failed and was the last, or the run
    stopped between two stages on another exception. *)
Definition ran (h : host) (i : inputs) (stale : bool) (library_name : string)
  (r : result (option Z)) (t : list (action * Z)) : Prop :=
  match r with
  | Ok (Some _) => False
  | Ok None => t = zeros (plan h i stale library_name)
  | Raise (CommandFailed a s) =>
      s <> 0%Z /\
      exists done rest,
        plan h i stale library_name = done ++ a :: rest /\ t = zeros done ++ [(a, s)]
  | Raise (FileNotFoundError _) | Raise (NotADirectoryError _) =>
      t = zeros (clean_plan i stale ++ generate_plan i)
  | Raise (UnboundLocalError _) =>
      t = zeros (clean_plan i stale ++ generate_plan i ++ patch_plan i)
  | Raise (ValueError _) =>
      t = zeros (clean_plan i stale ++ generate_plan i ++ patch_plan i
                 ++ gate_commands true library_name)
      /\ wants_lint h (args i) = false
  end.

(** *** The patch *)

Definition needle : string := "singer-sdk =".

(** The path dependency the patch writes. *)
Definition declaration (sdk_dir : string) : string :=
  "singer-sdk = { path = " +++ chr dquote +++ sdk_dir +++ chr dquote
  +++ ", develop = true }".

(** The line with everything from the first [old] on replaced by [new]. *)
Fixpoint rewrite_line (old new line : string) : string :=
  if String.prefix old line then new
  else match line with
       | EmptyString => EmptyString
       | String c l => String c (rewrite_line old new l)
       end.

(** No character the editor's script gives a meaning to. *)
Fixpoint sed_plain (s : string) : bool :=
  match s with
  | EmptyString => true
  | String c s' =>
      negb (Ascii.eqb c "|" || Ascii.eqb c "&" || Ascii.eqb c backslash
            || Ascii.eqb c newline)
      && sed_plain s'
  end.

Definition manifest_path (w : world) : string := Path.abspath (cwd w) "pyproject.toml".

Definition backup_path (w : world) : string := manifest_path w +++ ".bak".

(** The regex of the patch: the text [singer-sdk =], then anything. *)
Definition needle_regex : Sed.regex :=
  List.map (fun c => (Sed.Chr c, false)) (list_ascii_of_string needle)
  ++ [(Sed.Any, true)].

(** A replacement that stands for itself. *)
Definition literal (s : string) : list Sed.ritem :=
  List.map Sed.Lit (list_ascii_of_string s).

(** The manifest as the patch leaves it. *)
Definition patched (sdk_dir content : string) : string :=
  Sed.unlines
    (List.map (fun l => (rewrite_line needle (declaration sdk_dir) (fst l), snd l))
       (Sed.lines content)).

(** The number of places where two lists of lines differ. *)
Fixpoint changed_lines (old new : list (string * bool)) : nat :=
  match old, new with
  | a :: old', b :: new' =>
      (if String.eqb (fst a) (fst b) then 0 else 1) + changed_lines old' new'
  | _, _ => List.length old + List.length new
  end.

(** *** Discovery *)

Definition slash_free (name : string) : Prop := mem_char slash name = false.

Fixpoint last_option {A} (l : list A) : option A :=
  match l with
  | [] => None
  | [a] => Some a
  | _ :: l' => last_option l'
  end.

(** The last entry whose name starts with [tap] or [target]. *)
Definition last_library (names : list string) : option string :=
  last_option (List.filter is_library names).

End Spec.

(* ================================================================== *)
(** ** More vocabulary: where a run of [test_cookiecutter] lands *)

Module Landing.
Import Str FS Nox Spec.

(** Where the session expects the generated project. *)
Definition generated_project (posargs : list string) (w : world) : string :=
  locate w (cc_test_output (resolve posargs (cwd w))).

(** The number of actions of cleaning and generation. *)
Definition before_patch (posargs : list string) (w : world) : nat :=
  List.length (clean_plan (resolve posargs (cwd w)) (stale posargs w)
               ++ generate_plan (resolve posargs (cwd w))).

(** The first action of a run that passes the input resolver. *)
Definition first_action (posargs : list string) (w : world) : action :=
  if stale posargs w then rm_command (resolve posargs (cwd w)) else Install ["."].

(** What a run leaves besides its trace: the working directory, and the
    reason of an exception that is no failed command. *)
Definition lands (h : host) (posargs : list string) (w : world)
  (r : result (option Z)) (w' : world) : Prop :=
  let i := resolve posargs (cwd w) in
  cwd w' = (if Nat.ltb (before_patch posargs w) (List.length (trace_of w w'))
            then generated_project posargs w else cwd w)
  /\ (forall p, r = Raise (FileNotFoundError p) ->
        p = cc_test_output i /\ path_exists w' p = false)
  /\ (forall p, r = Raise (NotADirectoryError p) ->
        p = cc_test_output i /\ path_isdir w' p = false)
  /\ (r = Ok None ->
        (List.length (args i) < 3)%nat \/ int_of h (List.nth 2 (args i) "") <> None)
  /\ (forall x, r = Raise (ValueError x) ->
        x = List.nth 2 (args i) "" /\ (3 <= List.length (args i))%nat
        /\ int_of h x = None)
  /\ (forall n, r = Raise (UnboundLocalError n) ->
        n = "library_name" /\ fst (library_discovery h w') = Ok None).

End Landing.

(* ================================================================== *)
(** ** More hosts and worlds, for running the model *)

Module Cases.
Import Str FS Nox.

(** A host whose tools all exit with status 0 and touch nothing: its
    template engine renders no project. *)
Definition host_idle : host :=
  {| tool := fun _ w => (0%Z, fs w); glob_magic := fun _ _ => [];
     int_beyond := fun _ => None |}.

(** A third argument that is no integer. *)
Definition worded_flag : list string := [Demo.template; Demo.replay; "yes"].

(** A replay file whose name is the suffix alone. *)
Definition bare_replay : string := "/repo/e2e-tests/cookiecutters/.json".

Definition world_bare : world :=
  Demo.start (write_file bare_replay "{}" Demo.repo) "/repo".

End Cases.

(* ================================================================== *)
(** ** The shape of the lines of a text *)

Module Shape.
Import Str.

(** No newline inside. *)
Definition one_line (s : string) : bool := negb (mem_char newline s).

(** Lines as [Sed.lines] yields them: no newline inside a line, and a
    line without a line end is the last one and is not empty. *)
Fixpoint well_formed (l : list (string * bool)) : bool :=
  match l with
  | [] => true
  | (s, nl) :: rest =>
      one_line s
      && (if nl then well_formed rest
          else negb (is_empty s) && match rest with [] => true | _ :: _ => false end)
  end.

End Shape.

(* ================================================================== *)
(** ** More vocabulary: the runs of [do_something] *)

Module E2E.
Import Str FS Nox Spec.

(** The world an action leaves, whatever its exit status. *)
Definition after (h : host) (a : action) (w : world) : world :=
  {| fs := snd (spawn h a w); cwd := cwd w;
     log := log w ++ [(a, fst (spawn h a w))]; out := out w |}.

(** Lines 42 to 46. *)
Definition pip_installs : list action :=
  List.map (fun p => Run ["pip"; "install"; p] false)
    ["virtualenv"; "nox"; "cookiecutter"; "pythonsed"; "poetry"].

(** The world the five installations leave. *)
Definition installed (h : host) (w : world) : world :=
  List.fold_left (fun w a => after h a w) pip_installs w.

(** Where the session looks for the generated project (lines 55 and 56). *)
Definition expected_output (posargs : list string) : string :=
  replace (cc_build_path +++ "/"
           +++ replace (Path.basename (List.nth 1 posargs "")) "json" "") "." "".

(** Stale output is in the way once the installations are done. *)
Definition in_the_way (h : host) (posargs : list string) (w : world) : bool :=
  path_exists (installed h w) (expected_output posargs).

(** Lines 60 to 69. *)
Definition build_plan (posargs : list string) (cwd0 : string) (stale : bool)
  : list action :=
  (if stale then [Run ["rm"; "-fr"; expected_output posargs] false] else [])
  ++ [Run ["cookiecutter"; "--replay-file"; Path.abspath cwd0 (List.nth 1 posargs "");
           Path.abspath cwd0 (List.nth 0 posargs ""); "-o"; cc_build_path] false].

(** Lines 75 to 83. *)
Definition check_plan (posargs : list string) (cwd0 : string) : list action :=
  [sed_command (Path.dirname (Path.dirname (Path.abspath cwd0 (List.nth 0 posargs ""))));
   Run ["poetry"; "lock"] false; Run ["poetry"; "install"] false]
  ++ gate_commands false "tap_rest_api_key_github".

(** What the session performs when nothing stops it. *)
Definition run_plan (posargs : list string) (cwd0 : string) (stale : bool)
  : list action :=
  pip_installs
  ++ (if Nat.eqb (List.length posargs) 2
      then build_plan posargs cwd0 stale ++ check_plan posargs cwd0
      else []).

(** How a run ends, against its plan. *)
Definition finished (posargs : list string) (w : world) (stale : bool)
  (r : result (option Z)) (w' : world) : Prop :=
  let t := trace_of w w' in
  match r with
  | Ok (Some z) =>
      z = 0%Z /\ List.length posargs <> 2%nat /\ t = zeros pip_installs
      /\ out w' = out w ++ ["INPUT IS WRONG!!!"]
  | Ok None =>
      List.length posargs = 2%nat /\ t = zeros (run_plan posargs (cwd w) stale)
  | Raise (CommandFailed a s) =>
      s <> 0%Z /\
      exists done rest,
        run_plan posargs (cwd w) stale = done ++ a :: rest /\ t = zeros done ++ [(a, s)]
  | Raise (FileNotFoundError p) | Raise (NotADirectoryError p) =>
      p = expected_output posargs /\ List.length posargs = 2%nat
      /\ t = zeros (pip_installs ++ build_plan posargs (cwd w) stale)
  | Raise _ => False
  end.

End E2E.

(* ================================================================== *)
(** ** Arguments of [do_something], for running the model *)

Module SiblingCases.
Import Str FS Nox.

Definition both_args : list string := [Demo.template; Demo.replay].

Definition one_arg : list string := [Demo.template].

End SiblingCases.

(* ================================================================== *)
(** ** The other sessions of noxfile.py

    [mypy], [tests], [update_snapshots], [doctest], [coverage], [docs] and
    [docs_serve] (lines 54 to 174), with what they call besides
    [session.install] and [session.run]: [session.notify],
    [Path.exists], [Path.glob] and [shutil.rmtree]. *)

Module Sessions.
Import Str FS Nox.
Local Open Scope nox_scope.

(** What a session function reads of its [session] argument, of
    [os.environ] and of [sys.executable]. *)
Record setting := {
  posargs : list string;
  interactive : bool;
  environ : list (string * string);
  executable : string
}.

(** Line 23. *)
Definition package : string := "singer_sdk".

(** Lines 33 to 51. *)
Definition test_dependencies : list string :=
  ["coverage[toml]"; "pytest"; "pytest-snapshot"; "pytest-durations"; "freezegun";
   "pandas"; "pyarrow"; "requests-mock"; "black"; "cookiecutter"; "PyYAML";
   "darglint"; "flake8"; "flake8-annotations"; "flake8-docstrings"; "mypy"].

(** [bool(l)] *)
Definition truthy (l : list string) : bool :=
  match l with [] => false | _ :: _ => true end.

(** [l or default] *)
Definition or_else (l default : list string) : list string :=
  if truthy l then l else default.

(** [name in os.environ] *)
Definition in_environ (name : string) (s : setting) : bool :=
  List.existsb (fun kv => String.eqb (fst kv) name) (environ s).

(** [any(Path().glob(prefix + "*"))] for a [prefix] without wildcard: some
    entry of the working directory has a name that starts with it. *)
Definition any_glob (prefix : string) : M bool :=
  fun w =>
    (Ok (List.existsb (fun n => startswith n prefix) (listdir (fs w) (cwd w))), w).

(** The directory [d] without the name [n]. *)
Definition leave_name (n : string) (d : option node) : option node :=
  match d with
  | Some (Dir names) => Some (Dir (List.filter (fun m => negb (String.eqb m n)) names))
  | other => other
  end.

(** The path [q] is [root] or lies below it. *)
Definition below (root q : string) : bool :=
  String.eqb q root || String.prefix (root +++ "/") q.

(** The file system without the tree at [root]. *)
Definition remove_tree (root : string) (fs : filesystem) : filesystem :=
  fun q =>
    if below root q then None
    else if String.eqb q (Path.dirname root)
         then leave_name (Path.basename root) (fs q)
         else fs q.

(** [shutil.rmtree]: a directory goes with all that lies below it; a
    regular file and a missing path raise. *)
Definition shutil_rmtree (p : string) : M unit :=
  fun w =>
    match stat (fs w) (cwd w) p with
    | At q (Dir _) =>
        (Ok tt, {| fs := remove_tree q (fs w); cwd := cwd w; log := log w; out := out w |})
    | At _ (File _) => (Raise (NotADirectoryError p), w)
    | NotDirectory => (Raise (NotADirectoryError p), w)
    | NoEntry => (Raise (FileNotFoundError p), w)
    end.

(** A run of a session function that may queue other sessions: the
    process, the calls of [session.notify], and the environment each
    command was given besides the inherited one. *)
Record state := {
  sys : world;
  notified : list (string * list string);
  environments : list (action * list (string * string))
}.

Definition S (A : Type) : Type := state -> result A * state.

Definition unit_ {A} (a : A) : S A := fun st => (Ok a, st).

Definition then_ {A B} (m : S A) (k : A -> S B) : S B :=
  fun st =>
    match m st with
    | (Ok a, st') => k a st'
    | (Raise e, st') => (Raise e, st')
    end.

(** A step on the process alone. *)
Definition lift {A} (m : M A) : S A :=
  fun st =>
    (fst (m (sys st)),
     {| sys := snd (m (sys st)); notified := notified st;
        environments := environments st |}).

(** [try: body finally: cleanup]: the cleanup runs however the body
    ends, and what the body returned or raised stands unless the cleanup
    raises. *)
Definition try_finally {A} (body : S A) (cleanup : S unit) : S A :=
  fun st =>
    match cleanup (snd (body st)) with
    | (Ok _, st') => (fst (body st), st')
    | (Raise e, st') => (Raise e, st')
    end.

(** [session.notify(target, posargs=posargs)] *)
Definition session_notify (target : string) (posargs : list string) : S unit :=
  fun st =>
    (Ok tt, {| sys := sys st; notified := notified st ++ [(target, posargs)];
               environments := environments st |}).

Section Host.

Variable h : host.

(** [session.run(argv, env=env)] *)
Definition session_run_env (argv : list string) (env : list (string * string)) : S unit :=
  fun st =>
    lift (session_run h argv false)
      {| sys := sys st; notified := notified st;
         environments := environments st ++ [(Run argv false, env)] |}.

(** Lines 54 to 73. *)
Definition mypy (s : setting) : M unit :=
  let args := or_else (posargs s) ["singer_sdk"] in
  session_install h ["."] ;;
  session_install h ["mypy"; "pytest"; "importlib-resources"; "sqlalchemy2-stubs";
                     "types-jsonschema"; "types-python-dateutil"; "types-pytz";
                     "types-requests"; "types-simplejson"; "types-PyYAML"] ;;
  session_run h ("mypy" :: args) false ;;
  if negb (truthy (posargs s))
  then session_run h ["mypy"; "--python-executable=" +++ executable s; "noxfile.py"] false
  else ret tt.

(** Lines 76 to 98. *)
Definition tests (s : setting) : S unit :=
  then_ (lift (session_install h [".[s3]"])) (fun _ =>
  then_ (lift (session_install h test_dependencies)) (fun _ =>
  try_finally
    (session_run_env
       (["coverage"; "run"; "--parallel"; "-m"; "pytest"; "-v"; "--durations=10"]
        ++ posargs s)
       [("SQLALCHEMY_WARN_20", "1")])
    (if interactive s then session_notify "coverage" [] else unit_ tt))).

(** Lines 101 to 108. *)
Definition update_snapshots (s : setting) : M unit :=
  let args := or_else (posargs s) ["-m"; "snapshot"] in
  session_install h ["."] ;;
  session_install h test_dependencies ;;
  session_run h ("pytest" :: "--snapshot-update" :: args) false.

(** Lines 111 to 123. *)
Definition doctest (s : setting) : M unit :=
  let args :=
    if truthy (posargs s) then package :: posargs s
    else if in_environ "FORCE_COLOR" s then [package] ++ ["--xdoctest-colored=1"]
         else [package] in
  session_install h ["."] ;;
  session_install h ["pytest"; "xdoctest[colors]"] ;;
  session_run h ("pytest" :: "--xdoctest" :: args) false.

(** Lines 126 to 136. *)
Definition coverage (s : setting) : M unit :=
  let args := or_else (posargs s) ["report"; "-m"] in
  session_install h ["coverage[toml]"] ;;
  found <- (if negb (truthy (posargs s)) then any_glob ".coverage." else ret false) ;;
  (if found then session_run h ["coverage"; "combine"] false else ret tt) ;;
  session_run h ("coverage" :: args) false.

(** Lines 148 to 150 and 170 to 172. *)
Definition clear_build_dir : M unit :=
  let build_dir := "build" in
  there <- os_path_exists build_dir ;;
  if there then shutil_rmtree build_dir else ret tt.

(** Lines 139 to 152. *)
Definition docs (s : setting) : M unit :=
  let args := or_else (posargs s) ["docs"; "build"; "-W"] in
  let args :=
    if negb (truthy (posargs s)) && in_environ "FORCE_COLOR" s
    then "--color" :: args else args in
  session_install h [".[docs]"] ;;
  clear_build_dir ;;
  session_run h ("sphinx-build" :: args) false.

(** Lines 155 to 174. *)
Definition docs_serve (s : setting) : M unit :=
  let args := or_else (posargs s)
                ["--open-browser"; "--watch"; "."; "--ignore"; "**/.nox/*";
                 "docs"; "build"; "-W"] in
  session_install h [".[docs]"] ;;
  clear_build_dir ;;
  session_run h ("sphinx-autobuild" :: args) false.

End Host.

End Sessions.

(* ================================================================== *)
(** ** Vocabulary of the statements on the other sessions *)

Module Suite.
Import Str FS Nox Spec Sessions.

(** How a session that only installs and runs ends, against its plan:
    every action passed, or one failed and was the last. *)
Definition follows (plan : list action) (r : result unit) (t : list (action * Z))
  : Prop :=
  match r with
  | Ok _ => t = zeros plan
  | Raise (CommandFailed a c) =>
      c <> 0%Z /\
      exists done rest, plan = done ++ a :: rest /\ t = zeros done ++ [(a, c)]
  | Raise _ => False
  end.

Definition stubs : list string :=
  ["mypy"; "pytest"; "importlib-resources"; "sqlalchemy2-stubs"; "types-jsonschema";
   "types-python-dateutil"; "types-pytz"; "types-requests"; "types-simplejson";
   "types-PyYAML"].

(** The type check of the nox file itself. *)
Definition self_check (s : setting) : action :=
  Run ["mypy"; "--python-executable=" +++ executable s; "noxfile.py"] false.

Definition mypy_plan (s : setting) : list action :=
  match posargs s with
  | [] => [Install ["."]; Install stubs; Run ["mypy"; "singer_sdk"] false; self_check s]
  | _ :: _ => [Install ["."]; Install stubs; Run ("mypy" :: posargs s) false]
  end.

Definition update_snapshots_plan (s : setting) : list action :=
  [Install ["."]; Install test_dependencies;
   Run (["pytest"; "--snapshot-update"]
        ++ match posargs s with [] => ["-m"; "snapshot"] | _ :: _ => posargs s end) false].

Definition doctest_plan (s : setting) : list action :=
  [Install ["."]; Install ["pytest"; "xdoctest[colors]"];
   Run (["pytest"; "--xdoctest"; "singer_sdk"]
        ++ match posargs s with
           | [] => if in_environ "FORCE_COLOR" s then ["--xdoctest-colored=1"] else []
           | _ :: _ => posargs s
           end) false].

(** The test run of [tests]. *)
Definition pytest_command (s : setting) : action :=
  Run (["coverage"; "run"; "--parallel"; "-m"; "pytest"; "-v"; "--durations=10"]
       ++ posargs s) false.

Definition tests_installs : list action := [Install [".[s3]"]; Install test_dependencies].

Definition combine_command : action := Run ["coverage"; "combine"] false.

Definition report_command (s : setting) : action :=
  Run ("coverage" :: match posargs s with [] => ["report"; "-m"] | _ :: _ => posargs s end)
      false.

(** Some entry of the working directory is a data file of a parallel
    coverage run. *)
Definition coverage_data (w : world) : bool :=
  List.existsb (fun n => String.prefix ".coverage." n) (listdir (fs w) (cwd w)).

Definition coverage_install : action := Install ["coverage[toml]"].

(** What [coverage] performs once the installation is done, [data]
    telling whether data files were found then. *)
Definition coverage_steps (s : setting) (data : bool) : list action :=
  match posargs s with
  | [] => (if data then [combine_command] else []) ++ [report_command s]
  | _ :: _ => [report_command s]
  end.

Definition docs_install : action := Install [".[docs]"].

(** The arguments [docs] gives to the builder. *)
Definition docs_args (s : setting) : list string :=
  match posargs s with
  | [] => (if in_environ "FORCE_COLOR" s then ["--color"] else []) ++ ["docs"; "build"; "-W"]
  | _ :: _ => posargs s
  end.

(** The arguments [docs_serve] gives to the builder. *)
Definition serve_args (s : setting) : list string :=
  match posargs s with
  | [] => ["--open-browser"; "--watch"; "."; "--ignore"; "**/.nox/*"; "docs"; "build"; "-W"]
  | _ :: _ => posargs s
  end.

(** The build directory of the working directory. *)
Definition build_dir (w : world) : string := locate w "build".

(** The world without the build directory, when it is one. *)
Definition cleared (w : world) : world :=
  if path_isdir w "build"
  then {| fs := remove_tree (build_dir w) (fs w); cwd := cwd w; log := log w; out := out w |}
  else w.

(** A fresh run in the world [w]. *)
Definition fresh (w : world) : state := {| sys := w; notified := []; environments := [] |}.

(** *** Settings, hosts and worlds for running the model *)

Definition plain : setting :=
  {| posargs := []; interactive := false; environ := [];
     executable := "/usr/bin/python3" |}.

Definition at_the_terminal : setting :=
  {| posargs := ["-k"; "streams"]; interactive := true; environ := [("FORCE_COLOR", "1")];
     executable := "/usr/bin/python3" |}.

Definition combining : setting :=
  {| posargs := ["combine"]; interactive := false; environ := [];
     executable := "/usr/bin/python3" |}.

(** A host whose program [name] exits with status 1, every other tool
    with 0, and none touches a file. *)
Definition host_failing (name : string) : host :=
  {| tool := fun a w => (if Demo.is_program name a then 1%Z else 0%Z, fs w);
     glob_magic := fun _ _ => [];
     int_beyond := fun _ => None |}.

(** The repository with a built documentation tree. *)
Definition built : filesystem :=
  fun p =>
    if String.eqb p "/repo"
    then Some (Dir ["cookiecutter"; "e2e-tests"; "noxfile.py"; "build"])
    else if String.eqb p "/repo/build" then Some (Dir ["index.html"])
    else if String.eqb p "/repo/build/index.html" then Some (File "<html></html>")
    else Demo.repo p.

(** The repository with a regular file named [build]. *)
Definition blocked : filesystem := write_file "/repo/build" "" Demo.repo.

(** The repository with the data file of a parallel coverage run. *)
Definition measured : filesystem := write_file "/repo/.coverage.host.1" "" Demo.repo.

End Suite.

(* ================================================================== *)
(** ** Vocabulary: how the gates went, and the run around the patch *)

Module Progress.
Import Str FS Nox Spec.
Local Open Scope nox_scope.

(** How the gates [gates] went in a trace that starts with the first of
    them: they were all performed in their order and passed, whatever
    came after; or those before one of them passed, that one exited with
    a non-zero status, nothing was performed after it, and the run raised
    [CommandFailed] with that gate and that status. *)
Definition gates_went {A} (gates : list action) (r : result A)
  (t : list (action * Z)) : Prop :=
  (exists more, t = zeros gates ++ more)
  \/ (exists done a rest s,
        gates = done ++ a :: rest /\ s <> 0%Z
        /\ t = zeros done ++ [(a, s)] /\ r = Raise (CommandFailed a s)).

(** Lines 204 to 213: the session between its input checks and the patch. *)
Definition before_patcher (h : host) (i : inputs) : M unit :=
  stale_output_cleaner h (cc_test_output i) ;;
  scaffold_generator h i.

(** Lines 217 to 230: the session once the manifest is patched. *)
Definition after_patch (h : host) (i : inputs) : M (option Z) :=
  session_run h ["poetry"; "lock"] true ;;
  session_run h ["poetry"; "install"] true ;;
  verification_runner h (args i) ;;
  ret None.

(** The world in which the Dependency Patcher starts. *)
Definition at_patcher (h : host) (posargs : list string) (w : world) : world :=
  snd (before_patcher h (resolve posargs (cwd w)) w).

(** The run gets as far as the Dependency Patcher: the input checks
    pass, and cleaning, generation and the change of directory succeed. *)
Definition reaches_patcher (h : host) (posargs : list string) (w : world) : Prop :=
  rejects posargs w = false
  /\ fst (before_patcher h (resolve posargs (cwd w)) w) = Ok tt.

End Progress.

(* ================================================================== *)
(** ** Worlds with a wildcard or a bar in a path, for running the model *)

Module Wild.
Import Str FS Nox.

Definition project : string := "/tmp/tap-[ab]".

(** A generated project [/tmp/tap-[ab]] with the entries [names], beside
    a directory [/tmp/tap-a] with the entries [others]. *)
Definition beside (names others : list string) : filesystem :=
  fun p =>
    if String.eqb p "/" then Some (Dir ["tmp"])
    else if String.eqb p "/tmp" then Some (Dir ["tap-a"; "tap-[ab]"])
    else if String.eqb p "/tmp/tap-a" then Some (Dir others)
    else if String.eqb p project then Some (Dir names)
    else if String.prefix "/tmp/tap-a/" p then Some (Dir [])
    else if String.prefix "/tmp/tap-[ab]/" p then Some (File "")
    else None.

(** The process inside the project, none of whose entries is a library. *)
Definition without_library : world :=
  Demo.start (beside ["README.md"; "pyproject.toml"] ["target_other"]) project.

(** The process inside the project, with two libraries of its own. *)
Definition with_libraries : world :=
  Demo.start (beside ["tap_real"; "target_last"] ["target_other"; "tap_zz"]) project.

(** A checkout under a directory with a bar in its name. *)
Definition barred_template : string := "/r|d/cookiecutter/tap-template".

Definition barred : filesystem :=
  fun p =>
    if String.eqb p "/" then Some (Dir ["r|d"; "repo"; "tmp"])
    else if String.eqb p "/r|d" then Some (Dir ["cookiecutter"])
    else if String.eqb p "/r|d/cookiecutter" then Some (Dir ["tap-template"])
    else if String.eqb p barred_template then Some (Dir ["cookiecutter.json"])
    else Demo.repo p.

Definition barred_args : list string := [barred_template; Demo.replay].

Definition barred_world : world := Demo.start barred "/repo".

(** A host that renders the project and whose tools pass, except that
    the editor exits with status 1, and touches nothing, when it is given
    a script the model of the editor does not read. *)
Definition host_strict : host :=
  Demo.host_of Demo.project Demo.one_line_manifest Demo.names
    (fun a => if Demo.is_program "pythonsed" a then 1%Z else 0%Z).

End Wild.

(* ================================================================== *)
(** * Proofs *)

Import Str FS Nox Spec.
Local Open Scope nox_scope.

(* ================================================================== *)
(** ** Traces and scripts *)

Lemma skipn_length_app {A} (l t : list A) : skipn (length l) (l ++ t) = t.
Proof. induction l; simpl; auto. Qed.

Lemma trace_of_app (w w' : world) t : log w' = log w ++ t -> trace_of w w' = t.
Proof. unfold trace_of; intros ->; apply skipn_length_app. Qed.

Lemma zeros_app l1 l2 : zeros (l1 ++ l2) = zeros l1 ++ zeros l2.
Proof. apply map_app. Qed.

Lemma map_fst_zeros l : map fst (zeros l) = l.
Proof. induction l; simpl; congruence. Qed.

Lemma bind_ok {A B} (m : M A) (k : A -> M B) w a w1 :
  m w = (Ok a, w1) -> bind m k w = k a w1.
Proof. unfold bind; intros ->; reflexivity. Qed.

Lemma bind_raise {A B} (m : M A) (k : A -> M B) w e w1 :
  m w = (Raise e, w1) -> bind m k w = (Raise e, w1).
Proof. unfold bind; intros ->; reflexivity. Qed.

Lemma bind_unit_ret (m : M unit) w : bind m (fun _ => ret tt) w = m w.
Proof. unfold bind, ret; destruct (m w) as [[[]|e] w1]; reflexivity. Qed.

(** The kernel ends where the components lead. *)
Lemma walk_follow fs cur comps q :
  walk fs cur comps = Found q -> q = Path.follow cur comps.
Proof.
  revert cur; induction comps as [|c comps IH]; intros cur; cbn [walk Path.follow].
  - now intros [= <-].
  - destruct (fs cur) as [[x|names]|]; try discriminate.
    destruct (is_empty c || String.eqb c "."); [apply IH|].
    destruct (String.eqb c ".."); apply IH.
Qed.

Lemma stat_at fs cwd0 p q n :
  stat fs cwd0 p = At q n ->
  q = Path.follow "/" (Path.components cwd0 p) /\ fs q = Some n.
Proof.
  unfold stat. destruct (is_empty p); [discriminate|].
  destruct (walk fs "/" (Path.components cwd0 p)) as [q'| |] eqn:W; try discriminate.
  destruct (fs q') as [n'|] eqn:E; [|discriminate].
  intros [= <- <-]. split; [exact (walk_follow _ _ _ _ W)|exact E].
Qed.

Section HostFacts.

Variable h : host.

Lemma perform_run a w :
  let s := fst (spawn h a w) in
  perform h a w =
  (if Z.eqb s 0 then Ok tt else Raise (CommandFailed a s),
   {| fs := snd (spawn h a w); cwd := cwd w; log := log w ++ [(a, s)]; out := out w |}).
Proof.
  unfold perform; destruct (spawn h a w) as [s fs']; simpl.
  destruct (Z.eqb s 0); reflexivity.
Qed.

(** A script logs a prefix of its actions: all of them with status 0 when
    it returns, and otherwise up to the one that failed. *)
Lemma script_run cmds : forall w,
  exists t,
    log (snd (script h cmds w)) = log w ++ t
    /\ cwd (snd (script h cmds w)) = cwd w
    /\ out (snd (script h cmds w)) = out w
    /\ match fst (script h cmds w) with
       | Ok _ => t = zeros cmds
       | Raise e =>
           exists a s done rest,
             e = CommandFailed a s /\ s <> 0%Z
             /\ cmds = done ++ a :: rest /\ t = zeros done ++ [(a, s)]
       end.
Proof.
  induction cmds as [|a cmds IH]; intros w; simpl.
  - exists []; rewrite app_nil_r; auto.
  - unfold bind; rewrite perform_run.
    set (s := fst (spawn h a w)).
    destruct (Z.eqb_spec s 0) as [E|E].
    + match goal with |- context [script h cmds ?w1] => set (w' := w1) end.
      destruct (IH w') as (t & Hl & Hc & Ho & Hr).
      exists ((a, s) :: t); rewrite Hl, Hc, Ho; simpl; rewrite <- app_assoc.
      repeat split; auto.
      destruct (fst (script h cmds w')).
      * subst t; rewrite E; reflexivity.
      * destruct Hr as (b & s' & done & rest & -> & Hs & -> & ->).
        exists b, s', (a :: done), rest; rewrite E; auto.
    + exists [(a, s)]; simpl; repeat split; auto.
      exists a, s, [], cmds; auto.
Qed.

Lemma script_app l1 l2 w : script h (l1 ++ l2) w = (script h l1 ;; script h l2) w.
Proof.
  revert w; induction l1 as [|a l1 IH]; intros w; simpl.
  - reflexivity.
  - unfold bind; destruct (perform h a w) as [[[]|e] w1]; [apply IH|reflexivity].
Qed.

End HostFacts.

(* ================================================================== *)
(** ** The stages as scripts *)

Lemma input_resolver_accepts posargs w :
  rejects posargs w = false ->
  input_resolver posargs w = (Ok (Some (resolve posargs (cwd w))), w).
Proof.
  unfold rejects, input_resolver, resolve, effective_args; simpl.
  set (a := match posargs with [] => default_posargs | _ => posargs end).
  intros H. apply orb_false_elim in H as [H H3]. apply orb_false_elim in H as [H1 H2].
  rewrite H1. apply negb_false_iff in H2, H3.
  unfold bind, os_path_abspath, os_path_exists, os_path_isfile, ret; simpl.
  rewrite H2; simpl. rewrite H3; simpl. reflexivity.
Qed.

Lemma input_resolver_rejects posargs w :
  rejects posargs w = true ->
  exists line, input_resolver posargs w = (Ok None, printed line w).
Proof.
  unfold rejects, input_resolver, resolve, effective_args; simpl.
  set (a := match posargs with [] => default_posargs | _ => posargs end).
  intros H.
  destruct (Nat.eqb (length a) 1) eqn:H1; [eexists; reflexivity|].
  unfold bind, os_path_abspath, os_path_exists, os_path_isfile, ret; simpl.
  simpl in H.
  destruct (path_exists w (Path.abspath (cwd w) (nth 0 a ""))) eqn:H2; simpl in *;
    [|eexists; reflexivity].
  rewrite H; simpl. eexists; reflexivity.
Qed.

Section Stages.

Variable h : host.

Lemma stale_output_cleaner_script p w :
  stale_output_cleaner h p w
  = script h (if path_exists w p then [Run ["rm"; "-fr"; p] true] else []) w.
Proof.
  unfold stale_output_cleaner, bind, os_path_exists, session_run; simpl.
  destruct (path_exists w p); simpl; [|reflexivity].
  now rewrite bind_unit_ret.
Qed.

Lemma scaffold_generator_script i w :
  scaffold_generator h i w
  = (script h (generate_plan i) ;;
     os_chdir (cc_test_output i) ;; d <- os_getcwd ;; print d) w.
Proof.
  unfold scaffold_generator, session_install, session_run, generate_plan,
    cookiecutter_command, cc_build_path; simpl.
  unfold bind.
  repeat match goal with
         | |- context [perform h ?a ?w] => destruct (perform h a w) as [[[]|?] ?]; simpl
         end; reflexivity.
Qed.

Lemma dependency_patcher_script sdk w :
  dependency_patcher h sdk w = script h [sed_command sdk; lock_command; install_command] w.
Proof.
  unfold dependency_patcher, patch_manifest, session_run, sed_command, lock_command,
    install_command; simpl.
  unfold bind.
  repeat match goal with
         | |- context [perform h ?a ?w] => destruct (perform h a w) as [[[]|?] ?]; simpl
         end; reflexivity.
Qed.

Lemma quality_gates_script lib w :
  quality_gates h (Some lib) w = script h (gate_commands true lib) w.
Proof.
  unfold quality_gates, read_local, session_run, gate_commands, gate; simpl.
  unfold bind, ret.
  repeat match goal with
         | |- context [perform h ?a ?w] => destruct (perform h a w) as [[[]|?] ?]; simpl
         end; reflexivity.
Qed.

Lemma quality_gates_unbound w :
  quality_gates h None w = (Raise (UnboundLocalError "library_name"), w).
Proof. reflexivity. Qed.

Lemma aggregate_lint_script args w :
  aggregate_lint h args w = script h (lint_plan h args) w
  \/ (wants_lint h args = false
      /\ aggregate_lint h args w = (Raise (ValueError (nth 2 args "")), w)).
Proof.
  unfold aggregate_lint, lint_plan, wants_lint, py_int, session_run, tox_command.
  destruct (Nat.ltb (length args) 3); simpl.
  - left. now rewrite bind_unit_ret.
  - destruct (int_of h (nth 2 args "")) as [z|]; simpl.
    + left. unfold bind at 1 2; unfold ret at 1; simpl.
      destruct (Z.eqb z 1); simpl; [now rewrite bind_unit_ret | reflexivity].
    + right; auto.
Qed.

Lemma library_discovery_pure w :
  exists lib, library_discovery h w = (Ok lib, w).
Proof. unfold library_discovery, bind, os_getcwd, glob_star, ret; simpl; eauto. Qed.

End Stages.

Section Whole.

Variable h : host.

(** A script followed by [k]: either every action passed and [k] goes on,
    or one failed and the run ends there. *)
Lemma after_script {B} cmds (k : unit -> M B) w1 :
  (exists w2, bind (script h cmds) k w1 = k tt w2
              /\ log w2 = log w1 ++ zeros cmds /\ cwd w2 = cwd w1 /\ out w2 = out w1)
  \/ (exists a s done rest w2,
        bind (script h cmds) k w1 = (Raise (CommandFailed a s), w2)
        /\ s <> 0%Z /\ cmds = done ++ a :: rest
        /\ log w2 = log w1 ++ zeros done ++ [(a, s)]).
Proof.
  destruct (script_run h cmds w1) as (t & Hl & Hc & Ho & Hr).
  unfold bind. destruct (script h cmds w1) as [[[]|e] w2]; simpl in *.
  - left. exists w2. subst t. auto.
  - right. destruct Hr as (a & s & done & rest & -> & Hs & -> & ->).
    exists a, s, done, rest, w2. auto.
Qed.

Lemma test_cookiecutter_rejected posargs w :
  rejects posargs w = true ->
  exists line, test_cookiecutter h posargs w = (Ok (Some 0%Z), printed line w).
Proof.
  intros H. destruct (input_resolver_rejects posargs w H) as (line & E).
  exists line. unfold test_cookiecutter. now rewrite (bind_ok _ _ _ _ _ E).
Qed.

Ltac next_script :=
  match goal with
  | |- context [bind (script h ?c) ?k ?w] =>
      let w2 := fresh "w" in
      let Hl := fresh "Hlog" in
      let Hc := fresh "Hcwd" in
      let Ho := fresh "Hout" in
      let E := fresh "E" in
      destruct (after_script c k w)
        as [(w2 & E & Hl & Hc & Ho) | (?a & ?s & ?done & ?rest & w2 & E & ?Hs & ?Hcmds & Hl)];
      rewrite E; clear E; cbv beta
  end.

Lemma bind_congr {A B} (m m' : M A) (k : A -> M B) w :
  m w = m' w -> bind m k w = bind m' k w.
Proof. unfold bind; intros ->; reflexivity. Qed.

Lemma bind_assoc {A B C} (m : M A) (f : A -> M B) (k : B -> M C) w :
  bind (bind m f) k w = bind m (fun a => bind (f a) k) w.
Proof. unfold bind; destruct (m w) as [[a|e] w1]; reflexivity. Qed.

Lemma after_chdir {B} p (k : unit -> M B) w1 :
  (exists w2, bind (os_chdir p) k w1 = k tt w2
              /\ log w2 = log w1 /\ fs w2 = fs w1 /\ cwd w2 = locate w1 p)
  \/ (exists e, bind (os_chdir p) k w1 = (Raise e, w1)
                /\ (e = FileNotFoundError p \/ e = NotADirectoryError p)).
Proof.
  unfold bind, os_chdir.
  destruct (stat (fs w1) (cwd w1) p) as [q [c|names]| |] eqn:E.
  - right; eauto.
  - left; eexists; split; [reflexivity|]. cbn [log fs cwd].
    repeat split. now destruct (stat_at _ _ _ _ _ E).
  - right; eauto.
  - right; eauto.
Qed.

Lemma after_print_cwd {B} (k : unit -> M B) w1 :
  bind (d <- os_getcwd ;; print d) k w1 = k tt (printed (cwd w1) w1).
Proof. reflexivity. Qed.

Lemma ran_failed i st lib a s acc done rest (w w1 w2 : world) :
  log w1 = log w ++ zeros acc ->
  log w2 = log w1 ++ zeros done ++ [(a, s)] ->
  s <> 0%Z ->
  plan h i st lib = acc ++ done ++ a :: rest ->
  exists t lib',
    log w2 = log w ++ t /\ ran h i st lib' (Raise (CommandFailed a s)) t.
Proof.
  intros H1 H2 Hs Hp.
  exists (zeros (acc ++ done) ++ [(a, s)]), lib. split.
  - rewrite H2, H1, zeros_app, <- !app_assoc. reflexivity.
  - simpl. split; [assumption|]. exists (acc ++ done), rest.
    split; [|reflexivity]. rewrite Hp, <- app_assoc. reflexivity.
Qed.

Lemma test_cookiecutter_ran posargs w :
  rejects posargs w = false ->
  exists t lib,
    log (snd (test_cookiecutter h posargs w)) = log w ++ t
    /\ ran h (resolve posargs (cwd w)) (stale posargs w) lib
           (fst (test_cookiecutter h posargs w)) t.
Proof.
  intros H. unfold test_cookiecutter.
  rewrite (bind_ok _ _ _ _ _ (input_resolver_accepts posargs w H)).
  set (i := resolve posargs (cwd w)). unfold stale. fold i.
  set (st := path_exists w (cc_test_output i)).
  assert (Hw : log w = log w ++ zeros []) by (now rewrite app_nil_r).
  (* cleaning *)
  rewrite (bind_congr _ _ _ _ (stale_output_cleaner_script h _ w)). fold st.
  change (if st then _ else _) with (clean_plan i st).
  next_script.
  2:{ cbn [fst snd].
      eapply (ran_failed i st "" a s []); eauto.
      unfold plan. rewrite Hcmds, <- !app_assoc. reflexivity. }
  (* generation *)
  rewrite (bind_congr _ _ _ _ (scaffold_generator_script h _ _)), bind_assoc.
  next_script.
  2:{ cbn [fst snd].
      eapply (ran_failed i st "" a s (clean_plan i st)); eauto.
      unfold plan. rewrite Hcmds, <- !app_assoc. reflexivity. }
  assert (Hacc : log w1 = log w ++ zeros (clean_plan i st ++ generate_plan i))
    by (now rewrite Hlog0, Hlog, zeros_app, app_assoc).
  clear Hlog0 Hlog.
  rewrite bind_assoc.
  match goal with
  | |- context [bind (os_chdir ?p) ?k ?w] =>
      destruct (after_chdir p k w) as [(w2 & E & Hlog2 & _ & _) | (e & E & He)];
      rewrite E; clear E; cbv beta
  end.
  2:{ cbn [fst snd]. exists (zeros (clean_plan i st ++ generate_plan i)), "".
      split; [assumption|]. destruct He as [-> | ->]; reflexivity. }
  rewrite after_print_cwd.
  (* patching *)
  rewrite (bind_congr _ _ _ _ (dependency_patcher_script h _ _)).
  change [sed_command (sdk_dir i); lock_command; install_command] with (patch_plan i).
  next_script.
  2:{ cbn [fst snd].
      eapply (ran_failed i st "" a s _ done _ w w1 w3 Hacc); [|assumption|].
      - rewrite Hlog. simpl log. now rewrite Hlog2.
      - unfold plan. rewrite Hcmds, <- !app_assoc. reflexivity. }
  assert (Hacc3 : log w3 = log w ++ zeros (clean_plan i st ++ generate_plan i ++ patch_plan i)).
  { rewrite Hlog. simpl log. rewrite Hlog2, Hacc, !zeros_app, <- !app_assoc. reflexivity. }
  clear Hlog Hlog2 Hacc.
  (* verification *)
  unfold verification_runner. rewrite bind_assoc.
  destruct (library_discovery_pure h w3) as (lib & E).
  rewrite (bind_ok _ _ _ _ _ E); clear E.
  destruct lib as [lib|].
  2:{ rewrite bind_assoc, (bind_raise _ _ _ _ _ (quality_gates_unbound h w3)).
      cbn [fst snd]. eexists; exists ""; split; [eassumption|reflexivity]. }
  rewrite bind_assoc, (bind_congr _ _ _ _ (quality_gates_script h _ _)).
  next_script.
  2:{ cbn [fst snd].
      eapply (ran_failed i st lib a s (clean_plan i st ++ generate_plan i ++ patch_plan i));
        eauto.
      unfold plan. rewrite Hcmds, <- !app_assoc. reflexivity. }
  assert (Hacc4 : log w4 = log w ++ zeros (clean_plan i st ++ generate_plan i ++ patch_plan i
                                           ++ gate_commands true lib)).
  { rewrite Hlog, Hacc3, !zeros_app, <- !app_assoc. reflexivity. }
  clear Hlog Hacc3.
  (* aggregate lint *)
  destruct (aggregate_lint_script h (args i) w4) as [E | [Hno E]].
  2:{ rewrite (bind_raise _ _ _ _ _ E). cbn [fst snd].
      eexists; exists lib; split; [eassumption|]. split; [reflexivity|assumption]. }
  rewrite (bind_congr _ _ _ _ E); clear E.
  next_script.
  2:{ cbn [fst snd].
      eapply (ran_failed i st lib a s (clean_plan i st ++ generate_plan i ++ patch_plan i
                                       ++ gate_commands true lib)); eauto.
      unfold plan. rewrite Hcmds, <- !app_assoc. reflexivity. }
  cbn [fst snd ret]. eexists; exists lib; split.
  - rewrite Hlog, Hacc4, <- app_assoc. reflexivity.
  - unfold ran, plan. rewrite !zeros_app, <- !app_assoc. reflexivity.
Qed.

End Whole.

(* ================================================================== *)
(** ** Order and fail-fast *)

Lemma zeros_all_zero done before a s after :
  zeros done = before ++ (a, s) :: after -> s = 0%Z.
Proof.
  revert before; induction done as [|d done IH]; intros [|b before] E; simpl in E;
    try discriminate.
  - now inversion E.
  - inversion E; eauto.
Qed.

Lemma zeros_then_one done (x : action * Z) before a s after :
  zeros done ++ [x] = before ++ (a, s) :: after -> s <> 0%Z ->
  after = [] /\ x = (a, s).
Proof.
  revert before; induction done as [|d done IH]; intros before E Hs; simpl in E.
  - destruct before as [|b [|b' before]]; simpl in E; inversion E; auto.
  - destruct before as [|b before]; simpl in E; inversion E; subst.
    + now contradiction Hs.
    + eauto.
Qed.

Lemma fail_fast_zeros {A} (r : result A) done : fail_fast r (zeros done).
Proof. intros before a s after E Hs. apply zeros_all_zero in E. contradiction. Qed.

Lemma fail_fast_failed {A} done a s :
  fail_fast (@Raise A (CommandFailed a s)) (zeros done ++ [(a, s)]).
Proof.
  intros before b s' after E Hs. apply zeros_then_one in E as [-> E]; auto.
  inversion E; subst; auto.
Qed.

Lemma is_prefix_filter {A} (f : A -> bool) l full :
  is_prefix l full -> is_prefix (filter f l) (filter f full).
Proof. intros [rest ->]. exists (filter f rest). apply filter_app. Qed.

Lemma gates_of_plan h i st lib : filter is_gate (plan h i st lib) = gate_commands true lib.
Proof.
  unfold plan, clean_plan, lint_plan. rewrite !filter_app.
  destruct st, (wants_lint h (args i)); reflexivity.
Qed.

Lemma ran_fail_fast h i st lib r t : ran h i st lib r t -> fail_fast r t.
Proof.
  destruct r as [[z|]|[a s|p|p|n|x]]; simpl.
  - contradiction.
  - intros ->; apply fail_fast_zeros.
  - intros (Hs & done & rest & _ & ->); apply fail_fast_failed.
  - intros ->; apply fail_fast_zeros.
  - intros ->; apply fail_fast_zeros.
  - intros ->; apply fail_fast_zeros.
  - intros [-> _]; apply fail_fast_zeros.
Qed.

Lemma ran_prefix h i st lib r t : ran h i st lib r t -> is_prefix (map fst t) (plan h i st lib).
Proof.
  unfold plan.
  destruct r as [[z|]|[a s|p|p|n|x]]; simpl.
  - contradiction.
  - intros ->. exists []. now rewrite map_fst_zeros, app_nil_r.
  - intros (Hs & done & rest & E & ->). exists rest.
    rewrite map_app, map_fst_zeros, <- app_assoc. exact E.
  - intros ->. rewrite map_fst_zeros. eexists; rewrite <- !app_assoc; reflexivity.
  - intros ->. rewrite map_fst_zeros. eexists; rewrite <- !app_assoc; reflexivity.
  - intros ->. rewrite map_fst_zeros. eexists; rewrite <- !app_assoc; reflexivity.
  - intros [-> _]. rewrite map_fst_zeros. eexists; rewrite <- !app_assoc; reflexivity.
Qed.

Section DoSomething.

Variable h : host.

Lemma after_perform {B} (w : world) t0 a (k : unit -> M B) w1 :
  log w1 = log w ++ t0 ->
  (exists w2, bind (perform h a) k w1 = k tt w2
              /\ log w2 = log w ++ t0 ++ [(a, 0%Z)])
  \/ (exists s w2, bind (perform h a) k w1 = (Raise (CommandFailed a s), w2)
                   /\ s <> 0%Z /\ log w2 = log w ++ t0 ++ [(a, s)]).
Proof.
  intros H. unfold bind. rewrite perform_run.
  destruct (Z.eqb_spec (fst (spawn h a w1)) 0) as [E|E].
  - left. eexists; split; [reflexivity|]. simpl. now rewrite H, E, app_assoc.
  - right. eexists; eexists; split; [reflexivity|]. split; [assumption|].
    simpl. now rewrite H, app_assoc.
Qed.

(** The leaf of a run: the trace is known, the result too. *)
Lemma orderly_leaf (w w' : world) (r : result (option Z)) t done gates :
  log w' = log w ++ t ->
  filter is_gate (map fst t) = done ->
  is_prefix done gates ->
  (r = Ok None -> done = gates) ->
  fail_fast r t ->
  orderly gates r (trace_of w w').
Proof.
  intros H <- Hp Hall Hf. unfold orderly, gates_of.
  rewrite (trace_of_app _ _ _ H). auto.
Qed.

Ltac step :=
  match goal with
  | Hacc : log ?w1 = log ?w0 ++ ?t0 |- context [bind (perform h ?a) ?k ?W] =>
      let w2 := fresh "w" in
      let E := fresh "E" in
      let Hl := fresh "Hacc" in
      destruct (after_perform w0 t0 a k W Hacc)
        as [(w2 & E & Hl) | (?s & w2 & E & ?Hs & Hl)];
      rewrite E; clear E Hacc; cbv beta
  end.

Ltac leaf_failed :=
  cbn [fst snd];
  match goal with
  | Hl : log ?w2 = log ?w ++ ?t |- _ =>
      eapply (orderly_leaf w w2 _ _ _ _ Hl);
      [ reflexivity
      | eexists; reflexivity
      | discriminate
      | match goal with
        | |- fail_fast (Raise (CommandFailed ?a ?s)) _ =>
            match t with
            | ?t0 ++ [_] => apply (fail_fast_failed (map fst t0))
            end
        end ]
  end.

Ltac leaf_passed :=
  cbn [fst snd ret];
  match goal with
  | Hl : log _ = log ?w ++ ?t |- context [trace_of ?w ?W] =>
      eapply (orderly_leaf w W _ _ _ _ Hl);
      [ reflexivity
      | eexists; reflexivity
      | first [discriminate | reflexivity]
      | apply (fail_fast_zeros _ (map fst t)) ]
  end.

Ltac pure_step := erewrite bind_ok by reflexivity.

(** Only the log of the current world matters from here on. *)
Ltac forget_world :=
  match goal with
  | Hacc : log _ = log ?w0 ++ ?t0 |- context [bind _ _ ?W] =>
      let Hn := fresh "Hacc" in
      let wn := fresh "w" in
      let Heq := fresh in
      assert (Hn : log W = log w0 ++ t0) by exact Hacc;
      clear Hacc; remember W as wn eqn:Heq; clear Heq
  end.

Lemma do_something_orderly posargs w :
  let r := fst (do_something h posargs w) in
  let t := trace_of w (snd (do_something h posargs w)) in
  orderly (gate_commands false "tap_rest_api_key_github") r t.
Proof.
  cbv zeta. unfold do_something, session_run.
  assert (Hacc : log w = log w ++ []) by (now rewrite app_nil_r).
  do 5 (step; [|leaf_failed]).
  destruct (negb _).
  { pure_step. leaf_passed. }
  do 5 pure_step. forget_world.
  match goal with
  | |- context [bind (if ?c then _ else _) _ _] => destruct c
  end; [step; [|leaf_failed] | pure_step].
  all: do 3 pure_step; forget_world.
  all: step; [|leaf_failed].
  all: do 3 pure_step; forget_world.
  all: match goal with
       | |- context [bind (os_chdir ?p) ?k ?W] =>
           destruct (after_chdir p k W) as [(w' & E & Hlog' & _ & _) | (e & E & He)];
           rewrite E; clear E; cbv beta;
           [ match goal with H : log W = _ |- _ => rewrite <- Hlog' in H end
           | leaf_passed ]
       end.
  all: pure_step; forget_world.
  all: do 7 (step; [|leaf_failed]).
  all: leaf_passed.
Qed.

End DoSomething.

(** The gates of a run that follows its plan are in order. *)
Lemma ran_orderly h i st lib r t :
  ran h i st lib r t -> orderly (gate_commands true lib) r t.
Proof.
  intros Hr. unfold orderly, gates_of. split; [|split].
  - rewrite <- (gates_of_plan h i st lib).
    apply is_prefix_filter. eapply ran_prefix; eassumption.
  - intros E. rewrite E in Hr. simpl in Hr. subst t.
    rewrite map_fst_zeros. apply gates_of_plan.
  - eapply ran_fail_fast; eassumption.
Qed.

(** A run that performed nothing and returned has its gates in order. *)
Lemma idle_orderly gates z : orderly gates (Ok (Some z)) [].
Proof.
  unfold orderly, gates_of. simpl. split; [|split].
  - eexists; reflexivity.
  - discriminate.
  - intros before c st after E'; destruct before; discriminate E'.
Qed.

(* ================================================================== *)
(** ** The input resolver and the outcome of a run *)

Lemma rejects_iff posargs w :
  let i := resolve posargs (cwd w) in
  rejects posargs w = true <->
  (length (args i) = 1%nat
   \/ path_exists w (tap_template i) = false
   \/ path_isfile w (replay_file i) = false).
Proof.
  unfold rejects; cbv zeta.
  rewrite !orb_true_iff, !negb_true_iff, Nat.eqb_eq. tauto.
Qed.

Lemma ran_not_returned_zero h i st lib r t z : ran h i st lib r t -> r <> Ok (Some z).
Proof. intros H ->. exact H. Qed.

Lemma ran_nonempty h i st lib r t : ran h i st lib r t -> t <> [].
Proof.
  unfold plan, clean_plan.
  destruct r as [[z|]|[a s|p|p|n|x]]; simpl; try contradiction; destruct st;
    try (intros ->; discriminate); try (intros [-> _]; discriminate).
  all: intros (_ & done & rest & _ & ->); destruct done; discriminate.
Qed.

Section Outcome.

Variable h : host.

Lemma returned_zero_iff posargs w :
  fst (test_cookiecutter h posargs w) = Ok (Some 0%Z) <-> rejects posargs w = true.
Proof.
  destruct (rejects posargs w) eqn:R.
  - destruct (test_cookiecutter_rejected h posargs w R) as (line & ->). tauto.
  - destruct (test_cookiecutter_ran h posargs w R) as (t & lib & _ & Hr).
    split; [|discriminate]. intros E. rewrite E in Hr. contradiction.
Qed.

Lemma run_fail_fast posargs w :
  fail_fast (fst (test_cookiecutter h posargs w))
            (trace_of w (snd (test_cookiecutter h posargs w))).
Proof.
  destruct (rejects posargs w) eqn:R.
  - destruct (test_cookiecutter_rejected h posargs w R) as (line & ->).
    assert (E : trace_of w (printed line w) = []).
    { apply trace_of_app. simpl. now rewrite app_nil_r. }
    simpl fst; simpl snd. rewrite E.
    intros before c st after E'; destruct before; discriminate E'.
  - destruct (test_cookiecutter_ran h posargs w R) as (t & lib & Hl & Hr).
    rewrite (trace_of_app _ _ _ Hl). eapply ran_fail_fast; eassumption.
Qed.

End Outcome.

(** C2 (as amended). The session returns at one of its three [return 0]
    exactly when the arguments (the two default paths standing in for an
    empty list) are one in number, or the template path does not exist,
    or the replay-file path is not a regular file; it has then printed one
    line and has changed neither the file system, the working directory
    nor the log, so no action was performed. Any other run performs at
    least one action. *)
Theorem resolver_rejects_iff (h : host) (posargs : list string) (w : world) :
  let i := resolve posargs (cwd w) in
  let rejected :=
    length (args i) = 1%nat
    \/ path_exists w (tap_template i) = false
    \/ path_isfile w (replay_file i) = false in
  (fst (test_cookiecutter h posargs w) = Ok (Some 0%Z) <-> rejected)
  /\ (rejected ->
      exists line, test_cookiecutter h posargs w = (Ok (Some 0%Z), printed line w))
  /\ (~ rejected -> trace_of w (snd (test_cookiecutter h posargs w)) <> []).
Proof.
  cbv zeta. rewrite <- rejects_iff. split; [apply returned_zero_iff|]. split.
  - apply test_cookiecutter_rejected.
  - intros R. apply not_true_is_false in R.
    destruct (test_cookiecutter_ran h posargs w R) as (t & lib & Hl & Hr).
    rewrite (trace_of_app _ _ _ Hl). eapply ran_nonempty; eassumption.
Qed.

(** C6 (as amended). The session returns 0, raising nothing, exactly when
    the input resolver rejects its arguments, and has then performed no
    action. It falls off its end only after every action of its plan
    exited with status 0. An action that exits with another status ends
    the run: the run raises [CommandFailed] with that action and status,
    which is the last entry of the trace, after actions that all exited
    with 0. *)
Theorem run_outcome (h : host) (posargs : list string) (w : world) :
  let r := fst (test_cookiecutter h posargs w) in
  let t := trace_of w (snd (test_cookiecutter h posargs w)) in
  (forall z, r = Ok (Some z) -> z = 0%Z /\ rejects posargs w = true /\ t = [])
  /\ (rejects posargs w = true -> r = Ok (Some 0%Z))
  /\ (r = Ok None ->
      exists library_name,
        t = zeros (plan h (resolve posargs (cwd w)) (stale posargs w) library_name))
  /\ (forall a s, r = Raise (CommandFailed a s) ->
      s <> 0%Z /\ exists done, t = zeros done ++ [(a, s)])
  /\ (forall e, r = Raise e -> rejects posargs w = false)
  /\ fail_fast r t.
Proof.
  cbv zeta. destruct (rejects posargs w) eqn:R.
  - destruct (test_cookiecutter_rejected h posargs w R) as (line & ->).
    assert (E : trace_of w (printed line w) = []).
    { apply trace_of_app. simpl. now rewrite app_nil_r. }
    simpl fst; simpl snd. rewrite E.
    split; [intros z [= <-]; auto|]. split; [auto|].
    split; [discriminate|]. split; [discriminate|]. split; [discriminate|].
    intros before c st after E'; destruct before; discriminate E'.
  - destruct (test_cookiecutter_ran h posargs w R) as (t & lib & Hl & Hr).
    rewrite (trace_of_app _ _ _ Hl).
    split; [intros z E; rewrite E in Hr; contradiction|].
    split; [discriminate|].
    split; [intros E; rewrite E in Hr; exists lib; exact Hr|].
    split.
    + intros a s E; rewrite E in Hr. destruct Hr as (Hs & done & rest & _ & ->).
      split; [assumption|]. now exists done.
    + split; [reflexivity|]. eapply ran_fail_fast; eassumption.
Qed.

(* ================================================================== *)
(** ** The aggregate lint pass *)

Lemma plan_split h i st lib :
  plan h i st lib
  = before_gates i st ++ gate_commands true lib ++ lint_plan h (args i).
Proof. unfold plan, before_gates. now rewrite <- !app_assoc. Qed.

Lemma no_gate_before_gates i st a : In a (before_gates i st) -> is_gate a = false.
Proof.
  unfold before_gates, clean_plan. destruct st; simpl; intros H;
    repeat (destruct H as [<- | H]; [reflexivity|]); contradiction.
Qed.

Lemma tox_is_no_gate : is_gate tox_command = false.
Proof. reflexivity. Qed.

Lemma gate_is_gate lib a : In a (gate_commands true lib) -> is_gate a = true.
Proof.
  simpl; intros H; repeat (destruct H as [<- | H]; [reflexivity|]); contradiction.
Qed.

Lemma tox_not_before_lint i st lib :
  ~ In tox_command (before_gates i st ++ gate_commands true lib).
Proof.
  intros H. apply in_app_or in H as [H | H].
  - unfold before_gates, clean_plan in H. destruct st; simpl in H;
      repeat (destruct H as [H | H]; [discriminate H|]); contradiction.
  - apply gate_is_gate in H. discriminate H.
Qed.

(** Where a list is cut after an element that occurs once before the cut. *)
Lemma cut_after {A} (x : A) l1 l2 done rest :
  l1 ++ x :: l2 = done ++ rest -> In x done -> ~ In x l1 ->
  exists mid, done = l1 ++ x :: mid /\ l2 = mid ++ rest.
Proof.
  revert done; induction l1 as [|y l1 IH]; intros done E Hin Hnot; simpl in E.
  - destruct done as [|d done]; [contradiction|]. simpl in E. inversion E; subst.
    exists done; auto.
  - destruct done as [|d done]; [contradiction|]. simpl in E. inversion E; subst.
    destruct Hin as [-> | Hin]; [exfalso; apply Hnot; now left|].
    destruct (IH done H1 Hin) as (mid & -> & ->); [intros H; apply Hnot; now right|].
    exists mid; auto.
Qed.

Lemma in_zeros a s l : In (a, s) (zeros l) <-> s = 0%Z /\ In a l.
Proof.
  unfold zeros. rewrite in_map_iff. split.
  - intros (b & [= <- <-] & H); auto.
  - intros [-> H]; eauto.
Qed.

Lemma wants_lint_iff h a :
  wants_lint h a = true <-> (length a < 3)%nat \/ int_of h (nth 2 a "") = Some 1%Z.
Proof.
  unfold wants_lint. rewrite orb_true_iff, Nat.ltb_lt.
  destruct (int_of h (nth 2 a "")) as [z|].
  - rewrite Z.eqb_eq. split; intros [H|H]; auto; [right; congruence|right; congruence].
  - split; intros [H|H]; auto; discriminate.
Qed.

(** The last gate, which every passing run of the gates goes through. *)
Lemma mypy_in_gates lib lib' :
  In (gate true "mypy" lib') (gate_commands true lib) -> lib' = lib.
Proof.
  simpl; intros H; repeat (destruct H as [H | H]; [try discriminate H|]);
    [|contradiction].
  now inversion H.
Qed.

Section Lint.

Variable h : host.

Lemma lint_after_gates posargs w :
  let t := trace_of w (snd (test_cookiecutter h posargs w)) in
  let a := effective_args posargs in
  In tox_command (map fst t) ->
  wants_lint h a = true
  /\ exists lib pre s,
       t = zeros pre ++ zeros (gate_commands true lib) ++ [(tox_command, s)].
Proof.
  cbv zeta. destruct (rejects posargs w) eqn:R.
  - destruct (test_cookiecutter_rejected h posargs w R) as (line & ->).
    assert (E : trace_of w (printed line w) = []).
    { apply trace_of_app. simpl. now rewrite app_nil_r. }
    simpl snd. rewrite E. contradiction.
  - destruct (test_cookiecutter_ran h posargs w R) as (t & lib & Hl & Hr).
    rewrite (trace_of_app _ _ _ Hl). clear Hl.
    set (i := resolve posargs (cwd w)) in *. set (st := stale posargs w) in *.
    change (effective_args posargs) with (args i).
    pose proof (tox_not_before_lint i st lib) as Hno.
    destruct (fst (test_cookiecutter h posargs w)) as [[z|]|[c s|p|p|n|x]];
      unfold ran in Hr.
    + contradiction.
    + subst t. rewrite map_fst_zeros, plan_split, app_assoc. unfold lint_plan.
      destruct (wants_lint h (args i)) eqn:W.
      * intros _. split; [first [exact W | reflexivity]|]. exists lib, (before_gates i st), 0%Z.
        now rewrite !zeros_app, <- app_assoc.
      * rewrite app_nil_r. contradiction.
    + destruct Hr as (Hs & done & rest & Hp & ->).
      rewrite map_app, map_fst_zeros. simpl. intros Hin.
      rewrite plan_split, app_assoc in Hp. unfold lint_plan in Hp.
      destruct (wants_lint h (args i)) eqn:W.
      * split; [first [exact W | reflexivity]|].
        destruct rest as [|r rest].
        -- apply app_inj_tail in Hp as [<- <-].
           exists lib, (before_gates i st), s. now rewrite zeros_app, <- app_assoc.
        -- exfalso. apply Hno.
           assert (E : before_gates i st ++ gate_commands true lib
                       = done ++ c :: removelast (r :: rest)).
           { apply (f_equal (@removelast _)) in Hp.
             rewrite removelast_last in Hp. rewrite Hp.
             rewrite removelast_app by discriminate.
             change (c :: r :: rest) with ([c] ++ r :: rest).
             rewrite (removelast_app [c]) by discriminate. reflexivity. }
           rewrite E. apply in_app_or in Hin as [Hin | [<- | []]].
           ++ apply in_or_app; now left.
           ++ apply in_or_app; right; now left.
      * exfalso. rewrite app_nil_r in Hp. apply Hno. rewrite Hp.
        apply in_app_or in Hin as [Hin | [<- | []]].
        -- apply in_or_app; now left.
        -- apply in_or_app; right; now left.
    + subst t. rewrite map_fst_zeros. intros Hin. exfalso.
      apply Hno. unfold before_gates. rewrite !in_app_iff in *. tauto.
    + subst t. rewrite map_fst_zeros. intros Hin. exfalso.
      apply Hno. unfold before_gates. rewrite !in_app_iff in *. tauto.
    + subst t. rewrite map_fst_zeros. intros Hin. exfalso.
      apply Hno. unfold before_gates. rewrite !in_app_iff in *. tauto.
    + destruct Hr as [-> Hw]. rewrite map_fst_zeros. intros Hin. exfalso.
      apply Hno. unfold before_gates. rewrite !in_app_iff in *. tauto.
Qed.

End Lint.

Lemma mypy_not_early i st lib :
  ~ In (gate true "mypy" lib)
       (before_gates i st
        ++ [gate true "black" lib; gate true "isort" lib; gate true "flake8" lib]).
Proof.
  intros H. apply in_app_or in H as [H | H].
  - apply no_gate_before_gates in H. discriminate H.
  - simpl in H. repeat (destruct H as [H | H]; [discriminate H|]). contradiction.
Qed.

Section LintRuns.

Variable h : host.

Lemma lint_runs posargs w :
  let t := trace_of w (snd (test_cookiecutter h posargs w)) in
  (exists lib, incl (zeros (gate_commands true lib)) t) ->
  wants_lint h (effective_args posargs) = true ->
  In tox_command (map fst t).
Proof.
  cbv zeta. intros (lib' & Hinc) Hw.
  assert (Hm : In (gate true "mypy" lib', 0%Z)
                  (trace_of w (snd (test_cookiecutter h posargs w)))).
  { apply Hinc. simpl. tauto. }
  clear Hinc. revert Hm.
  destruct (rejects posargs w) eqn:R.
  - destruct (test_cookiecutter_rejected h posargs w R) as (line & ->).
    assert (E : trace_of w (printed line w) = []).
    { apply trace_of_app. simpl. now rewrite app_nil_r. }
    simpl snd. rewrite E. contradiction.
  - destruct (test_cookiecutter_ran h posargs w R) as (t & lib & Hl & Hr).
    rewrite (trace_of_app _ _ _ Hl). clear Hl.
    set (i := resolve posargs (cwd w)) in *. set (st := stale posargs w) in *.
    change (effective_args posargs) with (args i) in Hw.
    assert (Hearly : forall l, incl l (before_gates i st) ->
                               ~ In (gate true "mypy" lib', 0%Z) (zeros l)).
    { intros l Hl Hm. apply in_zeros in Hm as [_ Hm]. apply Hl in Hm.
      apply no_gate_before_gates in Hm. discriminate Hm. }
    destruct (fst (test_cookiecutter h posargs w)) as [[z|]|[c s|p|p|n|x]];
      unfold ran in Hr.
    + contradiction.
    + subst t. intros _. rewrite map_fst_zeros, plan_split. unfold lint_plan.
      rewrite Hw, !in_app_iff. right; right; now left.
    + destruct Hr as (Hs & done & rest & Hp & ->). intros Hm.
      apply in_app_or in Hm as [Hm | [Hm | []]]; [|inversion Hm; subst; contradiction].
      apply in_zeros in Hm as [_ Hm].
      rewrite plan_split in Hp. unfold lint_plan in Hp. rewrite Hw in Hp.
      assert (lib' = lib) as ->.
      { assert (Hin : In (gate true "mypy" lib')
                         (before_gates i st ++ gate_commands true lib ++ [tox_command])).
        { rewrite Hp. apply in_or_app; now left. }
        rewrite !in_app_iff in Hin. destruct Hin as [Hin | [Hin | Hin]].
        - apply no_gate_before_gates in Hin. discriminate Hin.
        - now apply mypy_in_gates.
        - destruct Hin as [Hin | []]. discriminate Hin. }
      change (before_gates i st ++ gate_commands true lib ++ [tox_command])
        with (before_gates i st
              ++ [gate true "black" lib; gate true "isort" lib; gate true "flake8" lib]
              ++ gate true "mypy" lib :: [tox_command]) in Hp.
      rewrite app_assoc in Hp.
      destruct (cut_after _ _ _ _ _ Hp Hm (mypy_not_early i st lib)) as (mid & -> & E).
      destruct mid as [|m mid]; simpl in E.
      * inversion E; subst. rewrite map_app, in_app_iff. right. simpl. tauto.
      * inversion E. destruct mid; discriminate.
    + subst t. intros Hm. exfalso. revert Hm.
      match goal with |- In _ (zeros ?L) -> _ => apply (Hearly L) end.
      intros y Hy. unfold before_gates.
      rewrite !in_app_iff in *. tauto.
    + subst t. intros Hm. exfalso. revert Hm.
      match goal with |- In _ (zeros ?L) -> _ => apply (Hearly L) end.
      intros y Hy. unfold before_gates.
      rewrite !in_app_iff in *. tauto.
    + subst t. intros Hm. exfalso. revert Hm.
      match goal with |- In _ (zeros ?L) -> _ => apply (Hearly L) end.
      intros y Hy. unfold before_gates.
      rewrite !in_app_iff in *. tauto.
    + destruct Hr as [_ Hr]. congruence.
Qed.

End LintRuns.

(** [int] on a few texts: signs, surrounding white space, leading zeros
    and single underscores are read; a separator byte 28, a point, a
    radix prefix and the empty text are not; text that is not ASCII is
    outside the scanner. *)
Lemma int_examples :
  PyInt.int "1" = Some 1%Z
  /\ PyInt.int " +01 " = Some 1%Z
  /\ PyInt.int "1_0" = Some 10%Z
  /\ PyInt.int "-0" = Some 0%Z
  /\ PyInt.int (String (ascii_of_nat 28) "1") = None
  /\ PyInt.int ("1" +++ String (ascii_of_nat 28) "") = None
  /\ PyInt.int "1.0" = None
  /\ PyInt.int "0x1" = None
  /\ PyInt.int "1__0" = None
  /\ PyInt.int "" = None
  /\ PyInt.modelled (String (ascii_of_nat 239) (String (ascii_of_nat 188)
                       (String (ascii_of_nat 145) ""))) = false.
Proof. repeat split; vm_compute; reflexivity. Qed.

(** C8. The aggregate lint pass is performed exactly when the four gates
    have all exited with status 0 and the third argument is absent or is
    text that [int] reads as 1; a third argument [1] asks for it and a
    third argument [0] skips it; on ASCII text of at most 640 characters
    [int] is the scanner of [PyInt], whatever the host; when the pass is
    performed it comes right after the four passing gates and is the last
    action; and its failure stops the run as any other does. *)
Theorem aggregate_lint_iff (h : host) (posargs : list string) (w : world) :
  let r := fst (test_cookiecutter h posargs w) in
  let t := trace_of w (snd (test_cookiecutter h posargs w)) in
  let a := effective_args posargs in
  let asked := (length a < 3)%nat \/ int_of h (nth 2 a "") = Some 1%Z in
  (In tox_command (map fst t) <->
   (exists library_name, incl (zeros (gate_commands true library_name)) t) /\ asked)
  /\ (nth_error a 2 = Some "1" -> asked)
  /\ (nth_error a 2 = Some "0" -> ~ asked)
  /\ (forall text, PyInt.modelled text = true -> int_of h text = PyInt.int text)
  /\ (In tox_command (map fst t) ->
      exists library_name pre s,
        t = zeros pre ++ zeros (gate_commands true library_name) ++ [(tox_command, s)])
  /\ fail_fast r t.
Proof.
  cbv zeta. split; [|split; [|split; [|split; [|split]]]].
  - rewrite <- wants_lint_iff. split.
    + intros H. destruct (lint_after_gates h posargs w H) as (Hw & lib & pre & s & E).
      split; [|assumption]. exists lib. rewrite E. intros x Hx.
      apply in_or_app; right. apply in_or_app; now left.
    + intros [Hg Hw]. now apply lint_runs.
  - intros E. right. rewrite (nth_error_nth _ _ _ E). reflexivity.
  - intros E [H | H].
    + assert (nth_error (effective_args posargs) 2 <> None) as H' by congruence.
      apply nth_error_Some in H'. lia.
    + rewrite (nth_error_nth _ _ _ E) in H. discriminate H.
  - intros text Hm. unfold int_of. now rewrite Hm.
  - intros H. destruct (lint_after_gates h posargs w H) as (_ & lib & pre & s & E).
    eauto.
  - apply run_fail_fast.
Qed.

(* ================================================================== *)
(** ** The output name *)

Lemma append_assoc (a b c : string) : (a +++ b) +++ c = a +++ b +++ c.
Proof. induction a as [|x a IH]; simpl; congruence. Qed.

Lemma append_nil_r (a : string) : a +++ "" = a.
Proof. induction a as [|x a IH]; simpl; congruence. Qed.

(** No occurrence of [.json] straddles the end of a stem. *)
Lemma json_prefix_of_stem s :
  s <> "" -> String.prefix ".json" (s +++ ".json") = String.prefix ".json" s.
Proof.
  destruct s as [|c1 [|c2 [|c3 [|c4 [|c5 s]]]]]; intros H; [congruence|..];
    cbn [String.prefix String.append];
    repeat match goal with
           | |- context [ascii_dec ?a ?b] =>
               destruct (ascii_dec a b) as [e|e];
               [try discriminate e; try subst | ]; cbn [String.prefix String.append]
           end; try reflexivity; try congruence; try (now destruct s).
Qed.

Lemma replace_stem stem :
  occurs ".json" stem = false -> replace (stem +++ ".json") ".json" "" = stem.
Proof.
  unfold replace. induction stem as [|c stem IH]; intros H.
  - reflexivity.
  - cbn [occurs] in H. apply orb_false_elim in H as [H1 H2].
    change (String c stem +++ ".json") with (String c (stem +++ ".json")).
    cbn [replace_from].
    change (String c (stem +++ ".json")) with (String c stem +++ ".json").
    rewrite json_prefix_of_stem by discriminate.
    rewrite H1. f_equal. apply IH. exact H2.
Qed.

Lemma input_resolver_some posargs w i w' :
  input_resolver posargs w = (Ok (Some i), w') ->
  i = resolve posargs (cwd w) /\ w' = w /\ rejects posargs w = false.
Proof.
  destruct (rejects posargs w) eqn:R.
  - destruct (input_resolver_rejects posargs w R) as (line & ->). discriminate.
  - rewrite (input_resolver_accepts posargs w R). intros [= <- <-]. auto.
Qed.

(** C5 (as amended). For every argument list the input resolver accepts,
    the output name is the base name of the replay-file argument with
    every occurrence of [.json] removed, found from left to right, and the
    generated project is expected at [/tmp/] followed by that name. The
    replay file [tap-rest-api_key-github.json] gives
    [/tmp/tap-rest-api_key-github], and whenever [.json] occurs in the
    base name only as its ending, the output name is the base name
    without that ending. *)
Theorem output_name_drops_every_json (posargs : list string) (w w' : world) (i : inputs) :
  input_resolver posargs w = (Ok (Some i), w') ->
  let name := Path.basename (nth 1 (args i) "") in
  cc_output_dir i = replace name ".json" ""
  /\ cc_test_output i = "/tmp/" +++ cc_output_dir i
  /\ (name = "tap-rest-api_key-github.json" ->
      cc_test_output i = "/tmp/tap-rest-api_key-github")
  /\ (forall stem, name = stem +++ ".json" -> occurs ".json" stem = false ->
      cc_output_dir i = stem /\ strip_suffix ".json" name = stem).
Proof.
  intros H. apply input_resolver_some in H as (-> & _ & _). cbv zeta.
  cbn [resolve args cc_output_dir cc_test_output].
  split; [reflexivity|]. split; [reflexivity|]. split.
  - intros ->. vm_compute. reflexivity.
  - intros stem -> Hs. split; [now apply replace_stem|].
    clear -Hs. induction stem as [|c stem IH].
    + reflexivity.
    + cbn [occurs] in Hs. apply orb_false_elim in Hs as [H1 H2].
      change (String c stem +++ ".json") with (String c (stem +++ ".json")).
      cbn [strip_suffix].
      destruct (String.eqb_spec (String c (stem +++ ".json")) ".json") as [E|E].
      * exfalso. change (String c (stem +++ ".json")) with (String c stem +++ ".json") in E.
        assert (P : String.prefix ".json" (String c stem +++ ".json") = true).
        { rewrite E. reflexivity. }
        rewrite json_prefix_of_stem in P by discriminate. congruence.
      * f_equal. now apply IH.
Qed.

(** The default replay file is accepted and names the project. *)
Lemma output_name_drops_every_json_witness :
  cc_test_output (resolve [] "/repo") = "/tmp/tap-rest-api_key-github".
Proof.
  refine (proj1 (proj2 (proj2
            (output_name_drops_every_json [] Demo.world0 Demo.world0
               (resolve [] "/repo") _))) _).
  - vm_compute. reflexivity.
  - vm_compute. reflexivity.
Defined.

(** C5, as stated, fails: the replay file [a.json.b.json] is accepted and
    gives the output name [a.b], where removing the trailing [.json] alone
    gives [a.json.b]. *)
Lemma output_name_not_suffix_only :
  fst (input_resolver [Demo.template; Demo.dotted_replay] Demo.world0)
  = Ok (Some (resolve [Demo.template; Demo.dotted_replay] "/repo"))
  /\ cc_output_dir (resolve [Demo.template; Demo.dotted_replay] "/repo") = "a.b"
  /\ strip_suffix ".json" (Path.basename Demo.dotted_replay) = "a.json.b"
  /\ cc_test_output (resolve [Demo.template; Demo.dotted_replay] "/repo") = "/tmp/a.b".
Proof. repeat split; vm_compute; reflexivity. Qed.

(* ================================================================== *)
(** ** Library discovery *)

Lemma basename_from_slash_free acc n : slash_free n -> Path.basename_from acc n = acc.
Proof.
  unfold slash_free. revert acc; induction n as [|c n IH]; intros acc H; simpl in *.
  - reflexivity.
  - apply orb_false_elim in H as [H1 H2]. unfold slash in *. rewrite H1. now apply IH.
Qed.

Lemma basename_slash_free n : slash_free n -> Path.basename n = n.
Proof. apply basename_from_slash_free. Qed.

Lemma basename_from_after_slash d n acc :
  slash_free n -> Path.basename_from acc (d +++ String slash n) = n.
Proof.
  intros H. revert acc; induction d as [|c d IH]; intros acc; simpl.
  - now apply basename_from_slash_free.
  - destruct (Ascii.eqb c slash); apply IH.
Qed.

Lemma endswith_char_split d c :
  endswith_char d c = true -> exists d', d = d' +++ chr c.
Proof.
  induction d as [|x d IH]; simpl; [discriminate|].
  destruct d as [|y d].
  - intros H. apply Ascii.eqb_eq in H as ->. now exists "".
  - intros H. destruct (IH H) as (d' & E). exists (String x d'). simpl. now rewrite E.
Qed.

Lemma slash_free_not_absolute n : slash_free n -> startswith n "/" = false.
Proof.
  unfold slash_free, startswith. destruct n as [|c n]; [reflexivity|].
  cbn [String.prefix mem_char].
  intros H. apply orb_false_elim in H as [H _].
  destruct (ascii_dec "/" c) as [<-|]; [cbv in H; discriminate H|reflexivity].
Qed.

(** The base name of a scanned path is the entry's name. *)
Lemma basename_join d n : slash_free n -> Path.basename (Path.join d n) = n.
Proof.
  intros H. unfold Path.join. rewrite (slash_free_not_absolute _ H).
  destruct d as [|c d]; [now apply basename_slash_free|].
  cbn [is_empty orb]. unfold Path.basename.
  destruct (endswith_char (String c d) slash) eqn:E.
  - destruct (endswith_char_split _ _ E) as (d' & ->).
    rewrite append_assoc. now apply basename_from_after_slash.
  - now apply basename_from_after_slash.
Qed.

Lemma library_not_hidden n : is_library n = true -> Glob.is_hidden n = false.
Proof.
  unfold is_library, Glob.is_hidden, startswith. destruct n as [|c n]; [discriminate|].
  cbn [String.prefix].
  destruct (ascii_dec "t" c) as [<-|]; [reflexivity|discriminate].
Qed.

Lemma discovery_step_join d n acc :
  slash_free n ->
  discovery_step acc (Path.join d n) = if is_library n then Some n else acc.
Proof. intros H. unfold discovery_step, is_library. now rewrite (basename_join d n H). Qed.

Lemma last_option_app {A} (l : list A) x : last_option (l ++ [x]) = Some x.
Proof.
  induction l as [|a l IH]; [reflexivity|]. simpl.
  destruct (l ++ [x]) eqn:E; [destruct l; discriminate|exact IH].
Qed.

Lemma last_option_cons {A} (a : A) l :
  last_option (a :: l) = match last_option l with Some x => Some x | None => Some a end.
Proof. destruct l as [|b l]; [reflexivity|]. simpl. destruct l; [reflexivity|].
  destruct (last_option (a0 :: l)) eqn:E; [reflexivity|].
  exfalso. clear -E. revert a0 E. induction l; intros; simpl in *; [discriminate|eauto].
Qed.

Lemma fold_discovery d names acc :
  Forall slash_free names ->
  fold_left discovery_step
    (map (Path.join d) (filter (fun n => negb (Glob.is_hidden n)) names)) acc
  = match last_library names with Some n => Some n | None => acc end.
Proof.
  unfold last_library. intros H. revert acc. induction H as [|n names Hn _ IH]; intros acc.
  - reflexivity.
  - cbn [filter]. destruct (is_library n) eqn:L.
    + rewrite (library_not_hidden n L). cbn [negb map fold_left].
      rewrite (discovery_step_join d n acc Hn), L, IH, last_option_cons.
      destruct (last_option (filter is_library names)); reflexivity.
    + destruct (negb (Glob.is_hidden n)); cbn [map fold_left].
      * rewrite (discovery_step_join d n acc Hn), L. apply IH.
      * apply IH.
Qed.

Section Discovery.

Variable h : host.

Lemma library_discovery_last w :
  Glob.has_magic (cwd w) = false ->
  Forall slash_free (listdir (fs w) (cwd w)) ->
  library_discovery h w = (Ok (last_library (listdir (fs w) (cwd w))), w).
Proof.
  intros Hm Hs. unfold library_discovery, bind, os_getcwd, glob_star, ret. simpl.
  rewrite Hm. unfold Glob.children. rewrite (fold_discovery _ _ None Hs).
  destruct (last_library _); reflexivity.
Qed.

End Discovery.

Lemma last_library_in names n :
  last_library names = Some n -> In n names /\ is_library n = true.
Proof.
  unfold last_library. intros H.
  assert (In n (filter is_library names)).
  { revert H. generalize (filter is_library names). intros l.
    induction l as [|a l IH]; [discriminate|]. rewrite last_option_cons.
    destruct (last_option l); intros [= <-]; [right; now apply IH|now left]. }
  now apply filter_In.
Qed.

Lemma last_library_none names :
  (forall n, In n names -> is_library n = false) -> last_library names = None.
Proof.
  unfold last_library. intros H.
  replace (filter is_library names) with (@nil string); [reflexivity|].
  symmetry. induction names as [|n names IH]; [reflexivity|]. simpl.
  rewrite (H n (or_introl eq_refl)). apply IH. intros m Hm. apply H. now right.
Qed.

Lemma last_library_decompose names before n after :
  names = before ++ n :: after -> is_library n = true ->
  (forall m, In m after -> is_library m = false) ->
  last_library names = Some n.
Proof.
  intros -> Hn Ha. unfold last_library. rewrite filter_app. cbn [filter]. rewrite Hn.
  replace (filter is_library after) with (@nil string).
  - apply last_option_app.
  - symmetry. induction after as [|m after IH]; [reflexivity|]. simpl.
    rewrite (Ha m (or_introl eq_refl)). apply IH. intros k Hk. apply Ha. now right.
Qed.

(** C9 (as amended). Where the path of the working directory holds none
    of the wildcard characters of [glob] and its entries have proper
    names, discovery returns, without raising, the last entry in scan
    order whose name starts with [tap] or [target], whatever kind of
    entry it is: an entry that matches and is followed by no other match
    is the one selected, however many matched earlier. *)
Theorem discovery_selects_last_match (h : host) (w : world) :
  Glob.has_magic (cwd w) = false ->
  Forall slash_free (listdir (fs w) (cwd w)) ->
  library_discovery h w = (Ok (last_library (listdir (fs w) (cwd w))), w)
  /\ (forall before n after,
        listdir (fs w) (cwd w) = before ++ n :: after ->
        is_library n = true ->
        (forall m, In m after -> is_library m = false) ->
        library_discovery h w = (Ok (Some n), w)).
Proof.
  intros Hm Hs. split; [now apply library_discovery_last|].
  intros before n after E Hn Ha. rewrite (library_discovery_last h w Hm Hs).
  now rewrite (last_library_decompose _ _ _ _ E Hn Ha).
Qed.

(** C9, as stated, fails: in a project whose path holds a bracket the
    scan is of the directories the path stands for as a pattern, here
    [/tmp/tap-a] and not the project itself, so the entry selected is the
    last match of that other directory and not the last matching entry
    of the project. *)
Lemma discovery_selects_from_another_directory :
  cwd Wild.with_libraries = "/tmp/tap-[ab]"
  /\ listdir (fs Wild.with_libraries) (cwd Wild.with_libraries)
     = ["tap_real"; "target_last"]
  /\ last_library (listdir (fs Wild.with_libraries) (cwd Wild.with_libraries))
     = Some "target_last"
  /\ listdir (fs Wild.with_libraries) "/tmp/tap-a" = ["target_other"; "tap_zz"]
  /\ fst (library_discovery Demo.host0 Wild.with_libraries) = Ok (Some "tap_zz").
Proof. repeat split; vm_compute; reflexivity. Qed.

(* ================================================================== *)
(** ** The stream editor on the patch script *)

Lemma unlines_lines s : Sed.unlines (Sed.lines s) = s.
Proof.
  induction s as [|c s IH]; [reflexivity|]. cbn [Sed.lines].
  destruct (Ascii.eqb_spec c newline) as [->|Hc].
  - cbn [Sed.unlines]. simpl. now rewrite IH.
  - destruct (Sed.lines s) as [|[l nl] rest].
    + simpl in *. now rewrite <- IH.
    + cbn [Sed.unlines] in *. simpl. now rewrite <- IH.
Qed.

Lemma expand_literal s m : Sed.expand (literal s) m = s.
Proof. unfold literal. induction s as [|c s IH]; simpl; congruence. Qed.

Lemma literal_app a b : literal (a +++ b) = literal a ++ literal b.
Proof. unfold literal. induction a as [|c a IH]; simpl; congruence. Qed.

Lemma parse_replacement_plain p rest :
  sed_plain p = true ->
  Sed.parse_replacement "|" (p +++ rest)
  = option_map (fun q => (literal p ++ fst q, snd q)) (Sed.parse_replacement "|" rest).
Proof.
  induction p as [|c p IH]; intros H.
  - simpl. destruct (Sed.parse_replacement "|" rest) as [[a b]|]; reflexivity.
  - cbn [sed_plain] in H. apply andb_true_iff in H as [H1 H2].
    apply negb_true_iff in H1.
    apply orb_false_elim in H1 as [H1 Hn]. apply orb_false_elim in H1 as [H1 Hb].
    apply orb_false_elim in H1 as [Hd Ha].
    change (String c p +++ rest) with (String c (p +++ rest)).
    cbn [Sed.parse_replacement]. rewrite Hd, Hn, Hb, Ha, (IH H2).
    destruct (Sed.parse_replacement "|" rest) as [[a b]|]; reflexivity.
Qed.

Lemma parse_patch_replacement sdk :
  sed_plain sdk = true ->
  Sed.parse_replacement "|"
    ("singer-sdk = \{ path = " +++ chr dquote +++ sdk +++ chr dquote
     +++ ", develop = true \}|")
  = Some (literal (declaration sdk), "").
Proof.
  intros H. cbn -[sed_plain literal declaration].
  rewrite (parse_replacement_plain sdk _ H).
  unfold declaration. rewrite !literal_app.
  reflexivity.
Qed.

Lemma parse_needle_regex rest :
  Sed.parse_regex "|" ("singer-sdk =.*|" +++ rest) = Some (needle_regex, rest).
Proof. reflexivity. Qed.

Lemma parse_patch_script sdk :
  sed_plain sdk = true ->
  Sed.parse_script (patch_script sdk) = Some (needle_regex, literal (declaration sdk)).
Proof.
  intros H.
  change (patch_script sdk)
    with (String "s" (String "|"
            ("singer-sdk =.*|" +++
             ("singer-sdk = \{ path = " +++ chr dquote +++ sdk +++ chr dquote
              +++ ", develop = true \}|")))).
  cbn -[Sed.parse_regex Sed.parse_replacement String.append].
  rewrite parse_needle_regex, (parse_patch_replacement sdk H). reflexivity.
Qed.

(** The regex of the patch matches where the text starts, to the end. *)
Lemma match_any_star s : Sed.match_here [(Sed.Any, true)] s = Some (String.length s).
Proof. induction s as [|c s IH]; [reflexivity|]. simpl in *. now rewrite IH. Qed.

Lemma match_literal_any cs s :
  Sed.match_here (map (fun c => (Sed.Chr c, false)) cs ++ [(Sed.Any, true)]) s
  = if String.prefix (string_of_list_ascii cs) s then Some (String.length s) else None.
Proof.
  revert s; induction cs as [|c cs IH]; intros s.
  - cbn [map app string_of_list_ascii]. rewrite match_any_star. now destruct s.
  - cbn [map app string_of_list_ascii Sed.match_here]. destruct s as [|x s].
    + reflexivity.
    + cbn [String.prefix Sed.atom_matches].
      destruct (ascii_dec c x) as [->|N].
      * rewrite Ascii.eqb_refl, IH. now destruct (String.prefix _ s).
      * apply Ascii.eqb_neq in N. now rewrite N.
Qed.

Lemma match_needle s :
  Sed.match_here needle_regex s
  = if String.prefix needle s then Some (String.length s) else None.
Proof. apply (match_literal_any (list_ascii_of_string needle)). Qed.

Lemma take_all s : take (String.length s) s = s.
Proof. induction s; simpl; congruence. Qed.

Lemma drop_all s : drop (String.length s) s = "".
Proof. induction s; simpl; congruence. Qed.

Lemma subst_first_patch new line :
  Sed.subst_first needle_regex (literal new) line
  = if occurs needle line then Some (rewrite_line needle new line) else None.
Proof.
  induction line as [|c line IH].
  - reflexivity.
  - cbn [Sed.subst_first occurs rewrite_line]. rewrite match_needle.
    destruct (String.prefix needle (String c line)) eqn:P.
    + rewrite expand_literal, drop_all, append_nil_r. reflexivity.
    + rewrite IH. cbn [orb]. now destruct (occurs needle line).
Qed.

Lemma rewrite_line_without old new line :
  occurs old line = false -> rewrite_line old new line = line.
Proof.
  induction line as [|c line IH]; cbn [occurs rewrite_line]; intros H;
    apply orb_false_elim in H as [H1 H2]; rewrite H1; [reflexivity|].
  f_equal. now apply IH.
Qed.

Lemma subst_line_patch new line :
  Sed.subst_line needle_regex (literal new) line = rewrite_line needle new line.
Proof.
  unfold Sed.subst_line. rewrite subst_first_patch.
  destruct (occurs needle line) eqn:O; [reflexivity|].
  symmetry. now apply rewrite_line_without.
Qed.

Lemma edit_patch sdk content :
  Sed.edit needle_regex (literal (declaration sdk)) content = patched sdk content.
Proof.
  unfold Sed.edit, patched. f_equal. apply map_ext. intros l.
  now rewrite subst_line_patch.
Qed.

(* ================================================================== *)
(** ** The dependency patcher *)

Lemma length_append a b : String.length (a +++ b) = String.length a + String.length b.
Proof. induction a as [|c a IH]; simpl; congruence. Qed.

Lemma append_longer a b : b <> "" -> a +++ b <> a.
Proof.
  intros Hb E. apply (f_equal String.length) in E. rewrite length_append in E.
  destruct b; [congruence|]. simpl in E. lia.
Qed.

Lemma length_take n s : String.length (take n s) <= String.length s.
Proof.
  revert n; induction s as [|c s IH]; intros [|n]; simpl; try lia.
  specialize (IH n). lia.
Qed.

Lemma length_rstrip c s : String.length (rstrip_char c s) <= String.length s.
Proof.
  induction s as [|a s IH]; simpl; [lia|].
  destruct (Ascii.eqb a c && is_empty (rstrip_char c s)); simpl; lia.
Qed.

Lemma length_dirname p : String.length (Path.dirname p) <= String.length p.
Proof.
  unfold Path.dirname.
  set (head := take _ p). pose proof (length_take (String.length p - String.length (Path.basename p)) p).
  fold head in H. destruct (all_char slash head); [assumption|].
  pose proof (length_rstrip slash head). lia.
Qed.

Lemma backup_not_dirname p : p +++ ".bak" <> Path.dirname p.
Proof.
  intros E. apply (f_equal String.length) in E. rewrite length_append in E.
  pose proof (length_dirname p). simpl in E. lia.
Qed.

Section Patcher.

Variable h : host.

Lemma spawn_patch sdk content w :
  sed_plain sdk = true ->
  fs w (manifest_path w) = Some (File content) ->
  spawn h (sed_command sdk) w
  = (0%Z, write_file (manifest_path w) (patched sdk content)
            (write_file (backup_path w) content (fs w))).
Proof.
  intros Hs Hf. unfold spawn, sed_command, Sed.command.
  cbn -[Sed.parse_script Path.abspath write_file Sed.edit patch_script].
  rewrite (parse_patch_script sdk Hs).
  unfold manifest_path in Hf. rewrite Hf.
  rewrite edit_patch. reflexivity.
Qed.

Lemma patch_manifest_run sdk content w :
  sed_plain sdk = true ->
  fs w (manifest_path w) = Some (File content) ->
  patch_manifest h sdk w
  = (Ok tt,
     {| fs := write_file (manifest_path w) (patched sdk content)
                (write_file (backup_path w) content (fs w));
        cwd := cwd w;
        log := log w ++ [(sed_command sdk, 0%Z)];
        out := out w |}).
Proof.
  intros Hs Hf. unfold patch_manifest, session_run.
  change (Run ["pythonsed"; "-i.bak"; patch_script sdk; "pyproject.toml"] false)
    with (sed_command sdk).
  rewrite perform_run, (spawn_patch sdk content w Hs Hf). reflexivity.
Qed.

End Patcher.

Lemma written_backup w sdk content :
  write_file (manifest_path w) (patched sdk content)
    (write_file (backup_path w) content (fs w)) (backup_path w)
  = Some (File content).
Proof.
  unfold write_file at 1.
  destruct (String.eqb_spec (backup_path w) (manifest_path w)) as [E|_].
  { exfalso. revert E. apply append_longer. discriminate. }
  destruct (String.eqb_spec (backup_path w) (Path.dirname (manifest_path w))) as [E|_].
  { exfalso. revert E. apply backup_not_dirname. }
  unfold write_file. now rewrite String.eqb_refl.
Qed.

Lemma written_manifest w sdk content :
  write_file (manifest_path w) (patched sdk content)
    (write_file (backup_path w) content (fs w)) (manifest_path w)
  = Some (File (patched sdk content)).
Proof. unfold write_file at 1. now rewrite String.eqb_refl. Qed.

Lemma written_elsewhere w sdk content q :
  q <> manifest_path w -> q <> backup_path w ->
  q <> Path.dirname (manifest_path w) -> q <> Path.dirname (backup_path w) ->
  write_file (manifest_path w) (patched sdk content)
    (write_file (backup_path w) content (fs w)) q
  = fs w q.
Proof.
  intros H1 H2 H3 H4. unfold write_file.
  apply String.eqb_neq in H1, H2, H3, H4. now rewrite H1, H2, H3, H4.
Qed.

Lemma prefix_split old s :
  String.prefix old s = true -> s = old +++ drop (String.length old) s.
Proof.
  revert s; induction old as [|a old IH]; intros s; [now destruct s|].
  destruct s as [|b s]; cbn [String.prefix]; [discriminate|].
  destruct (ascii_dec a b) as [->|]; [|discriminate].
  intros P. simpl. f_equal. now apply IH.
Qed.

Lemma rewrite_line_with old new line :
  occurs old line = true ->
  exists pre rest, line = pre +++ old +++ rest /\ rewrite_line old new line = pre +++ new.
Proof.
  induction line as [|c line IH]; cbn [occurs rewrite_line]; intros H.
  - rewrite orb_false_r in H. rewrite H. exists "", "".
    split; [|reflexivity]. destruct old; [reflexivity|discriminate H].
  - destruct (String.prefix old (String c line)) eqn:P.
    + exists "", (drop (String.length old) (String c line)).
      split; [|reflexivity]. now apply prefix_split.
    + destruct (IH H) as (pre & rest & -> & ->).
      exists (String c pre), rest. split; reflexivity.
Qed.

Lemma patched_without_match sdk content :
  (forall l, In l (Sed.lines content) -> occurs needle (fst l) = false) ->
  patched sdk content = content.
Proof.
  intros H. unfold patched. rewrite <- (unlines_lines content) at 2. f_equal.
  rewrite <- (map_id (Sed.lines content)) at 2. apply map_ext_in.
  intros [l nl] Hl. simpl. f_equal. apply rewrite_line_without. exact (H _ Hl).
Qed.

(** The patch step on a manifest that is a regular file, with a
    development directory the editor's script takes as it is: the editor
    exits with status 0 and leaves the backup beside the rewritten
    manifest. *)
Lemma patch_manifest_leaves_backup (h : host) (sdk_dir content : string) (w : world) :
  fs w (manifest_path w) = Some (File content) ->
  sed_plain sdk_dir = true ->
  fst (patch_manifest h sdk_dir w) = Ok tt
  /\ fs (snd (patch_manifest h sdk_dir w)) (backup_path w) = Some (File content)
  /\ fs (snd (patch_manifest h sdk_dir w)) (manifest_path w)
     = Some (File (patched sdk_dir content))
  /\ log (snd (patch_manifest h sdk_dir w)) = log w ++ [(sed_command sdk_dir, 0%Z)]
  /\ cwd (snd (patch_manifest h sdk_dir w)) = cwd w.
Proof.
  intros Hf Hs. rewrite (patch_manifest_run h sdk_dir content w Hs Hf). simpl.
  split; [reflexivity|]. split; [apply written_backup|].
  split; [apply written_manifest|]. split; reflexivity.
Qed.

(** C7 (as amended). On a manifest that is a regular file, with a
    development directory whose path holds no character the editor's
    script gives a meaning to, the patch rewrites every line that holds
    the text [singer-sdk =]: what precedes the first occurrence stays and
    the rest of the line becomes the path dependency on the development
    directory. Lines without the text, line ends, and every file other
    than the manifest, its backup and their directory are left as they
    were. *)
Theorem patch_rewrites_matching_lines (h : host) (sdk_dir content : string) (w : world) :
  fs w (manifest_path w) = Some (File content) ->
  sed_plain sdk_dir = true ->
  fs (snd (patch_manifest h sdk_dir w)) (manifest_path w)
  = Some (File (patched sdk_dir content))
  /\ Sed.unlines (Sed.lines content) = content
  /\ (forall line, occurs needle line = false ->
        rewrite_line needle (declaration sdk_dir) line = line)
  /\ (forall line, occurs needle line = true ->
        exists pre rest,
          line = pre +++ needle +++ rest
          /\ rewrite_line needle (declaration sdk_dir) line = pre +++ declaration sdk_dir)
  /\ (forall q,
        q <> manifest_path w -> q <> backup_path w ->
        q <> Path.dirname (manifest_path w) -> q <> Path.dirname (backup_path w) ->
        fs (snd (patch_manifest h sdk_dir w)) q = fs w q).
Proof.
  intros Hf Hs. rewrite (patch_manifest_run h sdk_dir content w Hs Hf). simpl.
  split; [apply written_manifest|]. split; [apply unlines_lines|].
  split; [intros line; apply rewrite_line_without|].
  split; [intros line; apply rewrite_line_with|].
  intros q. apply written_elsewhere.
Qed.

Lemma patch_rewrites_matching_lines_witness :
  fs (snd (patch_manifest Demo.host0 "/repo" (Demo.inside Demo.one_line_manifest Demo.names)))
     (manifest_path (Demo.inside Demo.one_line_manifest Demo.names))
  = Some (File (patched "/repo" Demo.one_line_manifest)).
Proof.
  refine (proj1 (patch_rewrites_matching_lines Demo.host0 "/repo" Demo.one_line_manifest
                   (Demo.inside Demo.one_line_manifest Demo.names) _ _)).
  - vm_compute. reflexivity.
  - reflexivity.
Defined.

(** C7, as stated, fails: a manifest with the text on two lines has both
    of them rewritten, not exactly one. *)
Lemma patch_rewrites_two_lines :
  fs (snd (patch_manifest Demo.host0 "/repo" (Demo.inside Demo.two_line_manifest Demo.names)))
     (manifest_path (Demo.inside Demo.two_line_manifest Demo.names))
  = Some (File Demo.two_lines_patched)
  /\ changed_lines (Sed.lines Demo.two_line_manifest) (Sed.lines Demo.two_lines_patched)
     = 2%nat.
Proof. split; vm_compute; reflexivity. Qed.

(** C3 (as amended). When no line of the manifest holds the text
    [singer-sdk =], the patch step raises nothing: the editor exits with
    status 0, the manifest keeps its contents, a backup with the same
    contents is written beside it, and the dependency patcher goes on to
    [poetry lock]. *)
Theorem patch_without_match_proceeds (h : host) (sdk_dir content : string) (w : world) :
  fs w (manifest_path w) = Some (File content) ->
  sed_plain sdk_dir = true ->
  (forall l, In l (Sed.lines content) -> occurs needle (fst l) = false) ->
  fst (patch_manifest h sdk_dir w) = Ok tt
  /\ fs (snd (patch_manifest h sdk_dir w)) (manifest_path w) = Some (File content)
  /\ fs (snd (patch_manifest h sdk_dir w)) (backup_path w) = Some (File content)
  /\ exists s rest,
       trace_of w (snd (dependency_patcher h sdk_dir w))
       = (sed_command sdk_dir, 0%Z) :: (lock_command, s) :: rest.
Proof.
  intros Hf Hs Hno. pose proof (patch_manifest_run h sdk_dir content w Hs Hf) as E.
  rewrite E. cbn [fst snd fs].
  split; [reflexivity|]. split.
  { rewrite written_manifest. now rewrite (patched_without_match sdk_dir content Hno). }
  split; [apply written_backup|].
  rewrite dependency_patcher_script. cbn [script].
  unfold patch_manifest, session_run in E.
  change (Run ["pythonsed"; "-i.bak"; patch_script sdk_dir; "pyproject.toml"] false)
    with (sed_command sdk_dir) in E.
  rewrite (bind_ok _ _ _ _ _ E).
  match goal with |- context [bind ?m ?k ?w1] =>
    change (bind m k w1) with (script h [lock_command; install_command] w1);
    destruct (script_run h [lock_command; install_command] w1) as (t & Hl & _ & _ & Hr)
  end.
  cbn [log] in Hl. rewrite <- app_assoc in Hl.
  rewrite (trace_of_app _ _ _ Hl). cbn [app].
  destruct (fst (script h [lock_command; install_command] _)).
  - subst t. cbn [zeros map]. eauto.
  - destruct Hr as (a & s & done & rest & _ & _ & Hd & ->).
    destruct done as [|d done]; cbn [app zeros map] in *.
    + injection Hd as <- _. eauto.
    + injection Hd as <- _. eauto.
Qed.

Lemma patch_without_match_proceeds_witness :
  fs (snd (patch_manifest Demo.host_plain "/repo"
             (Demo.inside Demo.no_line_manifest Demo.names)))
     (manifest_path (Demo.inside Demo.no_line_manifest Demo.names))
  = Some (File Demo.no_line_manifest).
Proof.
  refine (proj1 (proj2 (patch_without_match_proceeds Demo.host_plain "/repo"
                          Demo.no_line_manifest
                          (Demo.inside Demo.no_line_manifest Demo.names) _ _ _))).
  - vm_compute. reflexivity.
  - reflexivity.
  - intros l Hl. vm_compute in Hl.
    repeat (destruct Hl as [<- | Hl]; [reflexivity|]). contradiction.
Defined.

(** C3, as stated, fails: with a manifest that has no [singer-sdk =] line
    the run raises nothing, performs [poetry lock] and every later
    action, and leaves a backup file in the generated project. *)
Lemma run_without_dependency_line_proceeds :
  existsb (fun l => occurs needle (fst l)) (Sed.lines Demo.no_line_manifest) = false
  /\ fst (test_cookiecutter Demo.host_plain [] Demo.world0) = Ok None
  /\ nth_error (log (snd (test_cookiecutter Demo.host_plain [] Demo.world0))) 4
     = Some (lock_command, 0%Z)
  /\ List.length (log (snd (test_cookiecutter Demo.host_plain [] Demo.world0))) = 11%nat
  /\ fs (snd (test_cookiecutter Demo.host_plain [] Demo.world0))
        (Demo.project +++ "/pyproject.toml.bak")
     = Some (File Demo.no_line_manifest).
Proof. repeat split; vm_compute; reflexivity. Qed.

(** C2, as stated, fails: four arguments are neither two nor three, yet
    the run is not turned away and performs its ten actions. *)
Lemma four_arguments_are_accepted :
  usage_error Demo.four_args Demo.world0 = true
  /\ List.length Demo.four_args = 4%nat
  /\ fst (test_cookiecutter Demo.host0 Demo.four_args Demo.world0) = Ok None
  /\ List.length (log (snd (test_cookiecutter Demo.host0 Demo.four_args Demo.world0)))
     = 10%nat.
Proof. repeat split; vm_compute; reflexivity. Qed.

(** C6, as stated, fails: a replay file that does not exist is an input
    validation failure, and the session prints a line and returns 0
    without raising. *)
Lemma rejected_input_returns_normally :
  usage_error Demo.missing_replay_args Demo.world0 = true
  /\ fst (test_cookiecutter Demo.host0 Demo.missing_replay_args Demo.world0)
     = Ok (Some 0%Z)
  /\ out (snd (test_cookiecutter Demo.host0 Demo.missing_replay_args Demo.world0))
     = ["Replay file not found"]
  /\ log (snd (test_cookiecutter Demo.host0 Demo.missing_replay_args Demo.world0)) = [].
Proof. repeat split; vm_compute; reflexivity. Qed.

Lemma discovery_selects_last_match_witness :
  library_discovery Demo.host0 (Demo.inside Demo.one_line_manifest Demo.two_libraries)
  = (Ok (Some "target_b.txt"), Demo.inside Demo.one_line_manifest Demo.two_libraries).
Proof.
  refine (proj2 (discovery_selects_last_match Demo.host0
                   (Demo.inside Demo.one_line_manifest Demo.two_libraries) _ _)
            ["pyproject.toml"; "tap_a"; "README.md"] "target_b.txt" ["tests"] _ _ _).
  - reflexivity.
  - vm_compute. repeat constructor.
  - vm_compute. reflexivity.
  - reflexivity.
  - intros m [<- | []]. reflexivity.
Defined.

(* ================================================================== *)
(** ** Where a run lands *)

Import Landing.

Lemma length_zeros l : length (zeros l) = length l.
Proof. apply length_map. Qed.

Section Where.

Variable h : host.

Lemma after_script_cwd {B} cmds (k : unit -> M B) w1 :
  (exists w2, bind (script h cmds) k w1 = k tt w2
              /\ log w2 = log w1 ++ zeros cmds /\ cwd w2 = cwd w1)
  \/ (exists a s done rest w2,
        bind (script h cmds) k w1 = (Raise (CommandFailed a s), w2)
        /\ cmds = done ++ a :: rest
        /\ log w2 = log w1 ++ zeros done ++ [(a, s)] /\ cwd w2 = cwd w1).
Proof.
  destruct (script_run h cmds w1) as (t & Hl & Hc & Ho & Hr).
  unfold bind. destruct (script h cmds w1) as [[[]|e] w2]; cbn [fst snd] in *.
  - left. exists w2. subst t. auto.
  - right. destruct Hr as (a & s & done & rest & -> & Hs & -> & ->).
    exists a, s, done, rest, w2. auto.
Qed.

(** A run that ends on a failed command at a known place. *)
Lemma lands_failed posargs (w w2 : world) a s t :
  log w2 = log w ++ t ->
  cwd w2 = (if Nat.ltb (before_patch posargs w) (length t)
            then generated_project posargs w else cwd w) ->
  lands h posargs w (Raise (CommandFailed a s)) w2.
Proof.
  intros Hl Hc. unfold lands. rewrite (trace_of_app _ _ _ Hl).
  split; [exact Hc|]. repeat split; discriminate.
Qed.

Lemma after_chdir_detail {B} p (k : unit -> M B) w1 :
  (exists w2, bind (os_chdir p) k w1 = k tt w2
              /\ log w2 = log w1 /\ cwd w2 = locate w1 p)
  \/ (bind (os_chdir p) k w1 = (Raise (FileNotFoundError p), w1)
      /\ path_exists w1 p = false)
  \/ (bind (os_chdir p) k w1 = (Raise (NotADirectoryError p), w1)
      /\ path_isdir w1 p = false).
Proof.
  unfold bind, os_chdir, path_exists, path_isdir.
  destruct (stat (fs w1) (cwd w1) p) as [q [c|names]| |] eqn:E.
  - right; right; auto.
  - left; eexists; split; [reflexivity|]. cbn [log cwd].
    split; [reflexivity|]. now destruct (stat_at _ _ _ _ _ E).
  - right; left; auto.
  - right; right; auto.
Qed.

Lemma lands_missing posargs (w w1 : world) :
  trace_of w w1 = zeros (clean_plan (resolve posargs (cwd w)) (stale posargs w)
                         ++ generate_plan (resolve posargs (cwd w))) ->
  cwd w1 = cwd w ->
  path_exists w1 (cc_test_output (resolve posargs (cwd w))) = false ->
  lands h posargs w (Raise (FileNotFoundError (cc_test_output (resolve posargs (cwd w))))) w1.
Proof.
  intros Ht Hc He. unfold lands. rewrite Ht, length_zeros.
  change (length (clean_plan _ _ ++ generate_plan _)) with (before_patch posargs w).
  rewrite Nat.ltb_irrefl. split; [exact Hc|].
  split; [intros p [= <-]; auto|].
  split; [discriminate|]. split; [discriminate|]. split; discriminate.
Qed.

Lemma lands_not_a_directory posargs (w w1 : world) :
  trace_of w w1 = zeros (clean_plan (resolve posargs (cwd w)) (stale posargs w)
                         ++ generate_plan (resolve posargs (cwd w))) ->
  cwd w1 = cwd w ->
  path_isdir w1 (cc_test_output (resolve posargs (cwd w))) = false ->
  lands h posargs w (Raise (NotADirectoryError (cc_test_output (resolve posargs (cwd w))))) w1.
Proof.
  intros Ht Hc He. unfold lands. rewrite Ht, length_zeros.
  change (length (clean_plan _ _ ++ generate_plan _)) with (before_patch posargs w).
  rewrite Nat.ltb_irrefl. split; [exact Hc|].
  split; [discriminate|]. split; [intros p [= <-]; auto|].
  split; [discriminate|]. split; discriminate.
Qed.

Lemma lands_late posargs (w w' : world) r t :
  log w' = log w ++ t ->
  cwd w' = generated_project posargs w ->
  (before_patch posargs w < length t)%nat ->
  (forall p, r <> Raise (FileNotFoundError p)) ->
  (forall p, r <> Raise (NotADirectoryError p)) ->
  (r = Ok None ->
     (length (args (resolve posargs (cwd w))) < 3)%nat
     \/ int_of h (nth 2 (args (resolve posargs (cwd w))) "") <> None) ->
  (forall x, r = Raise (ValueError x) ->
     x = nth 2 (args (resolve posargs (cwd w))) ""
     /\ (3 <= length (args (resolve posargs (cwd w))))%nat /\ int_of h x = None) ->
  (forall n, r = Raise (UnboundLocalError n) ->
     n = "library_name" /\ fst (library_discovery h w') = Ok None) ->
  lands h posargs w r w'.
Proof.
  intros Hl Hc Hlt H1 H2 H3 H4 H5. unfold lands. rewrite (trace_of_app _ _ _ Hl).
  apply Nat.ltb_lt in Hlt. rewrite Hlt. split; [exact Hc|].
  split; [intros p E; now apply H1 in E|].
  split; [intros p E; now apply H2 in E|]. auto.
Qed.

Lemma log_chain (w w1 w2 : world) acc t :
  log w1 = log w ++ acc -> log w2 = log w1 ++ t -> log w2 = log w ++ acc ++ t.
Proof. intros H1 H2. now rewrite H2, H1, app_assoc. Qed.

Lemma aggregate_lint_detail args w :
  (aggregate_lint h args w = script h (lint_plan h args) w
   /\ ((length args < 3)%nat \/ int_of h (nth 2 args "") <> None))
  \/ ((3 <= length args)%nat /\ int_of h (nth 2 args "") = None
      /\ aggregate_lint h args w = (Raise (ValueError (nth 2 args "")), w)).
Proof.
  unfold aggregate_lint, lint_plan, wants_lint, py_int, session_run, tox_command.
  destruct (Nat.ltb_spec (length args) 3) as [L|L]; cbn [orb].
  - left. split; [|now left]. cbn [script]. now rewrite bind_unit_ret.
  - destruct (int_of h (nth 2 args "")) as [z|].
    + left. split; [|right; discriminate].
      unfold bind at 1 2; unfold ret at 1; cbn [fst snd].
      destruct (Z.eqb z 1); cbn [script]; [now rewrite bind_unit_ret | reflexivity].
    + right; auto.
Qed.

Ltac next_script :=
  match goal with
  | |- context [bind (script h ?c) ?k ?w] =>
      let w2 := fresh "w" in
      let Hl := fresh "Hlog" in
      let Hc := fresh "Hcwd" in
      let E := fresh "E" in
      destruct (after_script_cwd c k w)
        as [(w2 & E & Hl & Hc) | (?a & ?s & ?done & ?rest & w2 & E & ?Hcmds & Hl & Hc)];
      rewrite E; clear E; cbv beta
  end.

Ltac failed_at posargs w i st :=
  cbn [fst snd];
  match goal with
  | Hacc : log ?w1 = log w ++ zeros ?acc,
    Hl : log ?w2 = log ?w1 ++ zeros ?done ++ [(?a, ?s)],
    Hc : cwd ?w2 = _, Hcmds : _ = ?done ++ ?a :: _ |- _ =>
      let Hl' := fresh in
      pose proof (log_chain w w1 w2 _ _ Hacc Hl) as Hl';
      apply (lands_failed posargs w w2 a s _ Hl');
      rewrite Hc, !length_app, !length_zeros;
      apply (f_equal (@length _)) in Hcmds;
      rewrite ?length_app in Hcmds; cbn [length] in Hcmds |- *
  end.

Lemma test_cookiecutter_lands posargs w :
  rejects posargs w = false ->
  lands h posargs w (fst (test_cookiecutter h posargs w))
                  (snd (test_cookiecutter h posargs w)).
Proof.
  intros H. unfold test_cookiecutter.
  rewrite (bind_ok _ _ _ _ _ (input_resolver_accepts posargs w H)).
  pose (i := resolve posargs (cwd w)). pose (st := stale posargs w).
  assert (Hn : before_patch posargs w = length (clean_plan i st) + 3) by
    (unfold before_patch; rewrite length_app; reflexivity).
  assert (Hgp : generated_project posargs w = locate w (cc_test_output i)) by reflexivity.
  assert (Hacc0 : log w = log w ++ zeros []) by (now rewrite app_nil_r).
  fold i.
  (* cleaning *)
  rewrite (bind_congr _ _ _ _ (stale_output_cleaner_script h _ w)).
  change (if path_exists w (cc_test_output i) then _ else _) with (clean_plan i st).
  next_script.
  2:{ failed_at posargs w i st.
      match goal with |- context [Nat.ltb ?x ?y] => destruct (Nat.ltb_spec x y) as [H1|H1] end;
        [exfalso; unfold i, st in *; clear -Hn Hcmds H1; lia|reflexivity]. }
  assert (Hacc1 : log w0 = log w ++ zeros (clean_plan i st)) by exact Hlog.
  clear Hlog Hacc0.
  (* generation *)
  rewrite (bind_congr _ _ _ _ (scaffold_generator_script h _ _)), bind_assoc.
  next_script.
  2:{ failed_at posargs w i st.
      match goal with |- context [Nat.ltb ?x ?y] => destruct (Nat.ltb_spec x y) as [H1|H1] end;
        [exfalso; unfold i, st in *; clear -Hn Hcmds H1;
         change (length (generate_plan _)) with 3 in Hcmds; lia|congruence]. }
  assert (Hacc : log w1 = log w ++ zeros (clean_plan i st ++ generate_plan i))
    by (now rewrite Hlog, Hacc1, zeros_app, app_assoc).
  assert (Hc1 : cwd w1 = cwd w) by congruence.
  assert (Ht1 : trace_of w w1 = zeros (clean_plan i st ++ generate_plan i))
    by (now apply trace_of_app).
  clear Hlog Hacc1 Hcwd Hcwd0.
  rewrite bind_assoc.
  match goal with
  | |- context [bind (os_chdir ?p) ?k ?w] =>
      destruct (after_chdir_detail p k w)
        as [(w2 & E & Hlog2 & Hcwd2) | [[E He] | [E He]]];
      rewrite E; clear E; cbv beta
  end.
  2: now apply lands_missing.
  2: now apply lands_not_a_directory.
  rewrite after_print_cwd.
  (* patching *)
  rewrite (bind_congr _ _ _ _ (dependency_patcher_script h _ _)).
  change [sed_command (sdk_dir i); lock_command; install_command] with (patch_plan i).
  assert (Hacc2 : log (printed (cwd w2) w2)
                  = log w ++ zeros (clean_plan i st ++ generate_plan i))
    by (cbn [log printed]; congruence).
  next_script.
  2:{ failed_at posargs w i st. cbn [cwd printed]. rewrite Hcwd2.
      unfold locate. rewrite Hc1.
      match goal with |- context [Nat.ltb ?x ?y] => destruct (Nat.ltb_spec x y) as [H1|H1] end;
        [reflexivity|exfalso; unfold before_patch in H1; fold i st in H1; lia]. }
  assert (Hacc3 : log w3 = log w ++ zeros (clean_plan i st ++ generate_plan i ++ patch_plan i)).
  { rewrite Hlog, Hacc2, !zeros_app, <- !app_assoc. reflexivity. }
  assert (Hc3 : cwd w3 = generated_project posargs w).
  { rewrite Hcwd. cbn [cwd printed]. rewrite Hcwd2. unfold locate. now rewrite Hc1. }
  clear Hlog Hacc2 Hcwd Hlog2 Hcwd2 Hacc Ht1.
  (* verification *)
  unfold verification_runner. rewrite bind_assoc.
  destruct (library_discovery_pure h w3) as (lib & E).
  rewrite (bind_ok _ _ _ _ _ E). rename E into Efound.
  destruct lib as [lib|].
  2:{ rewrite bind_assoc, (bind_raise _ _ _ _ _ (quality_gates_unbound h w3)).
      cbn [fst snd]. apply (lands_late posargs w w3 _ _ Hacc3 Hc3).
      - rewrite length_zeros, !length_app. unfold before_patch. fold i st.
        rewrite length_app. cbn [length patch_plan]. lia.
      - discriminate.
      - discriminate.
      - discriminate.
      - discriminate.
      - intros n [= <-]. now rewrite Efound. }
  rewrite bind_assoc, (bind_congr _ _ _ _ (quality_gates_script h _ _)).
  next_script.
  2:{ failed_at posargs w i st. rewrite Hc3.
      match goal with |- context [Nat.ltb ?x ?y] => destruct (Nat.ltb_spec x y) as [H1|H1] end;
        [reflexivity|exfalso; unfold before_patch in H1; fold i st in H1;
                     rewrite !length_app in H1; cbn [length patch_plan generate_plan] in H1; lia]. }
  assert (Hacc4 : log w4 = log w ++ zeros (clean_plan i st ++ generate_plan i ++ patch_plan i
                                           ++ gate_commands true lib)).
  { rewrite Hlog, Hacc3, !zeros_app, <- !app_assoc. reflexivity. }
  assert (Hc4 : cwd w4 = generated_project posargs w) by congruence.
  clear Hlog Hacc3 Hcwd Hc3.
  (* aggregate lint *)
  destruct (aggregate_lint_detail (args i) w4) as [[E Hp] | (Hlen & Hint & E)].
  2:{ rewrite (bind_raise _ _ _ _ _ E). cbn [fst snd].
      apply (lands_late posargs w w4 _ _ Hacc4 Hc4).
      - rewrite length_zeros, !length_app. unfold before_patch. fold i st.
        rewrite length_app. cbn [length patch_plan]. lia.
      - discriminate.
      - discriminate.
      - discriminate.
      - intros x [= <-]. auto.
      - discriminate. }
  rewrite (bind_congr _ _ _ _ E); clear E.
  next_script.
  2:{ failed_at posargs w i st. rewrite Hc4.
      match goal with |- context [Nat.ltb ?x ?y] => destruct (Nat.ltb_spec x y) as [H1|H1] end;
        [reflexivity|exfalso; unfold before_patch in H1; fold i st in H1;
                     rewrite !length_app in H1; cbn [length patch_plan generate_plan] in H1; lia]. }
  cbn [fst snd ret].
  assert (Hacc5 : log w5 = log w ++ zeros (clean_plan i st ++ generate_plan i ++ patch_plan i
                                           ++ gate_commands true lib)
                                 ++ zeros (lint_plan h (args i)))
    by (now rewrite Hlog, Hacc4, <- app_assoc).
  apply (lands_late posargs w w5 _ _ Hacc5); [congruence|..].
  - rewrite !length_app, !length_zeros, !length_app. unfold before_patch. fold i st.
    rewrite length_app. cbn [length patch_plan]. lia.
  - discriminate.
  - discriminate.
  - intros _. exact Hp.
  - discriminate.
  - discriminate.
Qed.

End Where.

Import Landing.

(* ================================================================== *)
(** ** More on [test_cookiecutter]: its first action, its working
       directory, and the exceptions that are no failed command *)

Section Run.

Variable h : host.

(** A run that passed the input resolver, with its trace and where it
    landed. *)
Lemma run_summary posargs w :
  rejects posargs w = false ->
  exists lib,
    ran h (resolve posargs (cwd w)) (stale posargs w) lib
        (fst (test_cookiecutter h posargs w))
        (trace_of w (snd (test_cookiecutter h posargs w)))
    /\ lands h posargs w (fst (test_cookiecutter h posargs w))
                       (snd (test_cookiecutter h posargs w)).
Proof.
  intros R. destruct (test_cookiecutter_ran h posargs w R) as (t & lib & Hl & Hr).
  exists lib. rewrite (trace_of_app _ _ _ Hl).
  split; [exact Hr | now apply test_cookiecutter_lands].
Qed.

Lemma rejected_trace posargs w :
  rejects posargs w = true ->
  fst (test_cookiecutter h posargs w) = Ok (Some 0%Z)
  /\ trace_of w (snd (test_cookiecutter h posargs w)) = []
  /\ cwd (snd (test_cookiecutter h posargs w)) = cwd w.
Proof.
  intros R. destruct (test_cookiecutter_rejected h posargs w R) as (line & ->).
  cbn [fst snd]. split; [reflexivity|]. split; [|reflexivity].
  apply trace_of_app. cbn [log printed]. now rewrite app_nil_r.
Qed.

Lemma raised_not_rejected posargs w e :
  fst (test_cookiecutter h posargs w) = Raise e -> rejects posargs w = false.
Proof.
  intros E. destruct (rejects posargs w) eqn:R; [|reflexivity].
  destruct (rejected_trace posargs w R) as (E' & _). congruence.
Qed.

Lemma plan_starts i st lib :
  exists rest,
    plan h i st lib = (if st then rm_command i else Install ["."]) :: rest
    /\ ~ In (rm_command i) rest.
Proof.
  unfold plan, clean_plan, generate_plan, patch_plan, gate_commands, lint_plan.
  destruct st; cbn [app]; eexists; (split; [reflexivity|]).
  all: intros H; destruct (wants_lint h (args i)); cbn [In app] in H;
    repeat (destruct H as [H | H]; [discriminate H|]); contradiction.
Qed.

Lemma run_first_action posargs w :
  rejects posargs w = false ->
  exists s rest,
    trace_of w (snd (test_cookiecutter h posargs w)) = (first_action posargs w, s) :: rest.
Proof.
  intros R. destruct (run_summary posargs w R) as (lib & Hr & _).
  pose proof (ran_prefix _ _ _ _ _ _ Hr) as (more & Hp).
  pose proof (ran_nonempty _ _ _ _ _ _ Hr) as Hne.
  destruct (plan_starts (resolve posargs (cwd w)) (stale posargs w) lib) as (rest & E & _).
  destruct (trace_of w (snd (test_cookiecutter h posargs w))) as [|[a s] t]; [contradiction|].
  exists s, t. rewrite E in Hp. cbn [map fst app] in Hp. injection Hp as Ha _.
  unfold first_action. now rewrite Ha.
Qed.

End Run.

(** X1. A run that passes the input resolver starts with the removal of
    the output directory when that directory exists at the start, and
    with the installation of the package otherwise; the removal is
    performed at most that once. *)
Theorem first_action_cleans_stale_output (h : host) (posargs : list string) (w : world) :
  rejects posargs w = false ->
  exists s rest,
    trace_of w (snd (test_cookiecutter h posargs w)) = (first_action posargs w, s) :: rest
    /\ ~ In (rm_command (resolve posargs (cwd w))) (map fst rest).
Proof.
  intros R. destruct (run_summary h posargs w R) as (lib & Hr & _).
  pose proof (ran_prefix _ _ _ _ _ _ Hr) as (more & Hp).
  pose proof (ran_nonempty _ _ _ _ _ _ Hr) as Hne.
  destruct (plan_starts h (resolve posargs (cwd w)) (stale posargs w) lib) as (rest & E & Hno).
  destruct (trace_of w (snd (test_cookiecutter h posargs w))) as [|[a s] t]; [contradiction|].
  exists s, t. rewrite E in Hp. cbn [map fst app] in Hp. injection Hp as Ha Hrest.
  unfold first_action. rewrite Ha. split; [reflexivity|].
  intros Hin. apply Hno. rewrite Hrest. apply in_or_app. now left.
Qed.

Lemma first_action_cleans_stale_output_witness :
  exists s rest,
    trace_of Demo.world0 (snd (test_cookiecutter Demo.host0 [] Demo.world0))
    = (first_action [] Demo.world0, s) :: rest
    /\ ~ In (rm_command (resolve [] (cwd Demo.world0))) (map fst rest).
Proof.
  refine (first_action_cleans_stale_output Demo.host0 [] Demo.world0 _).
  vm_compute. reflexivity.
Defined.

(** [os.path.exists] of the build path with its trailing slash: the
    kernel has to enter [/tmp], which must be a directory. *)
Lemma build_path_exists (w : world) :
  path_exists w "/tmp/" = true -> isdir (fs w) "/tmp" = true.
Proof.
  unfold path_exists, stat, isdir.
  change (Path.components (cwd w) "/tmp/") with [""; "tmp"; ""].
  cbn [is_empty walk orb]. destruct (fs w "/") as [[c|names]|]; try discriminate.
  change (String.eqb "tmp" ".") with false. change (String.eqb "tmp" "..") with false.
  change (Path.join "/" "tmp") with "/tmp". cbn [orb].
  destruct (fs w "/tmp") as [[c|names']|]; try discriminate. reflexivity.
Qed.

(** X2. When the base name of the replay file is [.json] alone, the
    output name is empty and the output directory is the build path with
    its trailing slash: in a run that passes the input checks and finds
    that [/tmp/] exists, which takes [/tmp] to be a directory, the first
    action is the removal of [/tmp/]. *)
Theorem bare_replay_name_removes_build_path (h : host) (posargs : list string) (w : world) :
  Path.basename (nth 1 (effective_args posargs) "") = ".json" ->
  rejects posargs w = false ->
  path_exists w "/tmp/" = true ->
  cc_output_dir (resolve posargs (cwd w)) = ""
  /\ cc_test_output (resolve posargs (cwd w)) = "/tmp/"
  /\ isdir (fs w) "/tmp" = true
  /\ exists s rest,
       trace_of w (snd (test_cookiecutter h posargs w))
       = (Run ["rm"; "-fr"; "/tmp/"] true, s) :: rest.
Proof.
  intros Hb R Ht.
  assert (Ho : cc_test_output (resolve posargs (cwd w)) = "/tmp/").
  { unfold resolve; cbn [cc_test_output]. rewrite Hb. reflexivity. }
  split; [unfold resolve; cbn [cc_output_dir]; rewrite Hb; reflexivity|].
  split; [exact Ho|]. split; [exact (build_path_exists w Ht)|].
  destruct (run_first_action h posargs w R) as (s & rest & E).
  exists s, rest. rewrite E. unfold first_action, stale, rm_command.
  rewrite Ho, Ht. reflexivity.
Qed.

Lemma bare_replay_name_removes_build_path_witness :
  exists s rest,
    trace_of Cases.world_bare
      (snd (test_cookiecutter Demo.host0 [Demo.template; Cases.bare_replay] Cases.world_bare))
    = (Run ["rm"; "-fr"; "/tmp/"] true, s) :: rest.
Proof.
  refine (proj2 (proj2 (proj2 (bare_replay_name_removes_build_path Demo.host0
            [Demo.template; Cases.bare_replay] Cases.world_bare _ _ _)))).
  - vm_compute. reflexivity.
  - vm_compute. reflexivity.
  - vm_compute. reflexivity.
Defined.

(** X3. The working directory is changed to the generated project once
    cleaning and generation are done, and is never changed back: a run
    ends in the generated project exactly when it performed more actions
    than those of cleaning and generation, and in the directory it
    started in otherwise; a run that falls off its end ends in the
    generated project. *)
Theorem working_directory_is_not_restored (h : host) (posargs : list string) (w : world) :
  let r := fst (test_cookiecutter h posargs w) in
  let w' := snd (test_cookiecutter h posargs w) in
  cwd w' = (if Nat.ltb (before_patch posargs w) (length (trace_of w w'))
            then generated_project posargs w else cwd w)
  /\ (r = Ok None -> cwd w' = generated_project posargs w).
Proof.
  cbv zeta. destruct (rejects posargs w) eqn:R.
  - destruct (rejected_trace h posargs w R) as (Hr & Ht & Hc).
    rewrite Ht, Hc, Hr. cbn [length]. split; [reflexivity|discriminate].
  - destruct (run_summary h posargs w R) as (lib & Hr & Hc & _).
    split; [exact Hc|]. intros E. rewrite Hc. rewrite E in Hr. cbn [ran] in Hr.
    rewrite Hr, length_zeros. unfold before_patch, plan. rewrite !length_app.
    cbn [length patch_plan].
    match goal with |- context [Nat.ltb ?x ?y] => destruct (Nat.ltb_spec x y) as [H1|H1] end;
      [reflexivity | exfalso; lia].
Qed.

(** X4. The only missing-file or not-a-directory exception a run raises
    comes from the change of directory and names the output directory:
    cleaning and generation have then passed, the template engine
    included, the working directory is the one the run started in, and
    the output directory is no directory. *)
Theorem absent_project_stops_before_patch (h : host) (posargs : list string) (w : world)
  (p : string) :
  let r := fst (test_cookiecutter h posargs w) in
  let w' := snd (test_cookiecutter h posargs w) in
  let i := resolve posargs (cwd w) in
  r = Raise (FileNotFoundError p) \/ r = Raise (NotADirectoryError p) ->
  p = cc_test_output i
  /\ trace_of w w' = zeros (clean_plan i (stale posargs w) ++ generate_plan i)
  /\ cwd w' = cwd w
  /\ path_isdir w' p = false.
Proof.
  cbv zeta. intros E.
  assert (R : rejects posargs w = false)
    by (destruct E as [E|E]; exact (raised_not_rejected h posargs w _ E)).
  destruct (run_summary h posargs w R) as (lib & Hr & Hc & Hm & Hn & _).
  assert (Ht : trace_of w (snd (test_cookiecutter h posargs w))
               = zeros (clean_plan (resolve posargs (cwd w)) (stale posargs w)
                        ++ generate_plan (resolve posargs (cwd w)))).
  { destruct E as [E|E]; rewrite E in Hr; exact Hr. }
  assert (Hcw : cwd (snd (test_cookiecutter h posargs w)) = cwd w).
  { rewrite Hc, Ht, length_zeros.
    change (length (clean_plan _ _ ++ generate_plan _)) with (before_patch posargs w).
    now rewrite Nat.ltb_irrefl. }
  destruct E as [E|E].
  - destruct (Hm p E) as (-> & He). repeat split; try assumption.
    unfold path_isdir. unfold path_exists in He.
    destruct (stat _ _ _) as [q [?|?]| |]; try reflexivity; discriminate He.
  - destruct (Hn p E) as (-> & He). repeat split; assumption.
Qed.

Lemma absent_project_stops_before_patch_witness :
  Demo.project = cc_test_output (resolve [] (cwd Demo.world0))
  /\ trace_of Demo.world0 (snd (test_cookiecutter Cases.host_idle [] Demo.world0))
     = zeros (clean_plan (resolve [] (cwd Demo.world0)) (stale [] Demo.world0)
              ++ generate_plan (resolve [] (cwd Demo.world0)))
  /\ cwd (snd (test_cookiecutter Cases.host_idle [] Demo.world0)) = cwd Demo.world0
  /\ path_isdir (snd (test_cookiecutter Cases.host_idle [] Demo.world0)) Demo.project = false.
Proof.
  refine (absent_project_stops_before_patch Cases.host_idle [] Demo.world0 Demo.project _).
  left. vm_compute. reflexivity.
Defined.

(** X5. A run raises [ValueError] only for its third argument, when that
    argument is present and [int] rejects it, and only after the four
    gates have all passed: every action up to the last gate was performed
    and exited with status 0. *)
Theorem value_error_names_third_argument (h : host) (posargs : list string) (w : world)
  (x : string) :
  let r := fst (test_cookiecutter h posargs w) in
  let t := trace_of w (snd (test_cookiecutter h posargs w)) in
  let i := resolve posargs (cwd w) in
  r = Raise (ValueError x) ->
  x = nth 2 (effective_args posargs) ""
  /\ (3 <= length (effective_args posargs))%nat
  /\ int_of h x = None
  /\ exists library_name,
       t = zeros (before_gates i (stale posargs w) ++ gate_commands true library_name).
Proof.
  cbv zeta. intros E.
  pose proof (raised_not_rejected h posargs w _ E) as R.
  destruct (run_summary h posargs w R) as (lib & Hr & _ & _ & _ & _ & Hv & _).
  destruct (Hv x E) as (Hx & Hlen & Hint).
  rewrite E in Hr. cbn [ran] in Hr. destruct Hr as (Ht & _).
  repeat split; try assumption. exists lib. rewrite Ht.
  unfold before_gates. now rewrite <- !app_assoc.
Qed.

Lemma value_error_names_third_argument_witness :
  "yes" = nth 2 (effective_args Cases.worded_flag) ""
  /\ (3 <= length (effective_args Cases.worded_flag))%nat
  /\ int_of Demo.host0 "yes" = None
  /\ exists library_name,
       trace_of Demo.world0 (snd (test_cookiecutter Demo.host0 Cases.worded_flag Demo.world0))
       = zeros (before_gates (resolve Cases.worded_flag (cwd Demo.world0))
                  (stale Cases.worded_flag Demo.world0)
                ++ gate_commands true library_name).
Proof.
  refine (value_error_names_third_argument Demo.host0 Cases.worded_flag Demo.world0 "yes" _).
  vm_compute. reflexivity.
Defined.

(** X6. With a third argument that [int] rejects the run never falls off
    its end and never performs the aggregate lint pass. *)
Theorem worded_flag_never_completes (h : host) (posargs : list string) (w : world) :
  (3 <= length (effective_args posargs))%nat ->
  int_of h (nth 2 (effective_args posargs) "") = None ->
  fst (test_cookiecutter h posargs w) <> Ok None
  /\ ~ In tox_command (map fst (trace_of w (snd (test_cookiecutter h posargs w)))).
Proof.
  intros Hlen Hint. destruct (rejects posargs w) eqn:R.
  - destruct (rejected_trace h posargs w R) as (Hr & Ht & _).
    rewrite Hr, Ht. split; [discriminate|intros []].
  - destruct (run_summary h posargs w R) as (lib & Hr & _ & _ & _ & Hok & _).
    split.
    + intros E. destruct (Hok E) as [H1|H1]; [|contradiction].
      change (args (resolve posargs (cwd w))) with (effective_args posargs) in H1. lia.
    + intros Hin. pose proof (ran_prefix _ _ _ _ _ _ Hr) as (more & Hp).
      assert (Hw : wants_lint h (args (resolve posargs (cwd w))) = false).
      { change (args (resolve posargs (cwd w))) with (effective_args posargs).
        unfold wants_lint. rewrite Hint.
        destruct (Nat.ltb_spec (length (effective_args posargs)) 3); [lia|reflexivity]. }
      rewrite plan_split in Hp. unfold lint_plan in Hp. rewrite Hw, app_nil_r in Hp.
      apply (tox_not_before_lint (resolve posargs (cwd w)) (stale posargs w) lib).
      rewrite Hp. apply in_or_app. now left.
Qed.

Lemma worded_flag_never_completes_witness :
  fst (test_cookiecutter Demo.host0 Cases.worded_flag Demo.world0) <> Ok None
  /\ ~ In tox_command
         (map fst (trace_of Demo.world0
                     (snd (test_cookiecutter Demo.host0 Cases.worded_flag Demo.world0)))).
Proof.
  refine (worded_flag_never_completes Demo.host0 Cases.worded_flag Demo.world0 _ _).
  - vm_compute. lia.
  - vm_compute. reflexivity.
Defined.

(** X15. The three input checks are made in a fixed order and each
    prints its own line before the session returns 0: one argument gives
    [ERROR:] followed by that argument, whatever the file system holds;
    otherwise a template path that does not exist gives
    [Tap template folder not found]; otherwise a replay path that is no
    regular file gives [Replay file not found]. Nothing else changes. *)
Theorem rejection_names_its_reason (h : host) (posargs : list string) (w : world) :
  let a := effective_args posargs in
  let i := resolve posargs (cwd w) in
  let run := test_cookiecutter h posargs w in
  (length a = 1%nat -> run = (Ok (Some 0%Z), printed ("ERROR:" +++ nth 0 a "") w))
  /\ (length a <> 1%nat -> path_exists w (tap_template i) = false ->
      run = (Ok (Some 0%Z), printed "Tap template folder not found" w))
  /\ (length a <> 1%nat -> path_exists w (tap_template i) = true ->
      path_isfile w (replay_file i) = false ->
      run = (Ok (Some 0%Z), printed "Replay file not found" w)).
Proof.
  cbv zeta. unfold test_cookiecutter, input_resolver, resolve; cbn [tap_template replay_file].
  fold (effective_args posargs). set (a := effective_args posargs).
  split; [|split].
  - intros H. apply Nat.eqb_eq in H. rewrite H. reflexivity.
  - intros H He. apply Nat.eqb_neq in H. rewrite H.
    unfold bind at 1 2 3 4. unfold os_path_abspath at 1 2. unfold os_path_exists at 1.
    cbn [fst snd]. rewrite He. reflexivity.
  - intros H He Hf. apply Nat.eqb_neq in H. rewrite H.
    unfold bind at 1 2 3 4. unfold os_path_abspath at 1 2. unfold os_path_exists at 1.
    cbn [fst snd]. rewrite He. cbn [negb].
    unfold bind at 1 2. unfold os_path_isfile at 1. rewrite Hf. reflexivity.
Qed.

Lemma rejection_names_its_reason_witness :
  test_cookiecutter Demo.host0 SiblingCases.one_arg Demo.world0
  = (Ok (Some 0%Z),
     printed ("ERROR:" +++ nth 0 (effective_args SiblingCases.one_arg) "") Demo.world0).
Proof.
  refine (proj1 (rejection_names_its_reason Demo.host0 SiblingCases.one_arg Demo.world0) _).
  reflexivity.
Defined.

(* ================================================================== *)
(** ** The patch applied twice *)

Import Shape.

Lemma lines_well_formed s : well_formed (Sed.lines s) = true.
Proof.
  induction s as [|c s IH]; [reflexivity|]. cbn [Sed.lines].
  destruct (Ascii.eqb c newline) eqn:Hc.
  - cbn [well_formed]. exact IH.
  - destruct (Sed.lines s) as [|[l nl] rest].
    + unfold well_formed, one_line, chr. cbn [mem_char is_empty]. now rewrite Hc.
    + cbn [well_formed] in *. apply andb_true_iff in IH as [H1 H2].
      unfold one_line in *. cbn [mem_char]. rewrite Hc. cbn [orb]. rewrite H1. cbn [andb].
      destruct nl; [exact H2|]. apply andb_true_iff in H2 as [_ H3]. exact H3.
Qed.

Lemma lines_append_one_line l s :
  one_line l = true ->
  Sed.lines (l +++ String newline s) = (l, true) :: Sed.lines s.
Proof.
  unfold one_line. induction l as [|c l IH]; intros H.
  - cbn [String.append Sed.lines]. now rewrite Ascii.eqb_refl.
  - cbn [mem_char] in H. apply negb_true_iff, orb_false_elim in H as [Hc Hl].
    cbn [String.append Sed.lines]. rewrite Hc, IH by (now rewrite Hl). reflexivity.
Qed.

Lemma lines_last_line l :
  one_line l = true -> is_empty l = false -> Sed.lines l = [(l, false)].
Proof.
  unfold one_line. induction l as [|c l IH]; intros H Hne; [discriminate Hne|].
  cbn [mem_char] in H. apply negb_true_iff, orb_false_elim in H as [Hc Hl].
  cbn [Sed.lines]. rewrite Hc. destruct l as [|d l]; [reflexivity|].
  rewrite IH by (rewrite ?Hl; reflexivity). reflexivity.
Qed.

Lemma append_empty_r s : s +++ "" = s.
Proof. induction s as [|c s IH]; simpl; congruence. Qed.

Lemma lines_unlines L : well_formed L = true -> Sed.lines (Sed.unlines L) = L.
Proof.
  induction L as [|[l nl] rest IH]; intros H; [reflexivity|].
  cbn [well_formed] in H. apply andb_true_iff in H as [H1 H2].
  cbn [Sed.unlines]. destruct nl.
  - unfold chr. cbn [String.append]. rewrite lines_append_one_line by exact H1.
    now rewrite IH.
  - apply andb_true_iff in H2 as [H2 H3]. destruct rest; [|discriminate H3].
    cbn [Sed.unlines String.append]. rewrite append_empty_r.
    apply lines_last_line; [exact H1|]. now apply negb_true_iff in H2.
Qed.

Lemma map_well_formed (f : string -> string) L :
  (forall s, one_line s = true -> one_line (f s) = true) ->
  (forall s, is_empty s = false -> is_empty (f s) = false) ->
  well_formed L = true ->
  well_formed (map (fun l => (f (fst l), snd l)) L) = true.
Proof.
  intros Hf Hg. induction L as [|[l nl] rest IH]; intros H; [reflexivity|].
  cbn [well_formed map fst snd] in *. apply andb_true_iff in H as [H1 H2].
  rewrite (Hf _ H1). cbn [andb]. destruct nl; [now apply IH|].
  apply andb_true_iff in H2 as [H2 H3]. destruct rest; [|discriminate H3].
  apply negb_true_iff in H2. rewrite (Hg _ H2). reflexivity.
Qed.

(** A text shorter than [old] is at the start of [s] as it is at the
    start of [old], when [s] starts with [old]. *)
Lemma prefix_of_prefixed q old s :
  String.length q <= String.length old ->
  String.prefix old s = true ->
  String.prefix q s = String.prefix q old.
Proof.
  revert old s; induction q as [|a q IH]; intros old s Hl P; [now destruct s, old|].
  destruct old as [|b old]; [cbn [String.length] in Hl; lia|].
  destruct s as [|c s]; [discriminate P|].
  cbn [String.prefix] in *. destruct (ascii_dec b c) as [->|]; [|discriminate P].
  destruct (ascii_dec a c); [|reflexivity].
  apply IH; [cbn [String.length] in Hl; lia | exact P].
Qed.

Lemma prefix_rewrite_line q old new line :
  String.length q <= String.length old ->
  String.prefix old new = true ->
  String.prefix q (rewrite_line old new line) = String.prefix q line.
Proof.
  intros Hl Hn. revert q Hl; induction line as [|c line IH]; intros q Hl.
  - cbn [rewrite_line]. destruct (String.prefix old "") eqn:P; [|reflexivity].
    rewrite (prefix_of_prefixed q old new Hl Hn).
    now rewrite (prefix_of_prefixed q old "" Hl P).
  - cbn [rewrite_line]. destruct (String.prefix old (String c line)) eqn:P.
    + rewrite (prefix_of_prefixed q old new Hl Hn).
      now rewrite (prefix_of_prefixed q old _ Hl P).
    + destruct q as [|a q]; [reflexivity|]. cbn [String.prefix].
      destruct (ascii_dec a c); [|reflexivity].
      apply IH. cbn [String.length] in Hl. lia.
Qed.

Lemma rewrite_line_new old new :
  String.prefix old new = true -> rewrite_line old new new = new.
Proof. intros H. destruct new; cbn [rewrite_line]; now rewrite H. Qed.

Lemma rewrite_line_twice old new line :
  String.prefix old new = true ->
  rewrite_line old new (rewrite_line old new line) = rewrite_line old new line.
Proof.
  intros Hn. induction line as [|c line IH]; cbn [rewrite_line].
  - destruct (String.prefix old "") eqn:P.
    + now apply rewrite_line_new.
    + cbn [rewrite_line]. now rewrite P.
  - destruct (String.prefix old (String c line)) eqn:P.
    + now apply rewrite_line_new.
    + pose proof (prefix_rewrite_line old old new (String c line) (le_n _) Hn) as E.
      cbn [rewrite_line] in E. rewrite P in E.
      cbn [rewrite_line]. rewrite E. now rewrite IH.
Qed.

Lemma one_line_append a b :
  one_line (a +++ b) = one_line a && one_line b.
Proof.
  unfold one_line. induction a as [|c a IH]; cbn [String.append mem_char]; [reflexivity|].
  destruct (Ascii.eqb c newline); [reflexivity|]. exact IH.
Qed.

Lemma one_line_sed_plain s : sed_plain s = true -> one_line s = true.
Proof.
  unfold one_line. induction s as [|c s IH]; [reflexivity|].
  cbn [sed_plain mem_char]. intros H. apply andb_true_iff in H as [H1 H2].
  apply negb_true_iff in H1. apply orb_false_elim in H1 as [_ Hn].
  rewrite Hn. cbn [orb]. now apply IH.
Qed.

Lemma one_line_declaration sdk : sed_plain sdk = true -> one_line (declaration sdk) = true.
Proof.
  intros H. unfold declaration. rewrite !one_line_append.
  rewrite (one_line_sed_plain _ H). reflexivity.
Qed.

Lemma one_line_rewrite old new line :
  one_line new = true -> one_line line = true ->
  one_line (rewrite_line old new line) = true.
Proof.
  intros Hn. induction line as [|c line IH]; cbn [rewrite_line]; intros H.
  - now destruct (String.prefix old "").
  - destruct (String.prefix old (String c line)); [exact Hn|].
    unfold one_line in *. cbn [mem_char] in *.
    apply negb_true_iff, orb_false_elim in H as [Hc Hl]. rewrite Hc. cbn [orb].
    apply IH. now rewrite Hl.
Qed.

Lemma nonempty_rewrite old new line :
  is_empty new = false -> is_empty line = false ->
  is_empty (rewrite_line old new line) = false.
Proof.
  intros Hn H. destruct line as [|c line]; [discriminate H|].
  cbn [rewrite_line]. now destruct (String.prefix old (String c line)).
Qed.

Lemma needle_starts_declaration sdk : String.prefix needle (declaration sdk) = true.
Proof. reflexivity. Qed.

Lemma patched_twice sdk content :
  sed_plain sdk = true -> patched sdk (patched sdk content) = patched sdk content.
Proof.
  intros H. unfold patched at 1 2.
  rewrite lines_unlines.
  - rewrite map_map. cbn [fst snd]. unfold patched. f_equal. apply map_ext. intros [l nl]. cbn [fst snd].
    f_equal. apply rewrite_line_twice, needle_starts_declaration.
  - apply (map_well_formed (rewrite_line needle (declaration sdk))).
    + intros s. apply one_line_rewrite. now apply one_line_declaration.
    + intros s. apply nonempty_rewrite. reflexivity.
    + apply lines_well_formed.
Qed.

(** X7. The patch is idempotent on the manifest, but not on its backup:
    on a manifest that is a regular file, with a development directory
    whose path holds none of the bar, the ampersand, the backslash and
    the newline, to which the editor's script gives a meaning, patching a
    patched text changes nothing, so a second patch step leaves the
    manifest as the first one did, and overwrites the backup with the
    patched text. *)
Theorem patching_again_changes_nothing (h : host) (sdk_dir content : string) (w : world) :
  fs w (manifest_path w) = Some (File content) ->
  sed_plain sdk_dir = true ->
  let w1 := snd (patch_manifest h sdk_dir w) in
  let w2 := snd (patch_manifest h sdk_dir w1) in
  patched sdk_dir (patched sdk_dir content) = patched sdk_dir content
  /\ fst (patch_manifest h sdk_dir w1) = Ok tt
  /\ fs w2 (manifest_path w) = fs w1 (manifest_path w)
  /\ fs w2 (backup_path w) = Some (File (patched sdk_dir content)).
Proof.
  intros Hf Hs. cbv zeta.
  split; [now apply patched_twice|].
  rewrite (patch_manifest_run h sdk_dir content w Hs Hf). cbn [snd].
  set (w1 := {| fs := _; cwd := cwd w; log := _; out := _ |}).
  assert (Hm : manifest_path w1 = manifest_path w) by reflexivity.
  assert (Hb : backup_path w1 = backup_path w) by reflexivity.
  assert (Hf1 : fs w1 (manifest_path w1) = Some (File (patched sdk_dir content))).
  { rewrite Hm. unfold w1. cbn [fs]. apply written_manifest. }
  rewrite (patch_manifest_run h sdk_dir _ w1 Hs Hf1). cbn [fst snd fs].
  split; [reflexivity|]. split.
  - rewrite <- Hm at 1. rewrite written_manifest, patched_twice by exact Hs.
    rewrite <- Hf1, Hm. reflexivity.
  - rewrite <- Hb. apply written_backup.
Qed.

Lemma patching_again_changes_nothing_witness :
  patched "/repo" (patched "/repo" Demo.two_line_manifest)
  = patched "/repo" Demo.two_line_manifest.
Proof.
  refine (proj1 (patching_again_changes_nothing Demo.host0 "/repo" Demo.two_line_manifest
                   (Demo.inside Demo.two_line_manifest Demo.names) _ _)).
  - vm_compute. reflexivity.
  - reflexivity.
Defined.

(* ================================================================== *)
(** ** The runs of [do_something] *)

Import Landing E2E.

Section Sibling.

Variable h : host.

Lemma perform_after {B} a (k : unit -> M B) w1 :
  bind (perform h a) k w1
  = if Z.eqb (fst (spawn h a w1)) 0 then k tt (after h a w1)
    else (Raise (CommandFailed a (fst (spawn h a w1))), after h a w1).
Proof.
  unfold bind. rewrite perform_run. cbv zeta. unfold after.
  destruct (Z.eqb (fst (spawn h a w1)) 0); reflexivity.
Qed.

Lemma finished_failed posargs (w w' : world) st a s done rest :
  log w' = log w ++ zeros done ++ [(a, s)] ->
  s <> 0%Z ->
  run_plan posargs (cwd w) st = done ++ a :: rest ->
  finished posargs w st (Raise (CommandFailed a s)) w'.
Proof.
  intros Hl Hs Hp. unfold finished. rewrite (trace_of_app _ _ _ Hl).
  split; [exact Hs|]. exists done, rest. auto.
Qed.

(** One action of the plan: the run ends there, or the action passed and
    the run goes on in the world it leaves. *)
Lemma step_plan posargs (w : world) st done a rest (k : unit -> M (option Z)) w1 :
  log w1 = log w ++ zeros done ->
  run_plan posargs (cwd w) st = done ++ a :: rest ->
  (log (after h a w1) = log w ++ zeros (done ++ [a]) ->
   finished posargs w st (fst (k tt (after h a w1))) (snd (k tt (after h a w1)))) ->
  finished posargs w st (fst (bind (perform h a) k w1)) (snd (bind (perform h a) k w1)).
Proof.
  intros Hl Hp Hk. rewrite perform_after.
  destruct (Z.eqb_spec (fst (spawn h a w1)) 0) as [E|E].
  - apply Hk. unfold after; cbn [log]. rewrite Hl, E, zeros_app, <- app_assoc. reflexivity.
  - cbn [fst snd]. apply (finished_failed posargs w _ st a _ done rest); try assumption.
    unfold after; cbn [log]. rewrite Hl, <- app_assoc. reflexivity.
Qed.

Lemma wrong_count (posargs : list string) :
  negb (negb (length posargs =? 0)%nat && (length posargs =? 2)%nat)
  = negb (length posargs =? 2)%nat.
Proof. destruct posargs as [|a [|b [|c l]]]; reflexivity. Qed.

Ltac plan_step :=
  match goal with
  | Hacc : log ?W = log ?w ++ zeros ?done, Epl : run_plan _ _ _ = _
    |- finished ?posargs ?w ?st (fst (bind (perform h ?a) ?k ?W)) _ =>
      let Hn := fresh "Hacc" in
      eapply (step_plan posargs w st done a _ k W Hacc);
      [rewrite Epl; reflexivity|];
      clear Hacc; intros Hn; cbv beta
  end.

Ltac pure_step := erewrite bind_ok by reflexivity.

(** Only the log of the current world matters from here on. *)
Ltac forget_world :=
  match goal with
  | Hacc : log _ = log ?w0 ++ ?t0 |- finished _ _ _ (fst (bind _ _ ?W)) _ =>
      let Hn := fresh "Hacc" in
      let wn := fresh "w" in
      let Heq := fresh in
      assert (Hn : log W = log w0 ++ t0) by exact Hacc;
      clear Hacc; remember W as wn eqn:Heq; clear Heq
  end.

Ltac by_log := match goal with H : log _ = log _ ++ _ |- _ => exact H end.

Lemma finished_wrong posargs (w w' : world) st :
  log w' = log w ++ zeros pip_installs ->
  out w' = out w ++ ["INPUT IS WRONG!!!"] ->
  length posargs <> 2%nat ->
  finished posargs w st (Ok (Some 0%Z)) w'.
Proof.
  intros Hl Ho Hn. unfold finished. rewrite (trace_of_app _ _ _ Hl). auto.
Qed.

Lemma finished_missing posargs (w w' : world) st :
  log w' = log w ++ zeros (pip_installs ++ build_plan posargs (cwd w) st) ->
  length posargs = 2%nat ->
  finished posargs w st (Raise (FileNotFoundError (expected_output posargs))) w'
  /\ finished posargs w st (Raise (NotADirectoryError (expected_output posargs))) w'.
Proof.
  intros Hl Hn. unfold finished. rewrite (trace_of_app _ _ _ Hl). auto.
Qed.

Lemma finished_passed posargs (w w' : world) st :
  log w' = log w ++ zeros (run_plan posargs (cwd w) st) ->
  length posargs = 2%nat ->
  finished posargs w st (Ok None) w'.
Proof.
  intros Hl Hn. unfold finished. rewrite (trace_of_app _ _ _ Hl). auto.
Qed.

Lemma do_something_finished posargs w :
  finished posargs w (in_the_way h posargs w)
    (fst (do_something h posargs w)) (snd (do_something h posargs w)).
Proof.
  destruct (in_the_way h posargs w) eqn:Est;
  destruct (Nat.eqb_spec (length posargs) 2) as [Hlen|Hlen].
  all: match goal with
       | |- finished _ _ ?st _ _ =>
           let t := eval cbv [run_plan pip_installs map app build_plan check_plan
                                gate_commands gate sed_command cc_build_path]
                      in (run_plan posargs (cwd w) st) in
           assert (Epl : run_plan posargs (cwd w) st = t) by reflexivity
       end.
  all: pose proof Hlen as Hlen'; apply Nat.eqb_eq in Hlen' || apply Nat.eqb_neq in Hlen'.
  all: rewrite Hlen' in Epl.
  all: cbv iota in Epl.
  all: unfold do_something, session_run.
  all: assert (Hacc : log w = log w ++ zeros []) by (now rewrite app_nil_r).
  all: do 5 plan_step.
  all: rewrite wrong_count, Hlen'; cbn [negb].
  (* the wrong number of arguments *)
  2,4: pure_step; cbn [ret fst snd];
       apply finished_wrong; [by_log | reflexivity | exact Hlen].
  (* two arguments *)
  all: do 5 pure_step.
  all: match goal with
       | |- context [if path_exists ?W ?p then _ else _] =>
           change (path_exists W p) with (in_the_way h posargs w)
       end; rewrite Est.
  all: cbn [cwd after].
  all: forget_world.
  1: plan_step.
  2: pure_step.
  all: do 3 pure_step; forget_world.
  all: plan_step.
  all: do 3 pure_step; forget_world.
  all: match goal with
       | |- context [bind (os_chdir ?p) ?k ?W] =>
           destruct (after_chdir_detail p k W)
             as [(w' & E & Hlog' & _) | [(E & _) | (E & _)]];
           rewrite E; clear E; cbv beta; cbn [fst snd]
       end.
  2,5: apply finished_missing; [by_log|exact Hlen].
  2,4: apply finished_missing; [by_log|exact Hlen].
  all: rewrite <- Hlog' in *; clear Hlog'.
  all: pure_step; forget_world.
  all: do 7 plan_step.
  all: cbn [ret fst snd]; apply finished_passed; [rewrite Epl; by_log|exact Hlen].
Qed.

End Sibling.

Lemma zeros_head a l x t : zeros (a :: l) = x :: t -> x = (a, 0%Z).
Proof. cbn [zeros map]. now intros [= <- _]. Qed.

Lemma run_plan_head posargs cwd0 st :
  exists rest, run_plan posargs cwd0 st = Run ["pip"; "install"; "virtualenv"] false :: rest.
Proof. unfold run_plan, pip_installs. cbn [map app]. eauto. Qed.

Lemma finished_starts posargs w st r w' :
  finished posargs w st r w' ->
  exists s rest, trace_of w w' = (Run ["pip"; "install"; "virtualenv"] false, s) :: rest.
Proof.
  unfold finished.
  destruct (run_plan_head posargs (cwd w) st) as (more & Ep).
  destruct r as [[z|]|[a s|p|p|n|x]].
  - intros (_ & _ & -> & _). unfold pip_installs. cbn [map zeros]. eauto.
  - intros (_ & ->). rewrite Ep. cbn [map zeros]. eauto.
  - intros (_ & done & rest & E & ->). rewrite Ep in E.
    destruct done as [|d done]; cbn [app] in E; injection E as <- _; cbn [zeros map app]; eauto.
  - intros (_ & _ & ->). unfold pip_installs. cbn [map zeros app]. eauto.
  - intros (_ & _ & ->). unfold pip_installs. cbn [map zeros app]. eauto.
  - contradiction.
  - contradiction.
Qed.

(** X8. [do_something] looks at its arguments only after its five
    installations: every run starts with [pip install virtualenv]; the
    session returns 0 only when the number of arguments is not two, and
    has then performed the five installations, all with status 0, and
    printed its complaint; and with a number of arguments other than two
    a run performs nothing but installations and never falls off its
    end. *)
Theorem do_something_validates_after_installing (h : host) (posargs : list string)
  (w : world) :
  let r := fst (do_something h posargs w) in
  let w' := snd (do_something h posargs w) in
  let t := trace_of w w' in
  (exists s rest, t = (Run ["pip"; "install"; "virtualenv"] false, s) :: rest)
  /\ (forall z, r = Ok (Some z) ->
        z = 0%Z /\ length posargs <> 2%nat /\ t = zeros pip_installs
        /\ out w' = out w ++ ["INPUT IS WRONG!!!"])
  /\ (length posargs <> 2%nat ->
        r <> Ok None /\ is_prefix (map fst t) pip_installs).
Proof.
  cbv zeta. pose proof (do_something_finished h posargs w) as F.
  split; [exact (finished_starts _ _ _ _ _ F)|].
  split.
  - intros z E. rewrite E in F. exact F.
  - intros Hn. unfold finished in F.
    assert (Ep : run_plan posargs (cwd w) (in_the_way h posargs w) = pip_installs).
    { unfold run_plan. apply Nat.eqb_neq in Hn. rewrite Hn. apply app_nil_r. }
    destruct (fst (do_something h posargs w)) as [[z|]|[a s|p|p|n|x]].
    + destruct F as (_ & _ & -> & _). split; [discriminate|].
      exists []. now rewrite map_fst_zeros, app_nil_r.
    + destruct F as (F & _). contradiction.
    + destruct F as (_ & done & rest & E & ->). split; [discriminate|].
      exists rest. rewrite map_app, map_fst_zeros, <- app_assoc, <- Ep. exact E.
    + destruct F as (_ & F & _). contradiction.
    + destruct F as (_ & F & _). contradiction.
    + contradiction.
    + contradiction.
Qed.

(** X9. A run of [do_something] that falls off its end was given two
    arguments and performed, each with status 0: the five installations;
    the removal of the expected output directory exactly when that
    directory existed once the installations were done; the template
    engine; the patch, [poetry lock] and [poetry install]; and the four
    gates on the fixed library name. A missing-file or not-a-directory
    exception names the expected output directory and comes right after
    the template engine passed. *)
Theorem do_something_performs_its_plan (h : host) (posargs : list string) (w : world) :
  let r := fst (do_something h posargs w) in
  let t := trace_of w (snd (do_something h posargs w)) in
  (r = Ok None ->
     length posargs = 2%nat
     /\ t = zeros (pip_installs
                   ++ build_plan posargs (cwd w) (in_the_way h posargs w)
                   ++ check_plan posargs (cwd w)))
  /\ (forall p, r = Raise (FileNotFoundError p) \/ r = Raise (NotADirectoryError p) ->
        p = expected_output posargs
        /\ t = zeros (pip_installs ++ build_plan posargs (cwd w) (in_the_way h posargs w))).
Proof.
  cbv zeta. pose proof (do_something_finished h posargs w) as F. split.
  - intros E. rewrite E in F. destruct F as (Hn & F). split; [exact Hn|].
    rewrite F. unfold run_plan. apply Nat.eqb_eq in Hn. now rewrite Hn.
  - intros p [E|E]; rewrite E in F; destruct F as (-> & _ & F); auto.
Qed.

Lemma do_something_performs_its_plan_witness :
  length SiblingCases.both_args = 2%nat
  /\ trace_of Demo.world0 (snd (do_something Demo.host0 SiblingCases.both_args Demo.world0))
     = zeros (pip_installs
              ++ build_plan SiblingCases.both_args (cwd Demo.world0)
                   (in_the_way Demo.host0 SiblingCases.both_args Demo.world0)
              ++ check_plan SiblingCases.both_args (cwd Demo.world0)).
Proof.
  refine (proj1 (do_something_performs_its_plan Demo.host0 SiblingCases.both_args
                   Demo.world0) _).
  vm_compute. reflexivity.
Defined.

Lemma do_something_validates_after_installing_witness :
  fst (do_something Demo.host0 SiblingCases.one_arg Demo.world0) <> Ok None
  /\ is_prefix
       (map fst (trace_of Demo.world0
                   (snd (do_something Demo.host0 SiblingCases.one_arg Demo.world0))))
       pip_installs.
Proof.
  refine (proj2 (proj2 (do_something_validates_after_installing Demo.host0
                          SiblingCases.one_arg Demo.world0)) _).
  vm_compute. discriminate.
Defined.

(* ================================================================== *)
(** ** Where [do_something] looks for the generated project *)

Import Landing E2E.

Lemma prefix_dot c s : String.prefix "." (String c s) = Ascii.eqb c ".".
Proof.
  cbn [String.prefix]. destruct (ascii_dec "." c) as [<-|Hc].
  - now destruct s.
  - symmetry. apply Ascii.eqb_neq. congruence.
Qed.

Lemma replace_dot_cons c s :
  replace (String c s) "." ""
  = if Ascii.eqb c "." then replace s "." "" else String c (replace s "." "").
Proof.
  unfold replace. cbn [replace_from]. rewrite prefix_dot.
  destruct (Ascii.eqb c "."); reflexivity.
Qed.

Lemma replace_dot_free s : mem_char "." (replace s "." "") = false.
Proof.
  induction s as [|c s IH]; [reflexivity|]. rewrite replace_dot_cons.
  destruct (Ascii.eqb c ".") eqn:Hc; [exact IH|]. cbn [mem_char]. now rewrite Hc.
Qed.

Lemma replace_dot_app a b :
  replace (a +++ b) "." "" = replace a "." "" +++ replace b "." "".
Proof.
  induction a as [|c a IH]; [reflexivity|].
  cbn [String.append]. rewrite !replace_dot_cons.
  destruct (Ascii.eqb c "."); [exact IH|]. cbn [String.append]. now rewrite IH.
Qed.

Lemma replace_dot_id s : mem_char "." s = false -> replace s "." "" = s.
Proof.
  induction s as [|c s IH]; [reflexivity|]. cbn [mem_char]. intros H.
  apply orb_false_elim in H as [Hc Hs]. rewrite replace_dot_cons, Hc. now rewrite IH.
Qed.

(** No occurrence of [json] straddles the end of a stem. *)
Lemma json_at_stem s :
  s <> "" -> String.prefix "json" (s +++ ".json") = String.prefix "json" s.
Proof.
  destruct s as [|c1 [|c2 [|c3 [|c4 s]]]]; intros H; [congruence|..];
    cbn [String.prefix String.append];
    repeat match goal with
           | |- context [ascii_dec ?a ?b] =>
               destruct (ascii_dec a b) as [e|e];
               [try discriminate e; try (injection e as e; subst)|]
           end;
    try reflexivity; try (now destruct s).
Qed.

Lemma replace_json_stem stem :
  occurs "json" stem = false -> replace (stem +++ ".json") "json" "" = stem +++ ".".
Proof.
  unfold replace. induction stem as [|c stem IH]; intros H.
  - reflexivity.
  - cbn [occurs] in H. apply orb_false_elim in H as [H1 H2].
    change (String c stem +++ ".json") with (String c (stem +++ ".json")).
    cbn [replace_from].
    change (String c (stem +++ ".json")) with (String c stem +++ ".json").
    rewrite json_at_stem by discriminate. rewrite H1.
    cbn [String.append]. f_equal. now apply IH.
Qed.

(** X10. The path at which [do_something] expects the generated project
    holds no dot, since the dots are removed from the whole path; and for
    a replay file named [stem.json], with a stem that holds neither a dot
    nor the text [json], it is [/tmp/stem], the path [test_cookiecutter]
    derives from the same two arguments. *)
Theorem sibling_output_has_no_dot (posargs : list string) :
  mem_char "." (expected_output posargs) = false
  /\ (forall stem cwd0,
        length posargs = 2%nat ->
        Path.basename (nth 1 posargs "") = stem +++ ".json" ->
        mem_char "." stem = false ->
        occurs "json" stem = false ->
        expected_output posargs = "/tmp/" +++ stem
        /\ cc_test_output (resolve posargs cwd0) = expected_output posargs).
Proof.
  split; [apply replace_dot_free|].
  intros stem cwd0 Hlen Hb Hd Hj.
  assert (E : expected_output posargs = "/tmp/" +++ stem).
  { unfold expected_output, cc_build_path. rewrite Hb, replace_json_stem by exact Hj.
    change ("/tmp" +++ "/" +++ stem +++ ".") with (("/tmp/" +++ stem) +++ ".").
    rewrite replace_dot_app.
    change (replace "." "." "") with "". rewrite append_nil_r.
    change ("/tmp/" +++ stem) with ("/tmp" +++ String "/" stem).
    rewrite replace_dot_app. change (replace "/tmp" "." "") with "/tmp".
    change (String "/" stem) with ("/" +++ stem). rewrite replace_dot_app.
    change (replace "/" "." "") with "/". now rewrite replace_dot_id. }
  split; [exact E|]. rewrite E.
  assert (Ea : effective_args posargs = posargs) by (destruct posargs; [discriminate Hlen|reflexivity]).
  unfold resolve. cbn [cc_test_output]. rewrite Ea, Hb.
  rewrite replace_stem; [reflexivity|].
  clear -Hd. induction stem as [|c stem IH]; [reflexivity|].
  cbn [mem_char] in Hd. apply orb_false_elim in Hd as [Hc Hs].
  cbn [occurs]. rewrite (IH Hs), orb_false_r.
  cbn [String.prefix]. destruct (ascii_dec "." c) as [<-|]; [discriminate Hc|reflexivity].
Qed.

Lemma sibling_output_has_no_dot_witness :
  expected_output SiblingCases.both_args = "/tmp/" +++ "tap-rest-api_key-github"
  /\ cc_test_output (resolve SiblingCases.both_args "/repo")
     = expected_output SiblingCases.both_args.
Proof.
  refine (proj2 (sibling_output_has_no_dot SiblingCases.both_args)
            "tap-rest-api_key-github" "/repo" _ _ _ _).
  - reflexivity.
  - vm_compute. reflexivity.
  - vm_compute. reflexivity.
  - vm_compute. reflexivity.
Defined.

(* ================================================================== *)
(** ** The other sessions of noxfile.py *)

Import E2E Sessions Suite.

Section Others.

Variable h : host.

(** A session that is a script follows its plan. *)
Lemma script_follows plan w :
  follows plan (fst (script h plan w)) (trace_of w (snd (script h plan w))).
Proof.
  destruct (script_run h plan w) as (t & Hl & _ & _ & Hr).
  rewrite (trace_of_app _ _ _ Hl). unfold follows.
  destruct (fst (script h plan w)) as [u|e]; [exact Hr|].
  destruct Hr as (a & c & done & rest & -> & Hc & Hp & Ht). eauto.
Qed.

Ltac by_cases :=
  unfold bind, ret;
  repeat match goal with
         | |- context [perform h ?a ?w] =>
             destruct (perform h a w) as [[[]|?] ?]; try reflexivity
         end.

Lemma mypy_script s w : mypy h s w = script h (mypy_plan s) w.
Proof.
  unfold mypy, mypy_plan, or_else, session_install, session_run, self_check, stubs.
  destruct (posargs s) as [|a l]; cbn [truthy negb script]; by_cases.
Qed.

Lemma update_snapshots_script s w :
  update_snapshots h s w = script h (update_snapshots_plan s) w.
Proof.
  unfold update_snapshots, update_snapshots_plan, or_else, session_install, session_run.
  destruct (posargs s) as [|a l]; cbn [truthy app script]; by_cases.
Qed.

Lemma doctest_script s w : doctest h s w = script h (doctest_plan s) w.
Proof.
  unfold doctest, doctest_plan, package, session_install, session_run.
  destruct (posargs s) as [|a l]; cbn [truthy app script];
    [destruct (in_environ "FORCE_COLOR" s); cbn [app]|]; by_cases.
Qed.

End Others.

(** A fourth action of a run that follows the plan of [mypy] is the
    check of the nox file. *)
Lemma mypy_fourth_action s r t :
  follows (mypy_plan s) r t ->
  (length t = 4%nat <->
   posargs s = []
   /\ exists c, t = zeros [Install ["."]; Install stubs; Run ["mypy"; "singer_sdk"] false]
                    ++ [(self_check s, c)]).
Proof.
  unfold follows, mypy_plan. intros F. split.
  - intros Hl. destruct (posargs s) as [|x l].
    + split; [reflexivity|]. destruct r as [u|[a c| | | |]]; try contradiction.
      * exists 0%Z. exact F.
      * destruct F as (_ & done & rest & Hp & ->).
        rewrite length_app, length_zeros in Hl. cbn [length] in Hl.
        destruct done as [|d1 [|d2 [|d3 [|d4 done]]]]; cbn [length] in Hl; try lia.
        cbn [app] in Hp. injection Hp as <- <- <- <- _. exists c. reflexivity.
    + exfalso. destruct r as [u|[a c| | | |]]; try contradiction.
      * subst t. cbn [zeros map length] in Hl. lia.
      * destruct F as (_ & done & rest & Hp & ->).
        apply (f_equal (@length _)) in Hp.
        rewrite length_app, length_zeros in Hl. rewrite length_app in Hp.
        cbn [length] in Hl, Hp. lia.
  - intros (_ & c & ->). reflexivity.
Qed.

(** X11. [mypy], [update_snapshots] and [doctest] install and then run
    one tool, and a failure ends the session there. [mypy] checks the
    arguments, or [singer_sdk] when there is none, and only when there is
    none it goes on, as a fourth action, to check the nox file with the
    interpreter of the running process. [update_snapshots] passes the
    arguments, or the marker [-m snapshot], after [--snapshot-update].
    [doctest] always names the package first, followed by the arguments,
    and asks for colour only when there is no argument and [FORCE_COLOR]
    is set. *)
Theorem plain_sessions_follow_their_plans (h : host) (s : setting) (w : world) :
  follows (mypy_plan s) (fst (mypy h s w)) (trace_of w (snd (mypy h s w)))
  /\ (length (trace_of w (snd (mypy h s w))) = 4%nat <->
      posargs s = []
      /\ exists c,
           trace_of w (snd (mypy h s w))
           = zeros [Install ["."]; Install stubs; Run ["mypy"; "singer_sdk"] false]
             ++ [(self_check s, c)])
  /\ follows (update_snapshots_plan s) (fst (update_snapshots h s w))
       (trace_of w (snd (update_snapshots h s w)))
  /\ follows (doctest_plan s) (fst (doctest h s w)) (trace_of w (snd (doctest h s w))).
Proof.
  rewrite mypy_script, update_snapshots_script, doctest_script.
  split; [apply script_follows|].
  split; [apply (mypy_fourth_action s _ _ (script_follows h _ w))|].
  split; apply script_follows.
Qed.

Import E2E Sessions Suite.

(* ================================================================== *)
(** ** [tests]: the coverage session is queued in a [finally] *)

Section Tests.

Variable h : host.

Lemma lift_perform a st :
  lift (perform h a) st
  = (if Z.eqb (fst (spawn h a (sys st))) 0 then Ok tt
     else Raise (CommandFailed a (fst (spawn h a (sys st)))),
     {| sys := after h a (sys st); notified := notified st;
        environments := environments st |}).
Proof. unfold lift. rewrite perform_run. reflexivity. Qed.

End Tests.

(** X12. [tests] queues the coverage session in a [finally]: once the
    two installations have passed, the test run is started with
    [SQLALCHEMY_WARN_20=1] in its environment and, in an interactive run,
    [coverage] is queued with no argument whether the test run passes or
    fails, a failure still ending the session with that command's
    status; when an installation fails nothing is queued. Outside an
    interactive run nothing is ever queued. *)
Theorem tests_notifies_coverage (h : host) (s : setting) (st : state) :
  let r := fst (tests h s st) in
  let st' := snd (tests h s st) in
  let t := trace_of (sys st) (sys st') in
  let queued := if interactive s then [("coverage", [])] else [] in
  let given := [(pytest_command s, [("SQLALCHEMY_WARN_20", "1")])] in
  (r = Ok tt /\ t = zeros (tests_installs ++ [pytest_command s])
   /\ notified st' = notified st ++ queued
   /\ environments st' = environments st ++ given)
  \/ (exists c, c <> 0%Z /\ r = Raise (CommandFailed (pytest_command s) c)
        /\ t = zeros tests_installs ++ [(pytest_command s, c)]
        /\ notified st' = notified st ++ queued
        /\ environments st' = environments st ++ given)
  \/ (exists a c done rest,
        c <> 0%Z /\ r = Raise (CommandFailed a c)
        /\ tests_installs = done ++ a :: rest
        /\ t = zeros done ++ [(a, c)]
        /\ notified st' = notified st
        /\ environments st' = environments st).
Proof.
  cbv zeta. unfold tests, then_, session_install, session_run_env, session_run.
  rewrite lift_perform.
  destruct (Z.eqb_spec (fst (spawn h (Install [".[s3]"]) (sys st))) 0) as [E1|E1].
  2:{ right; right. cbn [fst snd sys notified environments].
      exists (Install [".[s3]"]), (fst (spawn h (Install [".[s3]"]) (sys st))), [], [Install test_dependencies].
      repeat split; try assumption; try reflexivity.
      apply trace_of_app. reflexivity. }
  rewrite lift_perform. cbn [sys notified environments].
  set (w1 := after h (Install [".[s3]"]) (sys st)).
  destruct (Z.eqb_spec (fst (spawn h (Install test_dependencies) w1)) 0) as [E2|E2].
  2:{ right; right. cbn [fst snd sys notified environments].
      exists (Install test_dependencies), (fst (spawn h (Install test_dependencies) w1)),
        [Install [".[s3]"]], [].
      repeat split; try assumption; try reflexivity.
      apply trace_of_app. unfold w1, after; cbn [log zeros map app].
      rewrite E1, <- app_assoc. reflexivity. }
  set (w2 := after h (Install test_dependencies) w1).
  unfold try_finally. rewrite lift_perform. cbn [fst snd sys notified environments].
  fold (pytest_command s).
  set (w3 := after h (pytest_command s) w2).
  assert (Hl : log w3 = log (sys st) ++ zeros tests_installs
                        ++ [(pytest_command s, fst (spawn h (pytest_command s) w2))]).
  { change (log w3)
      with (log w2 ++ [(pytest_command s, fst (spawn h (pytest_command s) w2))]).
    change (log w2)
      with (log w1 ++ [(Install test_dependencies,
                        fst (spawn h (Install test_dependencies) w1))]).
    rewrite E2.
    change (log w1)
      with (log (sys st) ++ [(Install [".[s3]"], fst (spawn h (Install [".[s3]"]) (sys st)))]).
    rewrite E1. cbn [zeros map app tests_installs]. rewrite <- !app_assoc. reflexivity. }
  destruct (interactive s); cbn [session_notify unit_ fst snd sys notified environments].
  all: destruct (Z.eqb_spec (fst (spawn h (pytest_command s) w2)) 0) as [E3|E3].
  all: rewrite (trace_of_app _ _ _ Hl).
  1,3: left; rewrite E3, zeros_app, ?app_nil_r; auto.
  all: right; left; eexists; rewrite ?app_nil_r; eauto.
Qed.

(* ================================================================== *)
(** ** [coverage]: when the data files are combined *)

Section Coverage.

Variable h : host.

Lemma coverage_after_install s w :
  coverage h s w
  = if Z.eqb (fst (spawn h coverage_install w)) 0
    then script h (coverage_steps s (coverage_data (after h coverage_install w)))
           (after h coverage_install w)
    else (Raise (CommandFailed coverage_install (fst (spawn h coverage_install w))),
          after h coverage_install w).
Proof.
  unfold coverage, session_install, session_run. rewrite perform_after.
  fold coverage_install.
  destruct (Z.eqb (fst (spawn h coverage_install w)) 0); [|reflexivity].
  set (w1 := after h coverage_install w).
  unfold coverage_steps, report_command, combine_command, or_else.
  destruct (posargs s) as [|a l]; cbn [truthy negb].
  - unfold bind at 1. unfold any_glob at 1. unfold coverage_data, startswith.
    destruct (existsb _ _); cbn [app script]; unfold bind, ret;
      repeat match goal with
             | |- context [perform h ?a ?w] =>
                 destruct (perform h a w) as [[[]|?] ?]; try reflexivity
             end.
  - cbn [script]. unfold bind, ret.
    destruct (perform h _ w1) as [[[]|?] ?]; reflexivity.
Qed.

(** The first action of a script is performed. *)
Lemma script_starts a rest w :
  exists c t, trace_of w (snd (script h (a :: rest) w)) = (a, c) :: t
              /\ forall b, In b (map fst t) -> In b rest.
Proof.
  destruct (script_run h (a :: rest) w) as (t & Hl & _ & _ & Hr).
  rewrite (trace_of_app _ _ _ Hl).
  destruct (fst (script h (a :: rest) w)) as [u|e].
  - subst t. cbn [zeros map]. exists 0%Z, (zeros rest). split; [reflexivity|].
    intros b. now rewrite map_fst_zeros.
  - destruct Hr as (x & c & done & more & _ & _ & Hp & ->).
    destruct done as [|d done]; cbn [app] in Hp; injection Hp as <- Hp.
    + exists c, []. split; [reflexivity|]. intros b [].
    + exists 0%Z, (zeros done ++ [(x, c)]). split; [reflexivity|].
      intros b. rewrite map_app, map_fst_zeros, Hp. cbn [map fst].
      intros Hb. apply in_app_or in Hb as [Hb|[<-|[]]];
        apply in_or_app; [left|right; left]; auto.
Qed.

End Coverage.

(** X13. [coverage] installs, combines, reports: once the installation
    has passed it runs [coverage combine] when it was given no argument
    and the working directory then holds an entry named [.coverage.*],
    and ends with [coverage] followed by its arguments, or by [report -m]
    when there is none; a failure ends the session there. So [coverage
    combine] is performed exactly when the installation passed and
    either there is no argument and a data file is found, or [combine] is
    the one argument given. *)
Theorem coverage_combines_parallel_data (h : host) (s : setting) (w : world) :
  let r := fst (coverage h s w) in
  let t := trace_of w (snd (coverage h s w)) in
  let w1 := after h coverage_install w in
  follows (coverage_install :: coverage_steps s (coverage_data w1)) r t
  /\ (In combine_command (map fst t) <->
      fst (spawn h coverage_install w) = 0%Z
      /\ ((posargs s = [] /\ coverage_data w1 = true) \/ posargs s = ["combine"])).
Proof.
  cbv zeta. split.
  { assert (E : coverage h s w
                = script h (coverage_install
                            :: coverage_steps s (coverage_data (after h coverage_install w))) w).
    { rewrite coverage_after_install. cbn [script]. now rewrite perform_after. }
    rewrite E. apply script_follows. }
  rewrite coverage_after_install.
  destruct (Z.eqb_spec (fst (spawn h coverage_install w)) 0) as [E|E].
  2:{ cbn [snd]. rewrite (trace_of_app w _ [(coverage_install, fst (spawn h coverage_install w))])
        by reflexivity.
      cbn [map fst In]. split; [intros [H|[]]; discriminate H | intros [H _]; contradiction]. }
  set (w1 := after h coverage_install w).
  set (steps := coverage_steps s (coverage_data w1)).
  assert (Ht : trace_of w (snd (script h steps w1))
               = (coverage_install, 0%Z) :: trace_of w1 (snd (script h steps w1))).
  { destruct (script_run h steps w1) as (t & Hl & _).
    rewrite (trace_of_app _ _ _ Hl).
    apply trace_of_app. rewrite Hl. unfold w1, after; cbn [log]. rewrite E.
    now rewrite <- app_assoc. }
  rewrite Ht. cbn [map fst In].
  assert (Hsteps : exists a rest, steps = a :: rest).
  { unfold steps, coverage_steps. destruct (posargs s); [destruct (coverage_data w1)|];
      cbn [app]; eauto. }
  destruct Hsteps as (a & rest & Hs).
  destruct (script_starts h a rest w1) as (c & t & Hc & Hin). rewrite <- Hs in Hc.
  rewrite Hc. cbn [map fst In].
  unfold steps, coverage_steps, report_command, combine_command in Hs.
  split.
  - intros [H|[H|H]]; [discriminate H| |]; (split; [exact E|]).
    + subst a. destruct (posargs s) as [|x l]; [destruct (coverage_data w1)|]; cbn [app] in Hs.
      * left; auto.
      * discriminate Hs.
      * right. injection Hs as Hx Hl _. now rewrite Hx, Hl.
    + apply Hin in H. destruct (posargs s) as [|x l]; [destruct (coverage_data w1)|];
        cbn [app] in Hs; injection Hs as <- <-.
      * left; auto.
      * destruct H.
      * destruct H.
  - intros (_ & [[Hp Hd]|Hp]); right; left; rewrite Hp in Hs; [rewrite Hd in Hs|];
      cbn [app] in Hs; now injection Hs as <- _.
Qed.

(* ================================================================== *)
(** ** [docs] and [docs_serve]: the build directory is cleared first *)

Section Docs.

Variable h : host.

Lemma clear_build_dir_run w :
  (path_isfile w "build" = true
   /\ clear_build_dir w = (Raise (NotADirectoryError "build"), w))
  \/ (path_isfile w "build" = false /\ clear_build_dir w = (Ok tt, cleared w)).
Proof.
  unfold clear_build_dir, bind, os_path_exists, shutil_rmtree, cleared, build_dir.
  unfold path_isfile, path_isdir, path_exists. cbv beta zeta.
  destruct (stat (fs w) (cwd w) "build") as [q [c|names]| |] eqn:E;
    [left|right|right|right]; split; try reflexivity; cbv beta iota; rewrite ?E;
    try reflexivity.
  destruct (stat_at _ _ _ _ _ E) as (-> & _). reflexivity.
Qed.

Lemma cleared_has_no_build w :
  path_isfile w "build" = false -> path_exists (cleared w) "build" = false.
Proof.
  unfold cleared, build_dir, path_isfile, path_isdir, path_exists.
  destruct (stat (fs w) (cwd w) "build") as [q [c|names]| |] eqn:E; intros H.
  - discriminate H.
  - cbn [fs cwd]. destruct (stat_at _ _ _ _ _ E) as (Hq & _).
    destruct (stat (remove_tree (locate w "build") (fs w)) (cwd w) "build")
      as [q' n| |] eqn:E'; try reflexivity.
    destruct (stat_at _ _ _ _ _ E') as (Hq' & Hn). exfalso.
    unfold locate in Hn. rewrite <- Hq' in Hn. unfold remove_tree, below in Hn.
    rewrite String.eqb_refl in Hn. discriminate Hn.
  - now rewrite E.
  - now rewrite E.
Qed.

Lemma cleared_below w q :
  path_isdir w "build" = true -> below (build_dir w) q = true -> fs (cleared w) q = None.
Proof.
  unfold cleared. intros -> H. cbn [fs]. unfold remove_tree. now rewrite H.
Qed.

Lemma cleared_elsewhere w q :
  below (build_dir w) q = false -> q <> Path.dirname (build_dir w) ->
  fs (cleared w) q = fs w q.
Proof.
  unfold cleared. intros H1 H2. destruct (path_isdir w "build"); [|reflexivity].
  cbn [fs]. unfold remove_tree. rewrite H1.
  apply String.eqb_neq in H2. now rewrite H2.
Qed.

Lemma docs_arguments s :
  (if negb (truthy (posargs s)) && in_environ "FORCE_COLOR" s
   then "--color" :: or_else (posargs s) ["docs"; "build"; "-W"]
   else or_else (posargs s) ["docs"; "build"; "-W"])
  = docs_args s.
Proof.
  unfold docs_args, or_else.
  destruct (posargs s) as [|a l]; [destruct (in_environ "FORCE_COLOR" s)|]; reflexivity.
Qed.

Lemma serve_arguments s :
  or_else (posargs s)
    ["--open-browser"; "--watch"; "."; "--ignore"; "**/.nox/*"; "docs"; "build"; "-W"]
  = serve_args s.
Proof. unfold serve_args, or_else. destruct (posargs s) as [|a l]; reflexivity. Qed.

Lemma docs_run s w :
  fst (spawn h docs_install w) = 0%Z ->
  let w1 := after h docs_install w in
  (path_isfile w1 "build" = true ->
   docs h s w = (Raise (NotADirectoryError "build"), w1)
   /\ docs_serve h s w = (Raise (NotADirectoryError "build"), w1))
  /\ (path_isfile w1 "build" = false ->
      docs h s w = perform h (Run ("sphinx-build" :: docs_args s) false) (cleared w1)
      /\ docs_serve h s w
         = perform h (Run ("sphinx-autobuild" :: serve_args s) false) (cleared w1)).
Proof.
  intros Hi. cbv zeta. unfold docs, docs_serve, session_install, session_run.
  rewrite docs_arguments, serve_arguments. fold docs_install.
  rewrite !perform_after, Hi. cbn [Z.eqb].
  set (w1 := after h docs_install w).
  destruct (clear_build_dir_run w1) as [(Hf & E)|(Hf & E)]; rewrite Hf.
  - split; [intros _|discriminate].
    now rewrite !(bind_raise _ _ _ _ _ E).
  - split; [discriminate|intros _].
    now rewrite !(bind_ok _ _ _ _ _ E).
Qed.

End Docs.

(** X14. [docs] and [docs_serve] clear the build directory before they
    build: once the installation has passed, the builder is started in a
    world that has no [build] entry in the working directory, everything
    below a former [build] directory being gone and every path outside
    it, its parent's listing apart, being as the installation left it;
    when [build] is a regular file the session raises
    [NotADirectoryError] for it and starts no builder. [docs] gives the
    builder its arguments, or [docs build -W], preceded by [--color] only
    when there is no argument and [FORCE_COLOR] is set; [docs_serve]
    gives its arguments or its own defaults. *)
Theorem docs_clear_build_directory (h : host) (s : setting) (w : world) :
  fst (spawn h docs_install w) = 0%Z ->
  let w1 := after h docs_install w in
  (path_isfile w1 "build" = true ->
   docs h s w = (Raise (NotADirectoryError "build"), w1)
   /\ docs_serve h s w = (Raise (NotADirectoryError "build"), w1))
  /\ (path_isfile w1 "build" = false ->
      docs h s w = perform h (Run ("sphinx-build" :: docs_args s) false) (cleared w1)
      /\ docs_serve h s w
         = perform h (Run ("sphinx-autobuild" :: serve_args s) false) (cleared w1)
      /\ path_exists (cleared w1) "build" = false
      /\ (path_isdir w1 "build" = true ->
          forall q, below (build_dir w1) q = true -> fs (cleared w1) q = None)
      /\ (forall q, below (build_dir w1) q = false -> q <> Path.dirname (build_dir w1) ->
          fs (cleared w1) q = fs w1 q)).
Proof.
  intros Hi. cbv zeta. destruct (docs_run h s w Hi) as (H1 & H2).
  split; [exact H1|]. intros Hf. destruct (H2 Hf) as (E1 & E2).
  split; [exact E1|]. split; [exact E2|].
  split; [now apply cleared_has_no_build|].
  split; [intros Hd q; now apply cleared_below | intros q; apply cleared_elsewhere].
Qed.

Lemma docs_clear_build_directory_witness :
  docs Cases.host_idle plain (Demo.start built "/repo")
  = perform Cases.host_idle (Run ("sphinx-build" :: docs_args plain) false)
      (cleared (after Cases.host_idle docs_install (Demo.start built "/repo")))
  /\ fs (cleared (after Cases.host_idle docs_install (Demo.start built "/repo")))
        "/repo/build/index.html" = None.
Proof.
  destruct (docs_clear_build_directory Cases.host_idle plain (Demo.start built "/repo")
              eq_refl) as (_ & H).
  destruct (H eq_refl) as (E & _ & _ & Hb & _).
  split; [exact E|]. apply Hb; vm_compute; reflexivity.
Defined.

Lemma coverage_combines_parallel_data_witness :
  In combine_command
     (map fst (trace_of (Demo.start measured "/repo")
                 (snd (coverage Cases.host_idle plain (Demo.start measured "/repo"))))).
Proof.
  refine (proj2 (proj2 (coverage_combines_parallel_data Cases.host_idle plain
                          (Demo.start measured "/repo"))) _).
  split; [reflexivity|]. left. split; vm_compute; reflexivity.
Defined.

(** Runs of the model: a failing test run in an interactive session still
    queues [coverage]; [combine] given as the argument is the report
    command; a regular file named [build] stops [docs]. *)
Lemma tests_failing_run_still_notifies :
  fst (tests (host_failing "coverage") at_the_terminal (fresh Demo.world0))
  = Raise (CommandFailed (pytest_command at_the_terminal) 1%Z)
  /\ notified (snd (tests (host_failing "coverage") at_the_terminal (fresh Demo.world0)))
     = [("coverage", [])].
Proof. split; vm_compute; reflexivity. Qed.

Lemma combine_as_argument_is_the_report :
  map fst (trace_of Demo.world0 (snd (coverage Cases.host_idle combining Demo.world0)))
  = [coverage_install; combine_command].
Proof. vm_compute. reflexivity. Qed.

Lemma docs_blocked_by_a_file :
  fst (docs Cases.host_idle plain (Demo.start blocked "/repo"))
  = Raise (NotADirectoryError "build")
  /\ fst (docs_serve Cases.host_idle plain (Demo.start blocked "/repo"))
     = Raise (NotADirectoryError "build").
Proof. split; vm_compute; reflexivity. Qed.

(* ================================================================== *)
(** ** The gates, from the first to the last *)

Import Landing E2E Progress.

Section Runner.

Variable h : host.

Lemma aggregate_lint_log args w :
  exists t, log (snd (aggregate_lint h args w)) = log w ++ t.
Proof.
  destruct (aggregate_lint_script h args w) as [E | (_ & E)]; rewrite E.
  - destruct (script_run h (lint_plan h args) w) as (t & Hl & _). eauto.
  - exists []. cbn [snd]. now rewrite app_nil_r.
Qed.

(** With a library found, the runner performs the gates from the first
    on, each after the one before it passed. *)
Lemma runner_gates args w0 lib :
  fst (library_discovery h w0) = Ok (Some lib) ->
  gates_went (gate_commands true lib)
    (fst (verification_runner h args w0))
    (trace_of w0 (snd (verification_runner h args w0))).
Proof.
  intros H. destruct (library_discovery_pure h w0) as (l & E).
  rewrite E in H. cbn [fst] in H. injection H as ->.
  unfold verification_runner. rewrite (bind_ok _ _ _ _ _ E).
  rewrite (bind_congr _ _ _ _ (quality_gates_script h lib w0)).
  destruct (after_script h (gate_commands true lib) (fun _ => aggregate_lint h args) w0)
    as [(w2 & E2 & Hl & _) | (a & s & done & rest & w2 & E2 & Hs & Hcmds & Hl)];
    rewrite E2.
  - left. destruct (aggregate_lint_log args w2) as (t & Ht).
    exists t. apply trace_of_app. now rewrite Ht, Hl, <- app_assoc.
  - right. exists done, a, rest, s. cbn [fst snd].
    rewrite (trace_of_app _ _ _ Hl). auto.
Qed.

End Runner.

(** C1. The verification runner, once a library is found, performs the
    four gates (formatter, import sorter, style linter, type checker) from
    the first on, in that order, each as an action of its own: all four
    pass, or one exits with a non-zero status after those before it
    passed, nothing is performed after it and the run raises
    [CommandFailed] with that gate and that status. A run of
    [test_cookiecutter] that passes the input checks follows its plan, in
    which the gates come after everything else but the aggregate lint;
    it stops short of the first gate only on a failed action, on a change
    of directory to an output directory that is no directory, or when the
    discovery finds no library. A run of [do_something] follows its plan
    likewise, with the gates last on the fixed library name. In both
    sessions the gates of a run are the first ones of the four in their
    order, and an action that exits with a non-zero status is the last
    one performed and is the one reported. *)
Theorem gates_in_order_fail_fast (h : host) (posargs : list string) (w : world) :
  let r1 := fst (test_cookiecutter h posargs w) in
  let w1 := snd (test_cookiecutter h posargs w) in
  let r2 := fst (do_something h posargs w) in
  let w2 := snd (do_something h posargs w) in
  let i := resolve posargs (cwd w) in
  (forall args w0 lib,
     fst (library_discovery h w0) = Ok (Some lib) ->
     gates_went (gate_commands true lib)
       (fst (verification_runner h args w0))
       (trace_of w0 (snd (verification_runner h args w0))))
  /\ (exists library_name,
        orderly (gate_commands true library_name) r1 (trace_of w w1)
        /\ (rejects posargs w = false ->
            ran h i (stale posargs w) library_name r1 (trace_of w w1)))
  /\ (forall n, r1 = Raise (UnboundLocalError n) ->
        fst (library_discovery h w1) = Ok None)
  /\ (forall p, r1 = Raise (FileNotFoundError p) \/ r1 = Raise (NotADirectoryError p) ->
        p = cc_test_output i /\ path_isdir w1 p = false)
  /\ orderly (gate_commands false "tap_rest_api_key_github") r2 (trace_of w w2)
  /\ finished posargs w (in_the_way h posargs w) r2 w2.
Proof.
  cbv zeta. split; [intros args w0 lib; apply runner_gates|].
  destruct (rejects posargs w) eqn:R.
  - destruct (test_cookiecutter_rejected h posargs w R) as (line & E). rewrite E.
    cbn [fst snd].
    assert (Et : trace_of w (printed line w) = []).
    { apply trace_of_app. cbn [log printed]. now rewrite app_nil_r. }
    split; [exists ""; rewrite Et; split; [apply idle_orderly|discriminate]|].
    split; [discriminate|].
    split; [intros p [H|H]; discriminate H|].
    split; [apply do_something_orderly|apply do_something_finished].
  - destruct (test_cookiecutter_ran h posargs w R) as (t & lib & Hl & Hr).
    pose proof (test_cookiecutter_lands h posargs w R) as (_ & Hm & Hn & _ & _ & Hu).
    rewrite (trace_of_app _ _ _ Hl).
    split; [exists lib; split; [now apply (ran_orderly h _ _ _ _ _ Hr)|intros _; exact Hr]|].
    split; [intros n E; now destruct (Hu n E)|].
    split.
    + intros p [E|E].
      * destruct (Hm p E) as (-> & He). split; [reflexivity|].
        unfold path_isdir. unfold path_exists in He.
        destruct (stat _ _ _) as [q [?|?]| |]; try reflexivity; discriminate He.
      * now apply Hn.
    + split; [apply do_something_orderly|apply do_something_finished].
Qed.

(* ================================================================== *)
(** ** Discovery: a matching entry is selected, none is an error *)

Lemma last_library_some names n :
  In n names -> is_library n = true -> exists m, last_library names = Some m.
Proof.
  intros Hin Hn. unfold last_library.
  assert (H : In n (filter is_library names)) by (apply filter_In; auto).
  destruct (filter is_library names) as [|a l]; [destruct H|].
  rewrite last_option_cons. destruct (last_option l); eauto.
Qed.

(** C4 (as amended). Where the path of the working directory holds none
    of the wildcard characters of [glob] and its entries have proper
    names: when some entry's name starts with [tap] or [target], the
    discovery selects such an entry of the working directory, and the
    verification runner goes on to the gates on it, the formatter first;
    whatever it selects is such an entry; and when no entry's name does,
    the verification runner raises [UnboundLocalError] for
    [library_name] in an unchanged world, so before any gate is run. *)
Theorem discovery_without_match_fails_before_gates
  (h : host) (args : list string) (w : world) :
  Glob.has_magic (cwd w) = false ->
  Forall slash_free (listdir (fs w) (cwd w)) ->
  ((exists n, In n (listdir (fs w) (cwd w)) /\ is_library n = true) ->
   exists m,
     library_discovery h w = (Ok (Some m), w)
     /\ In m (listdir (fs w) (cwd w)) /\ is_library m = true
     /\ gates_went (gate_commands true m)
          (fst (verification_runner h args w))
          (trace_of w (snd (verification_runner h args w))))
  /\ (forall n, fst (library_discovery h w) = Ok (Some n) ->
                In n (listdir (fs w) (cwd w)) /\ is_library n = true)
  /\ ((forall n, In n (listdir (fs w) (cwd w)) -> is_library n = false) ->
      verification_runner h args w = (Raise (UnboundLocalError "library_name"), w)).
Proof.
  intros Hm Hs. pose proof (library_discovery_last h w Hm Hs) as E.
  split; [|split].
  - intros (n & Hin & Hn). destruct (last_library_some _ n Hin Hn) as (m & Em).
    rewrite Em in E. exists m. destruct (last_library_in _ _ Em) as (Hi & Hl).
    split; [exact E|]. split; [exact Hi|]. split; [exact Hl|].
    apply runner_gates. now rewrite E.
  - intros n. rewrite E. cbn [fst]. intros [= En]. now apply last_library_in.
  - intros Hnone. unfold verification_runner. rewrite (bind_ok _ _ _ _ _ E).
    rewrite (last_library_none _ Hnone). reflexivity.
Qed.

Lemma discovery_without_match_fails_before_gates_witness :
  verification_runner Demo.host0 [] (Demo.inside Demo.one_line_manifest ["README.md"; "tests"])
  = (Raise (UnboundLocalError "library_name"),
     Demo.inside Demo.one_line_manifest ["README.md"; "tests"]).
Proof.
  refine (proj2 (proj2 (discovery_without_match_fails_before_gates Demo.host0 []
                   (Demo.inside Demo.one_line_manifest ["README.md"; "tests"]) _ _)) _).
  - reflexivity.
  - vm_compute. repeat constructor.
  - intros n Hn. vm_compute in Hn.
    repeat (destruct Hn as [<- | Hn]; [reflexivity|]). contradiction.
Defined.

(** C4, as stated, fails: in a project whose path holds a bracket, none
    of whose entries starts with [tap] or [target], the discovery raises
    nothing: it scans the directory [/tmp/tap-a] the path stands for as a
    pattern, selects an entry of that directory, and the four gates and
    the aggregate lint are run on it. *)
Lemma discovery_scans_other_directories :
  cwd Wild.without_library = "/tmp/tap-[ab]"
  /\ forallb (fun n => negb (is_library n))
       (listdir (fs Wild.without_library) (cwd Wild.without_library)) = true
  /\ fst (library_discovery Demo.host0 Wild.without_library) = Ok (Some "target_other")
  /\ mem_name "target_other"
       (listdir (fs Wild.without_library) (cwd Wild.without_library)) = false
  /\ fst (verification_runner Demo.host0 [] Wild.without_library) = Ok tt
  /\ map fst (trace_of Wild.without_library
                (snd (verification_runner Demo.host0 [] Wild.without_library)))
     = gate_commands true "target_other" ++ [tox_command].
Proof. repeat split; vm_compute; reflexivity. Qed.

(* ------------------------------------------------------------------ *)
(** ** The patch step inside a run *)

(** When cleaning, generation and the change of directory succeed, the
    process is inside the generated project. *)
Lemma before_patcher_lands (h : host) (i : inputs) (w wp : world) :
  before_patcher h i w = (Ok tt, wp) ->
  cwd wp = locate w (cc_test_output i).
Proof.
  unfold before_patcher.
  rewrite (bind_congr _ _ _ _ (stale_output_cleaner_script h _ w)).
  match goal with
  | |- context [bind (script h ?c) ?k ?w0] =>
      destruct (after_script_cwd h c k w0)
        as [(w1 & E & _ & Hc1) | (a & s & done & rest & w1 & E & _)];
      rewrite E; clear E; cbv beta; [|discriminate]
  end.
  rewrite (scaffold_generator_script h i w1).
  match goal with
  | |- context [bind (script h ?c) ?k ?w0] =>
      destruct (after_script_cwd h c k w0)
        as [(w2 & E & _ & Hc2) | (a & s & done & rest & w2 & E & _)];
      rewrite E; clear E; cbv beta; [|discriminate]
  end.
  match goal with
  | |- context [bind (os_chdir ?p) ?k ?w0] =>
      destruct (after_chdir_detail p k w0)
        as [(w3 & E & _ & Hc3) | [[E _] | [E _]]];
      rewrite E; clear E; cbv beta; [|discriminate..]
  end.
  intros [= <-]. cbn [cwd printed]. rewrite Hc3. unfold locate.
  now rewrite Hc2, Hc1.
Qed.

(** A run that reaches the patch step is the rest of the session started
    where the patch step stops. *)
Lemma test_cookiecutter_from_patch (h : host) (posargs : list string) (w : world) :
  reaches_patcher h posargs w ->
  fst (patch_manifest h (sdk_dir (resolve posargs (cwd w))) (at_patcher h posargs w)) = Ok tt ->
  test_cookiecutter h posargs w
  = after_patch h (resolve posargs (cwd w))
      (snd (patch_manifest h (sdk_dir (resolve posargs (cwd w))) (at_patcher h posargs w))).
Proof.
  intros [Hr Hb] Hp. unfold at_patcher in *.
  set (i := resolve posargs (cwd w)) in *.
  destruct (before_patcher h i w) as [r wp] eqn:Ebp. cbn [fst snd] in *. subst r.
  destruct (patch_manifest h (sdk_dir i) wp) as [r w1] eqn:Epm. cbn [fst snd] in *. subst r.
  unfold test_cookiecutter.
  rewrite (bind_ok _ _ _ _ _ (input_resolver_accepts posargs w Hr)). fold i.
  rewrite <- (bind_assoc (stale_output_cleaner h (cc_test_output i))
                (fun _ => scaffold_generator h i)
                (fun _ => dependency_patcher h (sdk_dir i) ;;
                          verification_runner h (args i) ;; ret None) w).
  change (bind (stale_output_cleaner h (cc_test_output i))
            (fun _ => scaffold_generator h i)) with (before_patcher h i).
  rewrite (bind_ok _ _ _ _ _ Ebp).
  unfold dependency_patcher. rewrite bind_assoc.
  rewrite (bind_ok _ _ _ _ _ Epm).
  rewrite bind_assoc. reflexivity.
Qed.

(** C10 (as amended). In a run of the session that gets as far as the
    patch step, with the generated project's [pyproject.toml] a regular
    file and a development directory whose path holds no character the
    editor's script gives a meaning to: the process is inside the
    generated project; the editor exits with status 0 and is the one
    command the patch step adds to the log; when it stops, the file
    [pyproject.toml.bak] beside the manifest holds the manifest's former
    contents and the manifest holds the rewritten ones, whether or not a
    line matched; and the run goes on with [poetry lock] from there. *)
Theorem patch_writes_backup (h : host) (posargs : list string) (w : world)
    (content : string) :
  let i := resolve posargs (cwd w) in
  let wp := at_patcher h posargs w in
  let w1 := snd (patch_manifest h (sdk_dir i) wp) in
  reaches_patcher h posargs w ->
  fs wp (manifest_path wp) = Some (File content) ->
  sed_plain (sdk_dir i) = true ->
  cwd wp = generated_project posargs w
  /\ fst (patch_manifest h (sdk_dir i) wp) = Ok tt
  /\ fs w1 (backup_path wp) = Some (File content)
  /\ fs w1 (manifest_path wp) = Some (File (patched (sdk_dir i) content))
  /\ log w1 = log wp ++ [(sed_command (sdk_dir i), 0%Z)]
  /\ cwd w1 = cwd wp
  /\ test_cookiecutter h posargs w = after_patch h i w1.
Proof.
  intros i wp w1 Hreach Hf Hs.
  assert (Hrun := patch_manifest_run h (sdk_dir i) content wp Hs Hf).
  assert (Hok : fst (patch_manifest h (sdk_dir i) wp) = Ok tt) by now rewrite Hrun.
  split.
  { destruct Hreach as [_ Hb]. unfold generated_project.
    apply (before_patcher_lands h i w wp).
    unfold wp, at_patcher. subst i. revert Hb. clear.
    destruct (before_patcher h _ w) as [r w0]. cbn [fst snd]. now intros ->. }
  split; [exact Hok|].
  split; [unfold w1; rewrite Hrun; cbn [snd fs]; apply written_backup|].
  split; [unfold w1; rewrite Hrun; cbn [snd fs]; apply written_manifest|].
  split; [unfold w1; now rewrite Hrun|].
  split; [unfold w1; now rewrite Hrun|].
  exact (test_cookiecutter_from_patch h posargs w Hreach Hok).
Qed.

Lemma patch_writes_backup_witness :
  fs (snd (patch_manifest Demo.host0 "/repo" (at_patcher Demo.host0 [] Demo.world0)))
     (backup_path (at_patcher Demo.host0 [] Demo.world0))
  = Some (File Demo.one_line_manifest).
Proof.
  refine (proj1 (proj2 (proj2
            (patch_writes_backup Demo.host0 [] Demo.world0 Demo.one_line_manifest _ _ _)))).
  - split; vm_compute; reflexivity.
  - vm_compute. reflexivity.
  - vm_compute. reflexivity.
Defined.

(** With the checkout under [/r|d] the run reaches the patch step, the
    manifest of the generated project is a regular file, the editor is
    handed a script it does not take and exits with status 1, the run
    stops there, and no [pyproject.toml.bak] is written. *)
Lemma barred_directory_leaves_no_backup :
  rejects Wild.barred_args Wild.barred_world = false
  /\ fst (before_patcher Wild.host_strict
            (resolve Wild.barred_args (cwd Wild.barred_world)) Wild.barred_world) = Ok tt
  /\ sdk_dir (resolve Wild.barred_args (cwd Wild.barred_world)) = "/r|d"
  /\ sed_plain "/r|d" = false
  /\ manifest_path (at_patcher Wild.host_strict Wild.barred_args Wild.barred_world)
     = "/tmp/tap-rest-api_key-github/pyproject.toml"
  /\ fs (at_patcher Wild.host_strict Wild.barred_args Wild.barred_world)
        "/tmp/tap-rest-api_key-github/pyproject.toml"
     = Some (File Demo.one_line_manifest)
  /\ fst (test_cookiecutter Wild.host_strict Wild.barred_args Wild.barred_world)
     = Raise (CommandFailed (sed_command "/r|d") 1%Z)
  /\ fs (snd (test_cookiecutter Wild.host_strict Wild.barred_args Wild.barred_world))
        "/tmp/tap-rest-api_key-github/pyproject.toml.bak"
     = None.
Proof. repeat split; vm_compute; reflexivity. Qed.
